(** * StyleScanner: the line annotator of StyleScanner.cpp, embedded and verified

    A shallow embedding of the tokenizer, the comment classifier, the type
    registry pass, the scope tracker, the label adjuster and the two
    structural predicates of [StyleScanner.cpp], followed by the properties
    proved about them.

    Conventions of the embedding.
    - A [std::string] is a list of bytes ([list ascii]); [s.[i]] is [s[i]].
    - An [int] is a [Z].  Signed overflow is undefined in C++ and cannot
      happen before a file holds 2^31 braces, so no wrap-around is modelled.
    - A [vector<T>] is a list; [vget v i] reads [v[i]] and [vset v i x] writes
      it.  The source never indexes out of range (that would be undefined
      behaviour); the model returns the default element on a read and leaves
      the vector unchanged on a write there.
    - [for (int i = 0; i < n; i++)] is [for_loop n body], a left fold over the
      indices [0 .. n-1]; a [while] whose exit is not syntactically bounded
      takes fuel and returns [None] when the fuel runs out.
    - The character classes are those of the "C" locale; a byte above 127
      belongs to none of them. *)

From Stdlib Require Import ZArith Ascii String List Lia Bool.
From stdpp Require Import base option list list_numbers sorting strings.

Open Scope Z_scope.

(** ** Strings and vectors *)

Abbreviation str := (list ascii).

#[global] Instance ascii_inhabited : Inhabited ascii := populate Ascii.zero.

(** A string literal of the source. *)
Definition lit (s : string) : str := list_ascii_of_string s.

Definition charAt (s : str) (i : Z) : ascii := s !!! Z.to_nat i.
Notation "s .[ i ]" := (charAt s i) (at level 1, left associativity, format "s .[ i ]").

Definition vget {A} `{Inhabited A} (v : list A) (i : Z) : A := v !!! Z.to_nat i.
Definition vset {A} (v : list A) (i : Z) (x : A) : list A := <[Z.to_nat i := x]> v.

(** [s.substr(start, n)], for [start <= s.length()]. *)
Definition substr (s : str) (start n : Z) : str :=
  take (Z.to_nat n) (drop (Z.to_nat start) s).

(** [(bool) x] on an [int]; [!x] is its negation. *)
Definition toBool (x : Z) : bool := negb (x =? 0).

(** [s == t] on strings and on characters. *)
Definition streq (s t : str) : bool := bool_decide (s = t).
Definition chareq (c d : ascii) : bool := bool_decide (c = d).

(** ** Loops *)

(** [for (int i = 0; i < n; i++) body]. *)
Definition for_loop {St} (n : Z) (body : Z → St → St) (st : St) : St :=
  foldl (λ st i, body i st) st (seqZ 0 n).

(** [while (cond) body], with fuel. *)
Fixpoint while {St} (cond : St → bool) (body : St → St) (fuel : nat) (st : St)
  : option St :=
  match fuel with
  | O => None
  | S fuel' => if cond st then while cond body fuel' (body st) else Some st
  end.

(** ** Character classes of <cctype>, "C" locale *)

Definition code (c : ascii) : Z := Z.of_N (N_of_ascii c).

Definition in_range (lo hi : Z) (c : ascii) : bool :=
  (lo <=? code c) && (code c <=? hi).

Definition isspace (c : ascii) : bool := in_range 9 13 c || (code c =? 32).
Definition isupper (c : ascii) : bool := in_range 65 90 c.
Definition islower (c : ascii) : bool := in_range 97 122 c.
Definition isalpha (c : ascii) : bool := isupper c || islower c.
Definition isdigit (c : ascii) : bool := in_range 48 57 c.
Definition isalnum (c : ascii) : bool := isalpha c || isdigit c.
Definition ispunct (c : ascii) : bool :=
  in_range 33 47 c || in_range 58 64 c || in_range 91 96 c || in_range 123 126 c.

(** ** Constants of the source *)

Definition NO_COMMENT : Z := 0.
Definition C_COMMENT : Z := 1.
Definition CPP_COMMENT : Z := 2.

Definition COMMA : ascii := ascii_of_nat 44.
Definition SEMICOLON : ascii := ascii_of_nat 59.
Definition QUESTION_MARK : ascii := ascii_of_nat 63.
Definition LEFT_BRACE : ascii := ascii_of_nat 123.
Definition RIGHT_BRACE : ascii := ascii_of_nat 125.

Definition C_COMMENT_START : str := ["/"; "*"]%char.
Definition C_COMMENT_END : str := ["*"; "/"]%char.
Definition DOUBLE_SLASH : str := ["/"; "/"]%char.

(** ** Utility functions *)

Definition getLength (line : str) : Z := Z.of_nat (length line).
Definition getSize {A} (vec : list A) : Z := Z.of_nat (length vec).

(** [for (int i = 0; i < getLength(line); i++) if (!isspace(line[i])) return i;]
    with [return -1] after the loop.  The fuel [getLength line - i] is spent
    exactly when the loop condition fails. *)
Fixpoint getFirstNonspacePos_from (line : str) (fuel : nat) (i : Z) : Z :=
  match fuel with
  | O => -1
  | S fuel' =>
      if i <? getLength line then
        if negb (isspace line.[i]) then i
        else getFirstNonspacePos_from line fuel' (i + 1)
      else -1
  end.

Definition getFirstNonspacePos (line : str) : Z :=
  getFirstNonspacePos_from line (Z.to_nat (getLength line)) 0.

(** [for (int i = getLength(line) - 1; i >= 0; i--) ...]; the fuel [i + 1]
    is spent exactly when [i >= 0] fails. *)
Fixpoint getLastNonspacePos_from (line : str) (fuel : nat) (i : Z) : Z :=
  match fuel with
  | O => -1
  | S fuel' =>
      if 0 <=? i then
        if negb (isspace line.[i]) then i
        else getLastNonspacePos_from line fuel' (i - 1)
      else -1
  end.

Definition getLastNonspacePos (line : str) : Z :=
  getLastNonspacePos_from line (Z.to_nat (getLength line)) (getLength line - 1).

Definition isBlank (line : str) : bool := getFirstNonspacePos line =? -1.

(** [s.rfind(t, 0) == 0]: the only match [rfind] may report from position 0
    is one at position 0. *)
Definition stringStartsWith (s t : str) : bool :=
  bool_decide (substr s 0 (getLength t) = t).

(** [s.find(t, s.length() - t.length()) != string::npos].  The difference is
    unsigned: when [t] is longer than [s] it wraps to a position past the
    end and [find] reports nothing. *)
Definition stringEndsWith (s t : str) : bool :=
  if getLength s <? getLength t then false
  else bool_decide (substr s (getLength s - getLength t) (getLength t) = t).

(** ** Tokenizer *)

(** [while (pos < getLength(s) && P(s[pos])) pos++;]  The fuel
    [getLength s - pos] is spent exactly when [pos < getLength(s)] fails. *)
Fixpoint advance_from (P : ascii → bool) (s : str) (fuel : nat) (pos : Z) : Z :=
  match fuel with
  | O => pos
  | S fuel' =>
      if (pos <? getLength s) && P s.[pos] then advance_from P s fuel' (pos + 1)
      else pos
  end.

Definition advance (P : ascii → bool) (s : str) (pos : Z) : Z :=
  advance_from P s (Z.to_nat (getLength s - pos)) pos.

Definition UNDERSCORE : ascii := "_"%char.
Definition PERIOD : ascii := "."%char.

Definition findTokenEnd (s : str) (pos : Z) : Z :=
  if isalpha s.[pos] || chareq s.[pos] UNDERSCORE then
    advance (λ c, isalnum c || chareq c UNDERSCORE) s pos
  else if isdigit s.[pos] then
    advance (λ c, isdigit c || chareq c PERIOD) s pos
  else if ispunct s.[pos] then
    advance ispunct s pos
  else pos.

(** Returns the token and the updated [pos]. *)
Definition getNextToken (s : str) (pos : Z) : str * Z :=
  let pos := advance isspace s pos in
  if getLength s <=? pos then ([], pos)
  else
    let start := pos in
    let pos := findTokenEnd s pos in
    (substr s start (pos - start), pos).

Definition getFirstToken (s : str) : str := (getNextToken s 0).1.

(** State of the loop of [getLastToken]. *)
Record LastTokenState := { lt_pos : Z; lt_lastToken : str; lt_nextToken : str }.

Definition getLastToken_cond (st : LastTokenState) : bool :=
  negb (streq (lt_nextToken st) []).

Definition getLastToken_body (s : str) (st : LastTokenState) : LastTokenState :=
  let lastToken := lt_nextToken st in
  let '(nextToken, pos) := getNextToken s (lt_pos st) in
  {| lt_pos := pos; lt_lastToken := lastToken; lt_nextToken := nextToken |}.

Definition getLastToken_fuel (fuel : nat) (s : str) : option str :=
  let '(nextToken, pos) := getNextToken s 0 in
  st ← while getLastToken_cond (getLastToken_body s) fuel
         {| lt_pos := pos; lt_lastToken := []; lt_nextToken := nextToken |};
  Some (lt_lastToken st).

(** [length s + 1] iterations are always enough ([getLastToken_total]). *)
Definition getLastToken (s : str) : str :=
  default [] (getLastToken_fuel (S (length s)) s).

(** The tokens that the loop of [showTokens] prints for one line. *)
Record ShowTokensState := { sh_pos : Z; sh_token : str; sh_out : list str }.

Definition showTokens_cond (st : ShowTokensState) : bool :=
  negb (streq (sh_token st) []).

Definition showTokens_body (s : str) (st : ShowTokensState) : ShowTokensState :=
  let out := sh_out st ++ [sh_token st] in
  let '(token, pos) := getNextToken s (sh_pos st) in
  {| sh_pos := pos; sh_token := token; sh_out := out |}.

Definition showTokens_fuel (fuel : nat) (line : str) : option (list str) :=
  let '(token, pos) := getNextToken line 0 in
  st ← while showTokens_cond (showTokens_body line) fuel
         {| sh_pos := pos; sh_token := token; sh_out := [] |};
  Some (sh_out st).

Definition showTokens_line (line : str) : list str :=
  default [] (showTokens_fuel (S (length line)) line).

(** ** Type names *)

Definition isBasicType (s : str) : bool :=
  existsb (streq s)
    [lit "int"; lit "float"; lit "double"; lit "char"; lit "bool";
     lit "string"; lit "void"].

Definition isClassKeyword (s : str) : bool :=
  streq s (lit "class") || streq s (lit "struct").

Definition isStartParen (s : str) : bool :=
  (0 <? getLength s) && chareq s.[0] "("%char.

(** ** Line shape *)

Definition isLineStartOpenBrace (line : str) : bool :=
  let firstPos := getFirstNonspacePos line in
  (0 <=? firstPos) && chareq line.[firstPos] LEFT_BRACE.

Definition isLineStartCloseBrace (line : str) : bool :=
  let firstPos := getFirstNonspacePos line in
  (0 <=? firstPos) && chareq line.[firstPos] RIGHT_BRACE.

Definition isLineLabel (line : str) : bool :=
  let firstToken := getFirstToken line in
  existsb (streq firstToken)
    [lit "case"; lit "default"; lit "public"; lit "private"; lit "protected"].

Definition isLineEndingSemicolon (line : str) : bool :=
  let lastPos := getLastNonspacePos line in
  negb (lastPos =? -1) && chareq line.[lastPos] SEMICOLON.

(** ** The scanner object and its passes *)

(** The member data the passes read and write. *)
Record StyleScanner := {
  fileLines : list str;
  newTypes : list str;
  commentLines : list Z;
  scopeLevels : list Z
}.

Definition isCommentLine (sc : StyleScanner) (line : Z) : bool :=
  toBool (vget (commentLines sc) line).

Definition isNewType (sc : StyleScanner) (s : str) : bool :=
  existsb (streq s) (newTypes sc).

Definition isAnyType (sc : StyleScanner) (s : str) : bool :=
  isBasicType s || isNewType sc s.

(** One iteration of the loop of [scanCommentLines]; the state is
    [commentLines] and the local [inCstyleComment]. *)
Definition scanCommentLines_body (fileLines : list str) (i : Z)
    (st : list Z * bool) : list Z * bool :=
  let '(commentLines, inCstyleComment) := st in
  let firstToken := getFirstToken (vget fileLines i) in
  let lastToken := getLastToken (vget fileLines i) in
  let inCstyleComment :=
    if stringStartsWith firstToken C_COMMENT_START then true
    else inCstyleComment in
  let commentLines :=
    if inCstyleComment then vset commentLines i C_COMMENT else commentLines in
  let inCstyleComment :=
    if stringEndsWith lastToken C_COMMENT_END then false
    else inCstyleComment in
  let commentLines :=
    if stringStartsWith firstToken DOUBLE_SLASH
    then vset commentLines i CPP_COMMENT else commentLines in
  (commentLines, inCstyleComment).

(** The loop as far as line [n], from the resized vector. *)
Definition scanCommentLines_upto (sc : StyleScanner) (n : Z) : list Z * bool :=
  for_loop n (scanCommentLines_body (fileLines sc))
    (resize (length (fileLines sc)) 0 (commentLines sc), false).

Definition scanCommentLines (sc : StyleScanner) : StyleScanner :=
  {| fileLines := fileLines sc;
     newTypes := newTypes sc;
     commentLines := (scanCommentLines_upto sc (getSize (fileLines sc))).1;
     scopeLevels := scopeLevels sc |}.

Definition scanNewTypeDefs_body (sc : StyleScanner) (i : Z)
    (newTypes : list str) : list str :=
  if negb (isCommentLine sc i) then
    let pos := 0 in
    let line := vget (fileLines sc) i in
    let '(prefix, pos) := getNextToken line pos in
    if isClassKeyword prefix then
      let '(name, pos) := getNextToken line pos in
      newTypes ++ [name]
    else newTypes
  else newTypes.

Definition scanNewTypeDefs (sc : StyleScanner) : StyleScanner :=
  {| fileLines := fileLines sc;
     newTypes :=
       for_loop (getSize (fileLines sc)) (scanNewTypeDefs_body sc) (newTypes sc);
     commentLines := commentLines sc;
     scopeLevels := scopeLevels sc |}.

(** The inner loop of [scanScopeLevels] over the characters of a line. *)
Definition countBraces (line : str) (scopeLevel : Z) : Z :=
  for_loop (getLength line)
    (λ i scopeLevel,
       if chareq line.[i] LEFT_BRACE then scopeLevel + 1
       else if chareq line.[i] RIGHT_BRACE then scopeLevel - 1
       else scopeLevel)
    scopeLevel.

(** One iteration of the loop of [scanScopeLevels]; the state is
    [scopeLevels] and the local running counter [scopeLevel]. *)
Definition scanScopeLevels_body (sc : StyleScanner) (i : Z)
    (st : list Z * Z) : list Z * Z :=
  let '(scopeLevels, scopeLevel) := st in
  let scopeLevels := vset scopeLevels i scopeLevel in
  if negb (toBool (vget (commentLines sc) i)) then
    let line := vget (fileLines sc) i in
    let scopeLevel := countBraces line scopeLevel in
    let scopeLevels :=
      if isLineStartCloseBrace line
      then vset scopeLevels i (vget scopeLevels i - 1) else scopeLevels in
    (scopeLevels, scopeLevel)
  else (scopeLevels, scopeLevel).

Definition scanScopeLevels_upto (sc : StyleScanner) (n : Z) : list Z * Z :=
  for_loop n (scanScopeLevels_body sc)
    (resize (length (fileLines sc)) 0 (scopeLevels sc), 0).

Definition scanScopeLevels (sc : StyleScanner) : StyleScanner :=
  {| fileLines := fileLines sc;
     newTypes := newTypes sc;
     commentLines := commentLines sc;
     scopeLevels := (scanScopeLevels_upto sc (getSize (fileLines sc))).1 |}.

Definition thisLineLabel (sc : StyleScanner) (i : Z) : bool :=
  negb (toBool (vget (commentLines sc) i))
  && isLineLabel (vget (fileLines sc) i).

(** One iteration of the loop of [scanScopeLabels]; the state is
    [scopeLevels] and the local [labelLevel]. *)
Definition scanScopeLabels_body (sc : StyleScanner) (i : Z)
    (st : list Z * Z) : list Z * Z :=
  let '(scopeLevels, labelLevel) := st in
  let thisLineLabel := thisLineLabel sc i in
  if negb (toBool labelLevel) then
    if thisLineLabel then (scopeLevels, vget scopeLevels i)
    else (scopeLevels, labelLevel)
  else
    if vget scopeLevels i <? labelLevel then (scopeLevels, 0)
    else if negb thisLineLabel
    then (vset scopeLevels i (vget scopeLevels i + 1), labelLevel)
    else (scopeLevels, labelLevel).

Definition scanScopeLabels_upto (sc : StyleScanner) (n : Z) : list Z * Z :=
  for_loop n (scanScopeLabels_body sc) (scopeLevels sc, 0).

Definition scanScopeLabels (sc : StyleScanner) : StyleScanner :=
  {| fileLines := fileLines sc;
     newTypes := newTypes sc;
     commentLines := commentLines sc;
     scopeLevels := (scanScopeLabels_upto sc (getSize (fileLines sc))).1 |}.

(** The fresh object of [main], holding the lines read from the file. *)
Definition newScanner (lines : list str) : StyleScanner :=
  {| fileLines := lines; newTypes := []; commentLines := []; scopeLevels := [] |}.

(** The post-processing of [readFile], on the lines read. *)
Definition readFile (lines : list str) : StyleScanner :=
  scanScopeLabels
    (scanScopeLevels (scanNewTypeDefs (scanCommentLines (newScanner lines)))).

(** ** The two structural predicates *)

Definition mayBeRunOnLine (sc : StyleScanner) (line : Z) : bool :=
  if (0 <? line)
     && (vget (scopeLevels sc) line =? vget (scopeLevels sc) (line - 1))
     && negb (toBool (vget (commentLines sc) (line - 1)))
     && negb (isBlank (vget (fileLines sc) (line - 1)))
  then
    let priorLine := vget (fileLines sc) (line - 1) in
    let lastPriorChar := getLastNonspacePos priorLine in
    if negb (chareq priorLine.[lastPriorChar] SEMICOLON) then true else false
  else false.

(** The loop [while (name == "*") name = getNextToken(s, pos);] of
    [isFunctionHeader], on the pair of [name] and [pos]. *)
Definition skipStars_cond (st : str * Z) : bool := streq st.1 (lit "*").
Definition skipStars_body (s : str) (st : str * Z) : str * Z :=
  getNextToken s st.2.

(** [isFunctionHeader(s, name)]: the result and the final content of the
    reference parameter [name]. *)
Definition isFunctionHeader_fuel (fuel : nat) (s name : str)
  : option (bool * str) :=
  let pos := 0 in
  let '(type, pos) := getNextToken s pos in
  if isBasicType type && negb (isLineEndingSemicolon s) then
    let '(name, pos) := getNextToken s pos in
    '(name, pos) ← while skipStars_cond (skipStars_body s) fuel (name, pos);
    let '(nextSymbol, pos) := getNextToken s pos in
    let '(name, nextSymbol, pos) :=
      if streq nextSymbol (lit "::") then
        let '(name, pos) := getNextToken s pos in
        let '(nextSymbol, pos) := getNextToken s pos in
        (name, nextSymbol, pos)
      else (name, nextSymbol, pos) in
    if isStartParen nextSymbol then Some (true, name) else Some (false, name)
  else Some (false, name).

(** [length s + 1] iterations are always enough ([isFunctionHeader_total]). *)
Definition isFunctionHeader2 (s name : str) : bool * str :=
  default (false, name) (isFunctionHeader_fuel (S (length s)) s name).

(** The one-argument overload. *)
Definition isFunctionHeader (s : str) : bool :=
  let dummyName := [] in
  (isFunctionHeader2 s dummyName).1.

(** ** Vocabulary of the statements *)

(** The characters the tokenizer knows: white space, and the characters
    that start or continue a word, a number or a punctuation run. *)
Definition classified (c : ascii) : bool :=
  isspace c || isalpha c || chareq c UNDERSCORE || isdigit c || ispunct c.

(** A string without its white space. *)
Fixpoint removeSpaces (s : str) : str :=
  match s with
  | [] => []
  | c :: s' => if isspace c then removeSpaces s' else c :: removeSpaces s'
  end.

(** The part of a string before its first unclassified character. *)
Fixpoint classifiedPrefix (s : str) : str :=
  match s with
  | [] => []
  | c :: s' => if classified c then c :: classifiedPrefix s' else []
  end.

(** What the tokenizer can see of a string. *)
Definition visible (s : str) : str := removeSpaces (classifiedPrefix s).

(** The tokens of a line from [pos] on, by repeated [getNextToken]. *)
Fixpoint tokensFrom (s : str) (fuel : nat) (pos : Z) : list str :=
  match fuel with
  | O => []
  | S fuel' =>
      let '(token, pos') := getNextToken s pos in
      if streq token [] then [] else token :: tokensFrom s fuel' pos'
  end.

(** *** Token streams *)

(** The measure of the token loops: what is left of the line, plus one
    while the current token is not the empty one. *)
Definition tokenMeasure (s : str) (pos : Z) (token : str) : nat :=
  (Z.to_nat (getLength s - pos) + if streq token [] then 0 else 1)%nat.

(** The tokens of a line from [pos] on. *)
Definition tokensAt (s : str) (pos : Z) : list str :=
  tokensFrom s (S (Z.to_nat (getLength s - pos))) pos.

(** The tokens still to come, the current one included. *)
Definition streamAt (s : str) (token : str) (pos : Z) : list str :=
  if streq token [] then [] else token :: tokensAt s pos.

(** A token and the position [getNextToken] left with it. *)
Definition liveState (s : str) (token : str) (pos : Z) : Prop :=
  0 ≤ pos ∧ (token = [] → getNextToken s pos = ([], pos)).

(** The [k]-th token of a list, empty past its end: what the [k]-th call
    of [getNextToken] returns. *)
Definition tokenOf (toks : list str) (k : nat) : str := default [] (toks !! k).

(** Leading pointer tokens dropped. *)
Fixpoint dropStars (toks : list str) : list str :=
  match toks with
  | [] => []
  | t :: toks' => if streq t (lit "*") then dropStars toks' else toks
  end.

(** *** The shape of a function header *)

(** The test of [isFunctionHeader] on the tokens of the line: after the
    type, the pointer tokens are skipped, one token is taken as the name,
    and the next one must open a parenthesis; when that next one is the
    scope operator, one more name is taken first. *)
Definition headerShape (toks : list str) : bool :=
  let rest := dropStars (tail toks) in
  let nextSymbol := tokenOf rest 1 in
  if streq nextSymbol (lit "::") then isStartParen (tokenOf rest 3)
  else isStartParen nextSymbol.

(** The token left in [name]. *)
Definition headerName (toks : list str) : str :=
  let rest := dropStars (tail toks) in
  if streq (tokenOf rest 1) (lit "::") then tokenOf rest 2 else tokenOf rest 0.

(** *** The comment classifier, line by line *)

Definition opensBlock (line : str) : bool :=
  stringStartsWith (getFirstToken line) C_COMMENT_START.
Definition closesBlock (line : str) : bool :=
  stringEndsWith (getLastToken line) C_COMMENT_END.
Definition startsLineComment (line : str) : bool :=
  stringStartsWith (getFirstToken line) DOUBLE_SLASH.

(** The local [inCstyleComment] on entry to iteration [i]. *)
Definition inBlockComment (lines : list str) (i : Z) : bool :=
  (scanCommentLines_upto (newScanner lines) i).2.

(** The tags of a file. *)
Definition commentTags (lines : list str) : list Z :=
  commentLines (readFile lines).

(** The tag iteration [i] leaves, entered with the flag [inC]. *)
Definition lineTag (line : str) (inC : bool) : Z :=
  if startsLineComment line then CPP_COMMENT
  else if opensBlock line || inC then C_COMMENT
  else NO_COMMENT.

(** The flag iteration [i] leaves. *)
Definition nextInBlock (line : str) (inC : bool) : bool :=
  if closesBlock line then false else opensBlock line || inC.

(** *** The scope tracker, line by line *)

(** Occurrences of a character in a line. *)
Definition countChar (c : ascii) (line : str) : Z :=
  Z.of_nat (count_occ ascii_dec line c).

(** Net brace balance of a line: opening braces minus closing braces. *)
Definition braceBalance (line : str) : Z :=
  countChar LEFT_BRACE line - countChar RIGHT_BRACE line.

(** The object the scope tracker runs on. *)
Definition trackerInput (lines : list str) : StyleScanner :=
  scanNewTypeDefs (scanCommentLines (newScanner lines)).

(** The local running counter [scopeLevel] on entry to iteration [i]. *)
Definition runningLevel (lines : list str) (i : Z) : Z :=
  (scanScopeLevels_upto (trackerInput lines) i).2.

(** The depths the scope tracker records, before the label pass. *)
Definition braceDepths (lines : list str) : list Z :=
  scopeLevels (scanScopeLevels (trackerInput lines)).

(** The depths after the label pass. *)
Definition depths (lines : list str) : list Z := scopeLevels (readFile lines).

(** The correction of a line that starts with a closing brace. *)
Definition closeBraceCorrection (tag : Z) (line : str) : Z :=
  if (tag =? 0) && isLineStartCloseBrace line then 1 else 0.

(** *** The label adjuster, line by line *)

(** The local [labelLevel] on entry to iteration [i]. *)
Definition labelLevelAt (lines : list str) (i : Z) : Z :=
  (scanScopeLabels_upto (scanScopeLevels (trackerInput lines)) i).2.

(** [thisLineLabel] of iteration [i]. *)
Definition isLabelLine (lines : list str) (i : Z) : bool :=
  thisLineLabel (readFile lines) i.

(** The [labelLevel] an iteration leaves, for a line of recorded depth [d]. *)
Definition nextLabelLevel (label : bool) (d labelLevel : Z) : Z :=
  if labelLevel =? 0 then (if label then d else 0)
  else if d <? labelLevel then 0 else labelLevel.

(** Whether an iteration increments the depth of its line. *)
Definition labelAdjusted (label : bool) (d labelLevel : Z) : bool :=
  negb (labelLevel =? 0) && negb (d <? labelLevel) && negb label.

(** *** The claims that do not hold, as they are stated *)

(** The bell character, which belongs to no class of <cctype>, and the
    tabulator. *)
Definition BEL : ascii := ascii_of_nat 7.
Definition TAB : ascii := ascii_of_nat 9.

(** The claim C7 as it is stated: the tokens of a line, put end to end, are
    the line without its white space. *)
Definition tokensReproduceLine (line : str) : Prop :=
  concat (showTokens_line line) = removeSpaces line.

(** The predicate as C1 describes it, following the words of the
    specification: the first token is a type name that is built in or in the
    registry, the line does not end in a semicolon, and the tokens after the
    type have the shape of a header. *)
Definition claimedFunctionHeader (sc : StyleScanner) (s : str) : bool :=
  isAnyType sc (getFirstToken s)
  && negb (bool_decide (last (removeSpaces s) = Some SEMICOLON))
  && headerShape (showTokens_line s).

(** The claim C1 as it is stated, for one object and one line. *)
Definition headerFollowsClaim (sc : StyleScanner) (s : str) : Prop :=
  isFunctionHeader s = claimedFunctionHeader sc s.

(** The claim C3 as it is stated: no line strictly between the line that
    opens a block comment and the line that bears the close marker is tagged
    as a line comment. *)
Definition noLineCommentInsideBlock (lines : list str) : Prop :=
  ∀ j i,
    0 ≤ j < i → i < getSize lines →
    opensBlock (vget lines j) = true →
    (∀ k, j ≤ k ≤ i → closesBlock (vget lines k) = false) →
    vget (commentTags lines) i ≠ CPP_COMMENT.

(** The claim C6 as it is stated: after a block comment that is opened and
    never closed, the flag stays set and every line from the opener to the
    end of the file is tagged as a block comment. *)
Definition unterminatedBlockAllTagged (lines : list str) : Prop :=
  ∀ j,
    0 ≤ j < getSize lines →
    opensBlock (vget lines j) = true →
    (∀ k, j ≤ k < getSize lines → closesBlock (vget lines k) = false) →
    inBlockComment lines (getSize lines) = true
    ∧ ∀ i, j ≤ i < getSize lines → vget (commentTags lines) i = C_COMMENT.

(** The second half of the claim C4 as it is stated: a line whose recorded
    depth is 0 or below is never adjusted by the label pass. *)
Definition noLabelAdjustOutsideScope (lines : list str) : Prop :=
  ∀ i, 0 ≤ i < getSize lines →
       vget (braceDepths lines) i ≤ 0 →
       vget (depths lines) i = vget (braceDepths lines) i.

(** * More of the program *)

(** The helpers and the checks that read the annotated file.  A [check...]
    function of the source fills a local vector [errorLines] and hands it to
    [printErrors]; its embedding returns that vector.  What [printErrors]
    sends to [cout] is a list of [Output] items, and the member [anyErrors]
    it writes is passed in and returned.  The option flag a check reads
    ([doFunctionLengthCheck]) is an argument of its embedding. *)

(** ** Loops that collect line numbers *)

(** [for (int i = lo; i < hi; i++) body]. *)
Definition for_range {St} (lo hi : Z) (body : Z → St → St) (st : St) : St :=
  foldl (λ st i, body i st) st (seqZ lo (hi - lo)).

(** The loop of the [check...] functions: [errorLines] starts empty and
    iteration [i] does [errorLines.push_back(i)] when its test holds.  The
    result is the vector handed to [printErrors]. *)
Definition collectLines (lo hi : Z) (test : Z → bool) : list Z :=
  for_range lo hi
    (λ i errorLines, if test i then errorLines ++ [i] else errorLines) [].

(** [s.find(t)] of [std::string]: the lowest position at which [t] occurs
    in [s], [None] for [string::npos]. *)
Fixpoint string_find_from (s t : str) (fuel : nat) (pos : Z) : option Z :=
  match fuel with
  | O => None
  | S fuel' =>
      if bool_decide (substr s pos (getLength t) = t) then Some pos
      else string_find_from s t fuel' (pos + 1)
  end.

Definition string_find (s t : str) : option Z :=
  string_find_from s t (Z.to_nat (getLength s - getLength t + 1)) 0.

(** ** Line helpers *)

(** [isBlank(int line)]. *)
Definition isBlankLine (sc : StyleScanner) (line : Z) : bool :=
  isBlank (vget (fileLines sc) line).

Definition isLeftBrace (sc : StyleScanner) (line : Z) : bool :=
  let startPos := getFirstNonspacePos (vget (fileLines sc) line) in
  let endPos := getLastNonspacePos (vget (fileLines sc) line) in
  negb (startPos =? -1)
  && (startPos =? endPos)
  && chareq (vget (fileLines sc) line).[startPos] LEFT_BRACE.

(** [for (int i = 0; i < getSize(fileLines); i++) if (commentLines[i])
    return i;] with [return -1] after the loop. *)
Fixpoint getFirstCommentLine_from (sc : StyleScanner) (fuel : nat) (i : Z) : Z :=
  match fuel with
  | O => -1
  | S fuel' =>
      if i <? getSize (fileLines sc) then
        if toBool (vget (commentLines sc) i) then i
        else getFirstCommentLine_from sc fuel' (i + 1)
      else -1
  end.

Definition getFirstCommentLine (sc : StyleScanner) : Z :=
  getFirstCommentLine_from sc (Z.to_nat (getSize (fileLines sc))) 0.

(** The loop of [isCommentBeforeCase] from [cLine] on. *)
Fixpoint isCommentBeforeCase_from (sc : StyleScanner) (fuel : nat) (cLine : Z)
  : bool :=
  match fuel with
  | O => false
  | S fuel' =>
      if cLine <? getSize (fileLines sc) then
        if isCommentLine sc cLine then isCommentBeforeCase_from sc fuel' (cLine + 1)
        else
          let firstToken := getFirstToken (vget (fileLines sc) cLine) in
          if streq firstToken (lit "case") || streq firstToken (lit "default")
          then true else false
      else false
  end.

Definition isCommentBeforeCase (sc : StyleScanner) (line : Z) : bool :=
  if isCommentLine sc line then
    isCommentBeforeCase_from sc
      (Z.to_nat (getSize (fileLines sc) - (line + 1))) (line + 1)
  else false.

(** ** Indentation *)

Definition getStartTabCount (line : str) : Z :=
  let count := 0 in
  advance (λ c, chareq c TAB) line count.

(** The loop [for (int i = 0; i < checkToPos; i++)] of [isIndentTabs]. *)
Fixpoint isIndentTabs_from (lineStr : str) (checkToPos : Z) (fuel : nat) (i : Z)
  : bool :=
  match fuel with
  | O => true
  | S fuel' =>
      if i <? checkToPos then
        if negb (chareq lineStr.[i] TAB) then false
        else isIndentTabs_from lineStr checkToPos fuel' (i + 1)
      else true
  end.

Definition isIndentTabs (sc : StyleScanner) (line : Z) : bool :=
  let lineStr := vget (fileLines sc) line in
  let checkToPos := getFirstNonspacePos lineStr in
  let checkToPos :=
    if mayBeRunOnLine sc line
    then Z.min checkToPos (vget (scopeLevels sc) line) else checkToPos in
  isIndentTabs_from lineStr checkToPos (Z.to_nat checkToPos) 0.

Definition isMidBlockComment (sc : StyleScanner) (line : Z) : bool :=
  (vget (commentLines sc) line =? C_COMMENT)
  && ((0 <? line) && (vget (commentLines sc) (line - 1) =? C_COMMENT))
  && ((line <? getSize (commentLines sc) - 1)
      && (vget (commentLines sc) (line + 1) =? C_COMMENT)).

Definition isOkayIndentLevel (sc : StyleScanner) (line : Z) : bool :=
  if isBlankLine sc line || isMidBlockComment sc line
     || negb (isIndentTabs sc line)
  then true
  else
    let scopeLevel := vget (scopeLevels sc) line in
    let numStartTabs := getStartTabCount (vget (fileLines sc) line) in
    if isCommentBeforeCase sc line then
      (numStartTabs =? scopeLevel) || (numStartTabs =? scopeLevel - 1)
    else if mayBeRunOnLine sc line then scopeLevel <=? numStartTabs
    else numStartTabs =? scopeLevel.

Definition checkTabUsage (sc : StyleScanner) : list Z :=
  collectLines 0 (getSize (fileLines sc)) (λ i, negb (isIndentTabs sc i)).

Definition checkIndentLevels (sc : StyleScanner) : list Z :=
  collectLines 0 (getSize (fileLines sc)) (λ i, negb (isOkayIndentLevel sc i)).

(** ** Scope helpers *)

(** The loop [for (int i = 1; i <= numLines; i++)] of [isSameScope]. *)
Fixpoint isSameScope_from (sc : StyleScanner) (startLine startLevel numLines : Z)
    (fuel : nat) (i : Z) : bool :=
  match fuel with
  | O => true
  | S fuel' =>
      if i <=? numLines then
        if negb (vget (scopeLevels sc) (startLine + i) =? startLevel) then false
        else isSameScope_from sc startLine startLevel numLines fuel' (i + 1)
      else true
  end.

Definition isSameScope (sc : StyleScanner) (startLine numLines : Z) : bool :=
  if (0 <=? startLine) && (startLine + numLines <? getSize (fileLines sc)) then
    let startLevel := vget (scopeLevels sc) startLine in
    isSameScope_from sc startLine startLevel numLines (Z.to_nat numLines) 1
  else false.

(** The loop of [countFunctionLength]; the fuel [getSize fileLines - line]
    is spent exactly when [line < getSize(fileLines)] fails. *)
Fixpoint countFunctionLength_from (sc : StyleScanner) (startScope : Z)
    (fuel : nat) (line : Z) : Z :=
  match fuel with
  | O => line
  | S fuel' =>
      if (line <? getSize (fileLines sc))
         && (isLineStartOpenBrace (vget (fileLines sc) line)
             || (startScope <? vget (scopeLevels sc) line))
      then countFunctionLength_from sc startScope fuel' (line + 1)
      else line
  end.

Definition countFunctionLength (sc : StyleScanner) (startLine : Z) : Z :=
  let startScope := vget (scopeLevels sc) startLine in
  let line := startLine + 1 in
  let line :=
    countFunctionLength_from sc startScope
      (Z.to_nat (getSize (fileLines sc) - line)) line in
  line - startLine - 1.

(** ** Line length, punctuation and comment checks *)

Definition checkLineLength (sc : StyleScanner) : list Z :=
  let MAX_LENGTH := 80 in
  collectLines 0 (getSize (fileLines sc))
    (λ i, MAX_LENGTH <? Z.of_nat (length (vget (fileLines sc) i))).

Definition isPunctuation (c : ascii) : bool :=
  existsb (chareq c) [COMMA; SEMICOLON].

Definition isPunctuationChaser (c : ascii) : bool :=
  existsb (chareq c)
    [" "%char; ascii_of_nat 10; TAB; ascii_of_nat 34; ascii_of_nat 92].

(** The inner loop of [checkPunctuationSpacing] over one line: whether it
    reaches [errorLines.push_back(i); break;]. *)
Fixpoint punctuationError_from (line : str) (fuel : nat) (j : Z) : bool :=
  match fuel with
  | O => false
  | S fuel' =>
      if j <? getLength line then
        if isPunctuation line.[j] then
          if ((1 <? j) && isspace line.[j - 1])
             || ((j <? getLength line - 1)
                 && negb (isPunctuationChaser line.[j + 1]))
          then true
          else punctuationError_from line fuel' (j + 1)
        else punctuationError_from line fuel' (j + 1)
      else false
  end.

Definition punctuationError (line : str) : bool :=
  punctuationError_from line (Z.to_nat (getLength line)) 0.

Definition checkPunctuationSpacing (sc : StyleScanner) : list Z :=
  collectLines 0 (getSize (fileLines sc))
    (λ i, punctuationError (vget (fileLines sc) i)).

Definition checkEndlineComments (sc : StyleScanner) : list Z :=
  collectLines 0 (getSize (fileLines sc))
    (λ i, negb (toBool (vget (commentLines sc) i))
          && (bool_decide (string_find (vget (fileLines sc) i) DOUBLE_SLASH ≠ None)
              || bool_decide
                   (string_find (vget (fileLines sc) i) C_COMMENT_START ≠ None))).

Definition checkEndlineRunonComments (sc : StyleScanner) : list Z :=
  collectLines 1 (getSize (fileLines sc))
    (λ i, negb (isCommentLine sc i)
          && bool_decide
               (string_find (vget (fileLines sc) i) C_COMMENT_START ≠ None)
          && bool_decide
               (string_find (vget (fileLines sc) i) C_COMMENT_END = None)).

Definition checkStartSpaceComments (sc : StyleScanner) : list Z :=
  collectLines 0 (getSize (fileLines sc))
    (λ i,
       let pos := 0 in
       let line := vget (fileLines sc) i in
       let '(token, pos) := getNextToken line pos in
       streq token DOUBLE_SLASH
       && (pos <? getLength line)
       && negb (isspace line.[pos])).

(** ** Names *)

Definition isOkConstant (s : str) : bool :=
  if getLength s <? 2 then false
  else forallb (λ c, negb (negb (isupper c) && negb (chareq c UNDERSCORE))) s.

(** The loop [for (int i = 1; i < getLength(s); i++)] that [isOkVariable]
    and [isOkTypeName] both have. *)
Fixpoint camelCase_from (s : str) (fuel : nat) (i : Z) : bool :=
  match fuel with
  | O => true
  | S fuel' =>
      if i <? getLength s then
        if negb (isalnum s.[i]) || (isupper s.[i] && isupper s.[i - 1])
        then false
        else camelCase_from s fuel' (i + 1)
      else true
  end.

Definition isOkVariable (s : str) : bool :=
  if (getLength s <? 2) || negb (islower s.[0]) then false
  else camelCase_from s (Z.to_nat (getLength s - 1)) 1.

Definition isOkFunction (s : str) : bool := isOkVariable s.

Definition isOkTypeName (s : str) : bool :=
  if (getLength s <? 2) || negb (isupper s.[0]) then false
  else camelCase_from s (Z.to_nat (getLength s - 1)) 1.

Definition isFunctionSymbol (symbol : str) : bool :=
  isStartParen symbol || streq symbol (lit "::") || streq symbol (lit "<").

Definition isClassHeader (s : str) : bool := isClassKeyword (getFirstToken s).

(** The body of the loop of [checkConstantNames] for one line: whether it
    reaches [errorLines.push_back(i)]. *)
Definition constantNameError (line : str) : bool :=
  let pos := 0 in
  let '(prefix, pos) := getNextToken line pos in
  if streq prefix (lit "const") then
    let '(type, pos) := getNextToken line pos in
    if isBasicType type then
      let '(name, pos) := getNextToken line pos in
      if negb (isOkConstant name) then true else false
    else false
  else false.

Definition checkConstantNames (sc : StyleScanner) : list Z :=
  collectLines 0 (getSize (fileLines sc))
    (λ i, negb (isCommentLine sc i)
          && constantNameError (vget (fileLines sc) i)).

(** The body of the loop of [checkVariableNames] for one line. *)
Definition variableNameError_fuel (fuel : nat) (line : str) : option bool :=
  let pos := 0 in
  let '(type, pos) := getNextToken line pos in
  if isBasicType type then
    let '(name, pos) := getNextToken line pos in
    '(name, pos) ← while skipStars_cond (skipStars_body line) fuel (name, pos);
    let '(nextSymbol, pos) := getNextToken line pos in
    if negb (isFunctionSymbol nextSymbol) then
      if negb (isOkVariable name) then Some true else Some false
    else Some false
  else Some false.

(** [length line + 1] iterations are always enough
    ([variableNameError_total]). *)
Definition variableNameError (line : str) : bool :=
  default false (variableNameError_fuel (S (length line)) line).

Definition checkVariableNames (sc : StyleScanner) : list Z :=
  collectLines 0 (getSize (fileLines sc))
    (λ i, negb (isCommentLine sc i)
          && variableNameError (vget (fileLines sc) i)).

Definition checkFunctionNames (sc : StyleScanner) : list Z :=
  collectLines 0 (getSize (fileLines sc))
    (λ i, negb (isCommentLine sc i)
          && (let name := [] in
              let '(header, name) :=
                isFunctionHeader2 (vget (fileLines sc) i) name in
              header && negb (isOkFunction name))).

(** The body of the loop of [checkClassNames] for one line. *)
Definition classNameError (line : str) : bool :=
  let pos := 0 in
  let '(prefix, pos) := getNextToken line pos in
  if isClassKeyword prefix then
    let '(name, pos) := getNextToken line pos in
    if negb (isOkTypeName name) then true else false
  else false.

Definition checkClassNames (sc : StyleScanner) : list Z :=
  collectLines 0 (getSize (fileLines sc))
    (λ i, negb (isCommentLine sc i) && classNameError (vget (fileLines sc) i)).

(** ** Lead-in comments *)

(** [isLeadInCommentHere] calls itself on [line - 1]; the fuel [line] is
    spent exactly when [line < 1] holds. *)
Fixpoint isLeadInCommentHere_from (sc : StyleScanner) (fuel : nat) (line : Z)
  : bool :=
  match fuel with
  | O => false
  | S fuel' =>
      if line <? 1 then false
      else if streq (getFirstToken (vget (fileLines sc) (line - 1)))
                (lit "template")
      then isLeadInCommentHere_from sc fuel' (line - 1)
      else if isCommentLine sc (line - 1) then true
      else if (1 <? line)
              && isBlankLine sc (line - 1)
              && isCommentLine sc (line - 2)
      then true
      else false
  end.

Definition isLeadInCommentHere (sc : StyleScanner) (line : Z) : bool :=
  isLeadInCommentHere_from sc (Z.to_nat line) line.

(** ** The error report *)





(** ** Overly long functions *)

Definition getFunctionLengthLimit (inClassHeader : bool) : Z :=
  let MAX_INLINE := 1 in
  let LONG_FUNC := 25 in
  if inClassHeader then MAX_INLINE else LONG_FUNC.

(** One iteration of the loop of [checkFunctionLength], on [errorLines] and
    [inClassHeader]. *)
Definition checkFunctionLength_body (sc : StyleScanner) (i : Z)
    (st : list Z * bool) : list Z * bool :=
  let '(errorLines, inClassHeader) := st in
  let inClassHeader :=
    if vget (scopeLevels sc) i =? 0 then false else inClassHeader in
  if negb (toBool (vget (commentLines sc) i)) then
    let inClassHeader :=
      if isClassHeader (vget (fileLines sc) i) then true else inClassHeader in
    if isFunctionHeader (vget (fileLines sc) i) then
      if getFunctionLengthLimit inClassHeader <? countFunctionLength sc i
      then (errorLines ++ [i], inClassHeader)
      else (errorLines, inClassHeader)
    else (errorLines, inClassHeader)
  else (errorLines, inClassHeader).

Definition checkFunctionLength (doFunctionLengthCheck : bool)
    (sc : StyleScanner) : list Z :=
  if doFunctionLengthCheck then
    (for_loop (getSize (fileLines sc)) (checkFunctionLength_body sc)
       ([], false)).1
  else [].

(** ** Long stretches without a comment *)

(** The loop [while (end < getSize(fileLines) && !commentLines[end++]);] of
    [checkTooFewComments]: [end] is incremented whenever the second operand
    is evaluated, also when it ends the loop.  The fuel
    [getSize fileLines - end] is spent exactly when [end < getSize(fileLines)]
    fails. *)
Fixpoint stretchEnd_from (sc : StyleScanner) (fuel : nat) (end_ : Z) : Z :=
  match fuel with
  | O => end_
  | S fuel' =>
      if end_ <? getSize (fileLines sc) then
        if negb (toBool (vget (commentLines sc) end_))
        then stretchEnd_from sc fuel' (end_ + 1)
        else end_ + 1
      else end_
  end.

(** The outer loop of [checkTooFewComments], which also assigns to its
    counter; the counter grows in every iteration, so the fuel
    [getSize fileLines] is not spent before [i < getSize(fileLines)]
    fails. *)
Fixpoint checkTooFewComments_from (sc : StyleScanner) (LONG_STRETCH : Z)
    (fuel : nat) (i : Z) (errorLines : list Z) : list Z :=
  match fuel with
  | O => errorLines
  | S fuel' =>
      if i <? getSize (fileLines sc) then
        if toBool (vget (commentLines sc) i) then
          let end_ := i + 1 in
          let end_ :=
            stretchEnd_from sc (Z.to_nat (getSize (fileLines sc) - end_)) end_ in
          let span := end_ - i - 2 in
          let errorLines :=
            if LONG_STRETCH <? span
            then errorLines ++ [i + LONG_STRETCH `quot` 2]
            else errorLines in
          let i := end_ in
          checkTooFewComments_from sc LONG_STRETCH fuel' (i + 1) errorLines
        else checkTooFewComments_from sc LONG_STRETCH fuel' (i + 1) errorLines
      else errorLines
  end.

Definition checkTooFewComments (sc : StyleScanner) : list Z :=
  let LONG_STRETCH := 25 in
  checkTooFewComments_from sc LONG_STRETCH
    (Z.to_nat (getSize (fileLines sc))) 0 [].

(** ** Spaces around operators *)

Definition isSpacedOperator (s : str) : bool :=
  existsb (streq s)
    [lit "%"; lit "<<"; lit ">>"; lit "<="; lit ">="; lit "=="; lit "!=";
     lit "&&"; lit "||"; lit "="; lit "+="; lit "-="; lit "*="; lit "/="].

(** The test [(startPos > 0 && !isspace(line[startPos - 1]))
    || (pos < getLength(line) && !isspace(line[pos]))] on a token and the
    position after it; [startPos] is [pos - token.length()], which is not
    negative as the token ends at [pos]. *)
Definition lacksSpace (line token : str) (pos : Z) : bool :=
  let startPos := pos - getLength token in
  ((0 <? startPos) && negb (isspace line.[startPos - 1]))
  || ((pos <? getLength line) && negb (isspace line.[pos])).

(** The loop [while (token != "")] of [checkSpacedOperators] on one line:
    whether it reaches [errorLines.push_back(i); break;]. *)
Fixpoint spacedOperatorError_fuel (fuel : nat) (line token : str) (pos : Z)
  : option bool :=
  match fuel with
  | O => None
  | S fuel' =>
      if negb (streq token []) then
        if isSpacedOperator token && lacksSpace line token pos then Some true
        else
          let '(token, pos) := getNextToken line pos in
          spacedOperatorError_fuel fuel' line token pos
      else Some false
  end.

(** [length line + 1] iterations are always enough
    ([spacedOperatorError_tokens]). *)
Definition spacedOperatorError (line : str) : bool :=
  let pos := 0 in
  let '(token, pos) := getNextToken line pos in
  default false (spacedOperatorError_fuel (S (length line)) line token pos).

Definition checkSpacedOperators (sc : StyleScanner) : list Z :=
  collectLines 0 (getSize (fileLines sc))
    (λ i, negb (isCommentLine sc i)
          && spacedOperatorError (vget (fileLines sc) i)).

(** ** Vocabulary of the further statements *)

(** The characters that continue a token that starts with [first]: letters,
    digits and underscores after a letter or an underscore, digits and
    periods after a digit, punctuation otherwise. *)
Definition runClass (first c : ascii) : bool :=
  if isalpha first || chareq first UNDERSCORE
  then isalnum c || chareq c UNDERSCORE
  else if isdigit first then isdigit c || chareq c PERIOD
  else ispunct c.

(** The sum of a list of integers. *)
Definition total (l : list Z) : Z := foldr Z.add 0 l.

(** What a line adds to the running counter: its net brace balance, and
    nothing when it is a comment line. *)
Definition codeBalance (lines : list str) (k : Z) : Z :=
  if vget (commentTags lines) k =? 0 then braceBalance (vget lines k) else 0.

(** A line that [countFunctionLength] counts to the function that starts
    at a line of scope level [startScope]. *)
Definition bodyLine (sc : StyleScanner) (startScope : Z) (k : Z) : bool :=
  isLineStartOpenBrace (vget (fileLines sc) k)
  || (startScope <? vget (scopeLevels sc) k).

(** A line [j] that may stand between a function header and the lead-in
    comment at line [k]: a [template] prefix line, or a blank line directly
    below the comment. *)
Definition leadInGap (sc : StyleScanner) (k j : Z) : Prop :=
  getFirstToken (vget (fileLines sc) j) = lit "template"
  ∨ (j = k + 1 ∧ isBlankLine sc j = true).

(** [t] occurs in [s]. *)
Definition occursIn (t s : str) : Prop := ∃ pre post, s = pre ++ t ++ post.

(** The character at [j] is a comma or semicolon that is badly spaced: a
    space stands before it and [j > 1], or a character other than a space,
    newline, tab, double quote or backslash follows it. *)
Definition punctuationFault (line : str) (j : Z) : Prop :=
  isPunctuation line.[j] = true
  ∧ ((1 < j ∧ isspace line.[j - 1] = true)
     ∨ (j < getLength line - 1 ∧ isPunctuationChaser line.[j + 1] = false)).


(** Line [i] lies inside a class: a class header outside comments stands at
    or before it, and no line after that header up to [i] is at file
    level. *)
Definition insideClass (sc : StyleScanner) (i : Z) : Prop :=
  ∃ j, 0 ≤ j ≤ i
       ∧ isCommentLine sc j = false
       ∧ isClassHeader (vget (fileLines sc) j) = true
       ∧ ∀ k, j < k ≤ i → vget (scopeLevels sc) k ≠ 0.

(** What makes [checkFunctionLength] report line [i]. *)
Definition tooLongFunction (sc : StyleScanner) (i : Z) : Prop :=
  isCommentLine sc i = false
  ∧ isFunctionHeader (vget (fileLines sc) i) = true
  ∧ ((insideClass sc i ∧ 1 < countFunctionLength sc i)
     ∨ (¬ insideClass sc i ∧ 25 < countFunctionLength sc i)).

(** Line [i] is a comment line and the 26 lines after it are lines of the
    file without comment. *)
Definition longStretchAfter (sc : StyleScanner) (i : Z) : Prop :=
  0 ≤ i
  ∧ isCommentLine sc i = true
  ∧ ∀ k, i < k ≤ i + 26 →
         k < getSize (fileLines sc) ∧ isCommentLine sc k = false.

(** The tokens of a line from [pos] on, each with the position after it. *)
Fixpoint tokenSpansFrom (s : str) (fuel : nat) (pos : Z) : list (str * Z) :=
  match fuel with
  | O => []
  | S fuel' =>
      let '(token, pos') := getNextToken s pos in
      if streq token [] then [] else (token, pos') :: tokenSpansFrom s fuel' pos'
  end.

Definition tokenSpans (s : str) : list (str * Z) :=
  tokenSpansFrom s (S (length s)) 0.

(** ** Characters *)

Ltac by_cases_on_char c :=
  destruct c as [b0 b1 b2 b3 b4 b5 b6 b7];
  destruct b0, b1, b2, b3, b4, b5, b6, b7; vm_compute; intuition congruence.

Lemma word_char_seen c :
  isalnum c || chareq c UNDERSCORE = true → classified c = true ∧ isspace c = false.
Proof. by_cases_on_char c. Qed.

Lemma number_char_seen c :
  isdigit c || chareq c PERIOD = true → classified c = true ∧ isspace c = false.
Proof. by_cases_on_char c. Qed.

Lemma punct_char_seen c :
  ispunct c = true → classified c = true ∧ isspace c = false.
Proof. by_cases_on_char c. Qed.

Lemma space_char_seen c : isspace c = true → classified c = true.
Proof. by_cases_on_char c. Qed.

Lemma alpha_is_word_char c :
  isalpha c || chareq c UNDERSCORE = true → isalnum c || chareq c UNDERSCORE = true.
Proof. by_cases_on_char c. Qed.

Lemma digit_is_number_char c :
  isdigit c = true → isdigit c || chareq c PERIOD = true.
Proof. by_cases_on_char c. Qed.

Lemma unclassified_char c :
  isspace c = false → isalpha c || chareq c UNDERSCORE = false →
  isdigit c = false → ispunct c = false → classified c = false.
Proof. by_cases_on_char c. Qed.

(** ** Strings *)

Lemma getLength_nonneg s : 0 ≤ getLength s.
Proof. unfold getLength. lia. Qed.

Lemma charAt_lookup s k :
  0 ≤ k < getLength s → s !! Z.to_nat k = Some s.[k].
Proof.
  intros Hk. unfold charAt. apply list_lookup_lookup_total_lt.
  unfold getLength in Hk. lia.
Qed.

Lemma drop_charAt s k :
  0 ≤ k < getLength s →
  drop (Z.to_nat k) s = s.[k] :: drop (Z.to_nat (k + 1)) s.
Proof.
  intros Hk. replace (Z.to_nat (k + 1)) with (S (Z.to_nat k)) by lia.
  apply drop_S. by apply charAt_lookup.
Qed.

Lemma drop_all s k : getLength s ≤ k → drop (Z.to_nat k) s = [].
Proof. intros Hk. apply drop_ge. unfold getLength in Hk. lia. Qed.

Lemma removeSpaces_app s t : removeSpaces (s ++ t) = removeSpaces s ++ removeSpaces t.
Proof.
  induction s as [|c s IH]; simpl; [done|].
  destruct (isspace c); simpl; by rewrite IH.
Qed.

Lemma visible_spaces run rest :
  Forall (λ c, isspace c = true) run → visible (run ++ rest) = visible rest.
Proof.
  unfold visible. induction 1 as [|c run Hc _ IH]; simpl; [done|].
  rewrite (space_char_seen c Hc). simpl. by rewrite Hc.
Qed.

Lemma visible_token run rest :
  Forall (λ c, classified c = true ∧ isspace c = false) run →
  visible (run ++ rest) = run ++ visible rest.
Proof.
  unfold visible. induction 1 as [|c run [Hc Hs] _ IH]; simpl; [done|].
  rewrite Hc. simpl. rewrite Hs. by rewrite IH.
Qed.

Lemma visible_stop c rest : classified c = false → visible (c :: rest) = [].
Proof. intros Hc. unfold visible. simpl. by rewrite Hc. Qed.

(** ** The position loops *)

Lemma advance_from_split P s fuel pos :
  0 ≤ pos → fuel = Z.to_nat (getLength s - pos) →
  ∃ run,
    advance_from P s fuel pos = pos + Z.of_nat (length run)
    ∧ drop (Z.to_nat pos) s = run ++ drop (Z.to_nat (advance_from P s fuel pos)) s
    ∧ Forall (λ c, P c = true) run
    ∧ (advance_from P s fuel pos < getLength s →
       P s.[advance_from P s fuel pos] = false).
Proof.
  revert pos. induction fuel as [|fuel IH]; intros pos Hpos Hfuel; simpl.
  - exists []. simpl. split_and!; [lia|done|done|lia].
  - destruct (Z.ltb_spec pos (getLength s)) as [Hlt|Hge]; [|lia]. simpl.
    destruct (P s.[pos]) eqn:HP.
    + destruct (IH (pos + 1)) as (run & Hr & Hdrop & Hall & Hstop); [lia..|].
      exists (s.[pos] :: run). simpl. split_and!.
      * lia.
      * rewrite drop_charAt by lia. by rewrite Hdrop at 1.
      * by constructor.
      * done.
    + exists []. simpl. split_and!; [lia|done|done|done].
Qed.

Lemma advance_split P s pos :
  0 ≤ pos →
  ∃ run,
    advance P s pos = pos + Z.of_nat (length run)
    ∧ drop (Z.to_nat pos) s = run ++ drop (Z.to_nat (advance P s pos)) s
    ∧ Forall (λ c, P c = true) run
    ∧ (advance P s pos < getLength s → P s.[advance P s pos] = false).
Proof. intros Hpos. by apply advance_from_split. Qed.

Lemma split_bound s pos (run : str) rest :
  0 ≤ pos ≤ getLength s → drop (Z.to_nat pos) s = run ++ rest →
  pos + Z.of_nat (length run) ≤ getLength s.
Proof.
  intros Hpos Hdrop. apply (f_equal length) in Hdrop.
  rewrite length_drop, length_app in Hdrop. unfold getLength in *. lia.
Qed.

Lemma substr_run s pos (run : str) rest :
  drop (Z.to_nat pos) s = run ++ rest →
  substr s pos (Z.of_nat (length run)) = run.
Proof.
  intros Hdrop. unfold substr. rewrite Hdrop, Nat2Z.id.
  by rewrite take_app_length.
Qed.

Lemma advance_stay P s pos :
  0 ≤ pos < getLength s → P s.[pos] = false → advance P s pos = pos.
Proof.
  intros Hpos HP. unfold advance.
  destruct (Z.to_nat (getLength s - pos)) as [|fuel] eqn:Hfuel; [done|]. simpl.
  by rewrite HP, andb_false_r.
Qed.

Lemma advance_end P s pos : getLength s ≤ pos → advance P s pos = pos.
Proof.
  intros Hpos. unfold advance.
  by replace (Z.to_nat (getLength s - pos)) with O by lia.
Qed.

(** ** One token *)

Lemma unclassified_tests c :
  classified c = false →
  isspace c = false ∧ isalpha c || chareq c UNDERSCORE = false
  ∧ isdigit c = false ∧ ispunct c = false.
Proof. by_cases_on_char c. Qed.

Lemma findTokenEnd_unclassified s pos :
  classified s.[pos] = false → findTokenEnd s pos = pos.
Proof.
  intros Hc. destruct (unclassified_tests _ Hc) as (_ & Ha & Hd & Hp).
  unfold findTokenEnd. by rewrite Ha, Hd, Hp.
Qed.

(** The run that [findTokenEnd] passes over is made of classified
    characters that are not spaces, and it is empty only in front of an
    unclassified character. *)
Lemma findTokenEnd_split s pos :
  0 ≤ pos < getLength s → isspace s.[pos] = false →
  ∃ run,
    findTokenEnd s pos = pos + Z.of_nat (length run)
    ∧ drop (Z.to_nat pos) s = run ++ drop (Z.to_nat (findTokenEnd s pos)) s
    ∧ Forall (λ c, classified c = true ∧ isspace c = false) run
    ∧ (run = [] → classified s.[pos] = false).
Proof.
  intros Hpos Hsp. unfold findTokenEnd.
  assert (Hgo : ∀ P,
    P s.[pos] = true →
    (∀ c, P c = true → classified c = true ∧ isspace c = false) →
    ∃ run,
      advance P s pos = pos + Z.of_nat (length run)
      ∧ drop (Z.to_nat pos) s = run ++ drop (Z.to_nat (advance P s pos)) s
      ∧ Forall (λ c, classified c = true ∧ isspace c = false) run
      ∧ (run = [] → classified s.[pos] = false)).
  { intros P Hhere Hseen.
    destruct (advance_split P s pos) as (run & Hr & Hdrop & Hall & Hstop); [lia|].
    exists run. split_and!; [done|done| |].
    - eapply Forall_impl; [exact Hall|]. intros c Hc. by apply Hseen.
    - intros ->. simpl in Hr. rewrite Hr, Z.add_0_r in Hstop.
      rewrite Hstop in Hhere by lia. done. }
  destruct (isalpha s.[pos] || chareq s.[pos] UNDERSCORE) eqn:Ha.
  { apply Hgo; [by apply alpha_is_word_char | apply word_char_seen]. }
  destruct (isdigit s.[pos]) eqn:Hd.
  { apply Hgo; [by apply digit_is_number_char | apply number_char_seen]. }
  destruct (ispunct s.[pos]) eqn:Hp.
  { apply Hgo; [done | apply punct_char_seen]. }
  exists []. simpl. split_and!; [lia|done|done|].
  intros _. by apply unclassified_char.
Qed.

(** The two assertions of [findTokenEnd] hold where [getNextToken] calls
    it. *)
Lemma findTokenEnd_asserts s pos :
  0 ≤ pos → advance isspace s pos < getLength s →
  isspace s.[advance isspace s pos] = false.
Proof.
  intros Hpos Hin.
  destruct (advance_split isspace s pos) as (_ & _ & _ & _ & Hstop); [done|].
  by apply Hstop.
Qed.

(** At an unclassified character the tokenizer returns the empty token and
    leaves the position where it is. *)
Lemma getNextToken_unclassified s pos :
  0 ≤ pos < getLength s → classified s.[pos] = false →
  getNextToken s pos = ([], pos).
Proof.
  intros Hpos Hc. destruct (unclassified_tests _ Hc) as (Hsp & _).
  unfold getNextToken. rewrite advance_stay by done.
  destruct (Z.leb_spec (getLength s) pos) as [Hle|_]; [lia|].
  rewrite findTokenEnd_unclassified by done.
  by rewrite Z.sub_diag.
Qed.

Lemma getNextToken_end s pos :
  getLength s ≤ pos → getNextToken s pos = ([], pos).
Proof.
  intros Hpos. unfold getNextToken. rewrite advance_end by done.
  by destruct (Z.leb_spec (getLength s) pos) as [_|Hlt]; [|lia].
Qed.

(** What one call of [getNextToken] does to the position and to the visible
    text that is left. *)
Lemma getNextToken_spec s pos tok pos' :
  0 ≤ pos → getNextToken s pos = (tok, pos') →
  pos ≤ pos'
  ∧ (pos ≤ getLength s → pos' ≤ getLength s)
  ∧ (tok ≠ [] → pos < pos')
  ∧ visible (drop (Z.to_nat pos) s) = tok ++ visible (drop (Z.to_nat pos') s)
  ∧ (tok = [] →
     visible (drop (Z.to_nat pos) s) = [] ∧ getNextToken s pos' = ([], pos'))
  ∧ Forall (λ c, classified c = true ∧ isspace c = false) tok.
Proof.
  intros Hpos. unfold getNextToken.
  destruct (advance_split isspace s pos) as (sp & Hp1 & Hdrop1 & Hsp & Hstop1);
    [done|].
  set (p1 := advance isspace s pos) in *.
  assert (Hp1le : pos ≤ getLength s → p1 ≤ getLength s).
  { intros Hle. rewrite Hp1. by eapply split_bound. }
  destruct (Z.leb_spec (getLength s) p1) as [Hend|Hin].
  - intros [= <- <-]. simpl.
    rewrite (drop_all s p1) in * by done. rewrite app_nil_r in Hdrop1.
    assert (Hvis : visible (drop (Z.to_nat pos) s) = []).
    { by rewrite Hdrop1, <- (app_nil_r sp), visible_spaces. }
    split_and!; [lia|done|done|done| |done].
    intros _. split; [done|].
    fold (getNextToken s p1). by apply getNextToken_end.
  - destruct (findTokenEnd_split s p1) as (run & He & Hdrop2 & Hrun & Hempty);
      [lia|by apply Hstop1|].
    set (e := findTokenEnd s p1) in *.
    replace (e - p1) with (Z.of_nat (length run)) by lia.
    rewrite (substr_run _ _ _ _ Hdrop2).
    intros [= <- <-].
    assert (Hvis : visible (drop (Z.to_nat pos) s)
                   = run ++ visible (drop (Z.to_nat e) s)).
    { by rewrite Hdrop1, visible_spaces, Hdrop2, visible_token. }
    split_and!; [lia| | |done| |done].
    + intros Hle. rewrite He. eapply split_bound; [|exact Hdrop2]. lia.
    + intros Hne. destruct run; [done|]. simpl in He. lia.
    + intros ->. split.
      * rewrite Hdrop1, visible_spaces by done.
        rewrite drop_charAt by lia. apply visible_stop. by apply Hempty.
      * simpl in He. replace e with p1 by lia.
        fold (getNextToken s p1). apply getNextToken_unclassified; [lia|].
        by apply Hempty.
Qed.

(** ** Loops with fuel *)

Lemma while_mono {St} (cond : St → bool) (body : St → St) fuel fuel' st r :
  while cond body fuel st = Some r → (fuel ≤ fuel')%nat →
  while cond body fuel' st = Some r.
Proof.
  revert fuel' st. induction fuel as [|fuel IH]; intros fuel' st; simpl; [done|].
  intros Hr Hle. destruct fuel' as [|fuel']; [lia|]. simpl.
  destruct (cond st); [|done]. apply IH; [done|lia].
Qed.

(** A loop whose body keeps an invariant and lowers a measure ends, with
    the invariant and the negated condition, once the fuel exceeds the
    measure. *)
Lemma while_total {St} (cond : St → bool) (body : St → St)
    (I : St → Prop) (m : St → nat) :
  (∀ st, I st → cond st = true → I (body st) ∧ (m (body st) < m st)%nat) →
  ∀ fuel st, I st → (m st < fuel)%nat →
  ∃ st', while cond body fuel st = Some st' ∧ I st' ∧ cond st' = false.
Proof.
  intros Hstep. induction fuel as [|fuel IH]; intros st HI Hm; [lia|]. simpl.
  destruct (cond st) eqn:Hc.
  - destruct (Hstep st HI Hc) as [HI' Hm']. apply IH; [done|lia].
  - by exists st.
Qed.

Lemma while_unfold {St} (cond : St → bool) (body : St → St) fuel st :
  while cond body (S fuel) st =
    if cond st then while cond body fuel (body st) else Some st.
Proof. done. Qed.

Lemma negb_toBool x : negb (toBool x) = (x =? 0).
Proof. unfold toBool. apply negb_involutive. Qed.

Lemma streq_true s t : streq s t = true ↔ s = t.
Proof. unfold streq. apply bool_decide_eq_true. Qed.

Lemma streq_false s t : streq s t = false ↔ s ≠ t.
Proof. unfold streq. apply bool_decide_eq_false. Qed.

Lemma chareq_true c d : chareq c d = true ↔ c = d.
Proof. unfold chareq. apply bool_decide_eq_true. Qed.

(** ** The token stream of a line *)

Lemma tokenMeasure_next s pos cur tok pos' :
  0 ≤ pos → getNextToken s pos = (tok, pos') → cur ≠ [] →
  (tokenMeasure s pos' tok < tokenMeasure s pos cur)%nat.
Proof.
  intros Hpos Hnext Hcur. unfold tokenMeasure.
  destruct (getNextToken_spec _ _ _ _ Hpos Hnext) as (Hle & _ & Hlt & _).
  rewrite (proj2 (streq_false cur []) Hcur).
  destruct (streq tok []) eqn:Htok; [lia|].
  apply streq_false in Htok. specialize (Hlt Htok).
  destruct (Z.le_gt_cases (getLength s) pos) as [Hend|Hin]; [|lia].
  rewrite getNextToken_end in Hnext by done. by injection Hnext as <- <-.
Qed.

Lemma tokenMeasure_first s tok pos :
  getNextToken s 0 = (tok, pos) → (tokenMeasure s pos tok < S (length s))%nat.
Proof.
  intros Hnext. unfold tokenMeasure.
  destruct (getNextToken_spec _ _ _ _ (Z.le_refl 0) Hnext)
    as (Hle & Hin & Hlt & _).
  specialize (Hin (getLength_nonneg s)).
  destruct (streq tok []) eqn:Htok; unfold getLength in *; [lia|].
  apply streq_false in Htok. specialize (Hlt Htok). lia.
Qed.

Lemma tokensFrom_enough s fuel fuel' pos :
  0 ≤ pos →
  (Z.to_nat (getLength s - pos) < fuel)%nat →
  (Z.to_nat (getLength s - pos) < fuel')%nat →
  tokensFrom s fuel pos = tokensFrom s fuel' pos.
Proof.
  revert fuel' pos.
  induction fuel as [|fuel IH]; intros fuel' pos Hpos Hf Hf'; [lia|].
  destruct fuel' as [|fuel']; [lia|]. simpl.
  destruct (getNextToken s pos) as [tok pos'] eqn:Hnext.
  destruct (streq tok []) eqn:Htok; [done|]. apply streq_false in Htok.
  destruct (getNextToken_spec _ _ _ _ Hpos Hnext) as (Hle & _ & Hlt & _).
  specialize (Hlt Htok).
  destruct (Z.le_gt_cases (getLength s) pos) as [Hend|Hin].
  { rewrite getNextToken_end in Hnext by done. by injection Hnext as <- <-. }
  f_equal. apply IH; lia.
Qed.

Lemma tokensAt_unfold s pos :
  0 ≤ pos →
  tokensAt s pos =
    let '(tok, pos') := getNextToken s pos in
    if streq tok [] then [] else tok :: tokensAt s pos'.
Proof.
  intros Hpos. unfold tokensAt at 1. simpl.
  destruct (getNextToken s pos) as [tok pos'] eqn:Hnext.
  destruct (streq tok []) eqn:Htok; [done|]. apply streq_false in Htok.
  destruct (getNextToken_spec _ _ _ _ Hpos Hnext) as (Hle & _ & Hlt & _).
  specialize (Hlt Htok).
  destruct (Z.le_gt_cases (getLength s) pos) as [Hend|Hin].
  { rewrite getNextToken_end in Hnext by done. by injection Hnext as <- <-. }
  f_equal. apply tokensFrom_enough; lia.
Qed.

(** The tokens put end to end are the visible text. *)
Lemma tokensFrom_visible s fuel pos :
  0 ≤ pos → (Z.to_nat (getLength s - pos) < fuel)%nat →
  concat (tokensFrom s fuel pos) = visible (drop (Z.to_nat pos) s).
Proof.
  revert pos. induction fuel as [|fuel IH]; intros pos Hpos Hf; [lia|]. simpl.
  destruct (getNextToken s pos) as [tok pos'] eqn:Hnext.
  destruct (getNextToken_spec _ _ _ _ Hpos Hnext)
    as (Hle & _ & Hlt & Hvis & Hempty & _).
  destruct (streq tok []) eqn:Htok.
  - apply streq_true in Htok. by destruct (Hempty Htok) as [-> _].
  - apply streq_false in Htok. specialize (Hlt Htok). simpl.
    destruct (Z.le_gt_cases (getLength s) pos) as [Hend|Hin].
    { rewrite getNextToken_end in Hnext by done. by injection Hnext as <- <-. }
    rewrite Hvis. f_equal. apply IH; lia.
Qed.

(** The loop of [showTokens] prints the tokens of the line. *)
Lemma showTokens_while s fuel st st' :
  while showTokens_cond (showTokens_body s) fuel st = Some st' →
  sh_out st' =
    sh_out st ++
      (if streq (sh_token st) [] then []
       else sh_token st :: tokensFrom s fuel (sh_pos st)).
Proof.
  revert st. induction fuel as [|fuel IH]; intros st; simpl; [done|].
  unfold showTokens_cond at 1.
  destruct (streq (sh_token st) []) eqn:Htok; simpl.
  - intros [= <-]. by rewrite app_nil_r.
  - intros Hrun. apply IH in Hrun. rewrite Hrun. clear Hrun.
    unfold showTokens_body.
    destruct (getNextToken s (sh_pos st)) as [tok pos']. simpl.
    by rewrite <- app_assoc.
Qed.

Lemma showTokens_fuel_tokens s fuel toks :
  showTokens_fuel fuel s = Some toks → toks = tokensFrom s (S fuel) 0.
Proof.
  unfold showTokens_fuel. simpl.
  destruct (getNextToken s 0) as [tok pos].
  destruct (while _ _ _ _) as [st'|] eqn:Hrun; [|done]. simpl.
  intros [= <-]. by rewrite (showTokens_while _ _ _ _ Hrun).
Qed.

Lemma showTokens_fuel_total s fuel :
  (length s < fuel)%nat → ∃ toks, showTokens_fuel fuel s = Some toks.
Proof.
  intros Hfuel. unfold showTokens_fuel.
  destruct (getNextToken s 0) as [tok pos] eqn:Hfirst.
  destruct (while_total showTokens_cond (showTokens_body s)
              (λ st, 0 ≤ sh_pos st)
              (λ st, tokenMeasure s (sh_pos st) (sh_token st)))
    with (fuel := fuel)
         (st := {| sh_pos := pos; sh_token := tok; sh_out := [] |})
    as (st' & -> & _).
  - intros st Hpos Hcond. unfold showTokens_body.
    destruct (getNextToken s (sh_pos st)) as [tok' pos'] eqn:Hnext. simpl.
    destruct (getNextToken_spec _ _ _ _ Hpos Hnext) as (Hle & _).
    split; [lia|]. eapply tokenMeasure_next; [done..|].
    unfold showTokens_cond in Hcond. apply negb_true_iff in Hcond.
    by apply streq_false.
  - simpl. destruct (getNextToken_spec _ _ _ _ (Z.le_refl 0) Hfirst). lia.
  - simpl. pose proof (tokenMeasure_first _ _ _ Hfirst). lia.
  - by eexists.
Qed.

Lemma showTokens_line_tokens s : showTokens_line s = tokensAt s 0.
Proof.
  unfold showTokens_line.
  destruct (showTokens_fuel_total s (S (length s))) as [toks Htoks]; [lia|].
  rewrite Htoks. simpl. rewrite (showTokens_fuel_tokens _ _ _ Htoks).
  apply tokensFrom_enough; unfold getLength; lia.
Qed.

(** The loop of [getLastToken] ends within [length s + 1] iterations. *)
Lemma getLastToken_fuel_total s fuel :
  (length s < fuel)%nat → ∃ last, getLastToken_fuel fuel s = Some last.
Proof.
  intros Hfuel. unfold getLastToken_fuel.
  destruct (getNextToken s 0) as [tok pos] eqn:Hfirst.
  destruct (while_total getLastToken_cond (getLastToken_body s)
              (λ st, 0 ≤ lt_pos st)
              (λ st, tokenMeasure s (lt_pos st) (lt_nextToken st)))
    with (fuel := fuel)
         (st := {| lt_pos := pos; lt_lastToken := []; lt_nextToken := tok |})
    as (st' & -> & _).
  - intros st Hpos Hcond. unfold getLastToken_body.
    destruct (getNextToken s (lt_pos st)) as [tok' pos'] eqn:Hnext. simpl.
    destruct (getNextToken_spec _ _ _ _ Hpos Hnext) as (Hle & _).
    split; [lia|]. eapply tokenMeasure_next; [done..|].
    unfold getLastToken_cond in Hcond. apply negb_true_iff in Hcond.
    by apply streq_false.
  - simpl. destruct (getNextToken_spec _ _ _ _ (Z.le_refl 0) Hfirst). lia.
  - simpl. pose proof (tokenMeasure_first _ _ _ Hfirst). lia.
  - by eexists.
Qed.

Lemma getLastToken_fuel_mono s fuel fuel' last :
  getLastToken_fuel fuel s = Some last → (fuel ≤ fuel')%nat →
  getLastToken_fuel fuel' s = Some last.
Proof.
  unfold getLastToken_fuel. destruct (getNextToken s 0) as [tok pos].
  destruct (while _ _ fuel _) as [st'|] eqn:Hrun; [|done].
  intros Hlast Hle. by rewrite (while_mono _ _ _ _ _ _ Hrun Hle).
Qed.

Lemma getLastToken_total s :
  getLastToken_fuel (S (length s)) s = Some (getLastToken s).
Proof.
  unfold getLastToken.
  destruct (getLastToken_fuel_total s (S (length s))) as [last ->]; [lia|done].
Qed.

(** *** The stream seen by a caller that keeps calling [getNextToken] *)

Lemma stream_first s tok pos :
  getNextToken s 0 = (tok, pos) →
  liveState s tok pos ∧ streamAt s tok pos = tokensAt s 0.
Proof.
  intros Hnext.
  destruct (getNextToken_spec _ _ _ _ (Z.le_refl 0) Hnext)
    as (Hle & _ & _ & _ & Hempty & _).
  split.
  - split; [done|]. intros Htok. by apply Hempty.
  - rewrite (tokensAt_unfold s 0), Hnext by done. done.
Qed.

Lemma stream_next s tok pos tok' pos' :
  liveState s tok pos → getNextToken s pos = (tok', pos') →
  liveState s tok' pos' ∧ streamAt s tok' pos' = tail (streamAt s tok pos).
Proof.
  intros [Hpos Hstuck] Hnext.
  destruct (getNextToken_spec _ _ _ _ Hpos Hnext)
    as (Hle & _ & _ & _ & Hempty & _).
  split.
  - split; [lia|]. intros Htok. by apply Hempty.
  - unfold streamAt at 2. destruct (streq tok []) eqn:Htok.
    + apply streq_true in Htok. rewrite (Hstuck Htok) in Hnext.
      injection Hnext as <- <-. by subst tok.
    + simpl. rewrite (tokensAt_unfold s pos), Hnext by done. done.
Qed.

Lemma stream_head s tok pos : tokenOf (streamAt s tok pos) 0 = tok.
Proof.
  unfold streamAt, tokenOf. destruct (streq tok []) eqn:Htok; [|done].
  apply streq_true in Htok. by subst tok.
Qed.

Lemma tokenOf_tail toks k : tokenOf (tail toks) k = tokenOf toks (S k).
Proof. by destruct toks. Qed.

Lemma stream_measure s tok pos tok' pos' :
  liveState s tok pos → getNextToken s pos = (tok', pos') →
  (tokenMeasure s pos' tok' ≤ tokenMeasure s pos tok)%nat.
Proof.
  intros [Hpos Hstuck] Hnext.
  destruct (decide (tok = [])) as [Htok|Htok].
  - rewrite (Hstuck Htok) in Hnext. injection Hnext as <- <-. by subst tok.
  - pose proof (tokenMeasure_next _ _ _ _ _ Hpos Hnext Htok). lia.
Qed.

(** The loop that skips the pointer tokens. *)
Lemma skipStars_while s fuel name pos :
  liveState s name pos → (tokenMeasure s pos name < fuel)%nat →
  ∃ name' pos',
    while skipStars_cond (skipStars_body s) fuel (name, pos) = Some (name', pos')
    ∧ liveState s name' pos'
    ∧ (tokenMeasure s pos' name' ≤ tokenMeasure s pos name)%nat
    ∧ streamAt s name' pos' = dropStars (streamAt s name pos).
Proof.
  revert name pos.
  induction fuel as [|fuel IH]; intros name pos Hlive Hfuel; [lia|].
  rewrite while_unfold.
  change (skipStars_cond (name, pos)) with (streq name (lit "*")).
  change (skipStars_body s (name, pos)) with (getNextToken s pos).
  destruct (streq name (lit "*")) eqn:Hstar.
  - apply streq_true in Hstar.
    destruct (getNextToken s pos) as [tok' pos'] eqn:Hnext.
    destruct (stream_next _ _ _ _ _ Hlive Hnext) as [Hlive' Hstream].
    assert (Hlt : (tokenMeasure s pos' tok' < tokenMeasure s pos name)%nat).
    { eapply tokenMeasure_next; [apply Hlive|done|by subst name]. }
    destruct (IH tok' pos') as (name' & pos'' & Hrun & Hlive'' & Hm & Hs);
      [done|lia|].
    exists name', pos''. split_and!; [done|done|lia|].
    rewrite Hs, Hstream. unfold streamAt at 2. subst name. done.
  - exists name, pos. split_and!; [done|done|lia|].
    unfold streamAt. destruct (streq name []); [done|].
    cbn [dropStars]. by rewrite Hstar.
Qed.

(** ** The function-header predicate on the token list *)

Lemma stream_token s tok pos toks :
  streamAt s tok pos = toks → tok = tokenOf toks 0.
Proof. intros <-. by rewrite stream_head. Qed.

Lemma isFunctionHeader_fuel_spec s name fuel :
  (length s < fuel)%nat →
  isFunctionHeader_fuel fuel s name =
    Some (let toks := tokensAt s 0 in
          if isBasicType (tokenOf toks 0) && negb (isLineEndingSemicolon s)
          then (headerShape toks, headerName toks)
          else (false, name)).
Proof.
  intros Hfuel. unfold isFunctionHeader_fuel, headerShape, headerName. simpl.
  destruct (getNextToken s 0) as [type p0] eqn:H0.
  destruct (stream_first _ _ _ H0) as [L0 S0].
  pose proof (tokenMeasure_first _ _ _ H0) as M0.
  set (toks := tokensAt s 0) in *.
  rewrite <- (stream_token _ _ _ _ S0).
  destruct (isBasicType type && negb (isLineEndingSemicolon s)); [|done].
  destruct (getNextToken s p0) as [n1 p1] eqn:H1.
  destruct (stream_next _ _ _ _ _ L0 H1) as [L1 S1].
  pose proof (stream_measure _ _ _ _ _ L0 H1) as M1.
  destruct (skipStars_while s fuel n1 p1) as (n2 & p2 & -> & L2 & _ & S2);
    [done|lia|]. simpl.
  rewrite S1, S0 in S2. set (rest := dropStars (tail toks)) in *.
  destruct (getNextToken s p2) as [sym p3] eqn:H3.
  destruct (stream_next _ _ _ _ _ L2 H3) as [L3 S3]. rewrite S2 in S3.
  pose proof (stream_token _ _ _ _ S2) as ->.
  pose proof (stream_token _ _ _ _ S3) as ->.
  rewrite tokenOf_tail.
  destruct (getNextToken s p3) as [n4 p4] eqn:H4.
  destruct (stream_next _ _ _ _ _ L3 H4) as [L4 S4]. rewrite S3 in S4.
  destruct (getNextToken s p4) as [sym5 p5] eqn:H5.
  destruct (stream_next _ _ _ _ _ L4 H5) as [L5 S5]. rewrite S4 in S5.
  pose proof (stream_token _ _ _ _ S4) as ->.
  pose proof (stream_token _ _ _ _ S5) as ->.
  rewrite !tokenOf_tail.
  destruct (streq (tokenOf rest 1) _); by destruct (isStartParen _).
Qed.

(** The skipping loop of [isFunctionHeader] never runs out of fuel. *)
Lemma isFunctionHeader_total s name :
  isFunctionHeader_fuel (S (length s)) s name = Some (isFunctionHeader2 s name).
Proof.
  unfold isFunctionHeader2. by rewrite isFunctionHeader_fuel_spec by lia.
Qed.

Lemma isFunctionHeader_tokens s :
  isFunctionHeader s =
    isBasicType (tokenOf (showTokens_line s) 0)
    && negb (isLineEndingSemicolon s)
    && headerShape (showTokens_line s).
Proof.
  unfold isFunctionHeader, isFunctionHeader2.
  rewrite isFunctionHeader_fuel_spec by lia. rewrite showTokens_line_tokens.
  simpl. by destruct (isBasicType _ && negb _).
Qed.

(** ** First and last character of a line that is not a space *)

Lemma getFirstNonspacePos_from_spec line fuel i :
  0 ≤ i → fuel = Z.to_nat (getLength line - i) →
  match head (removeSpaces (drop (Z.to_nat i) line)) with
  | None => getFirstNonspacePos_from line fuel i = -1
  | Some c =>
      i ≤ getFirstNonspacePos_from line fuel i < getLength line
      ∧ line.[getFirstNonspacePos_from line fuel i] = c
  end.
Proof.
  revert i. induction fuel as [|fuel IH]; intros i Hi Hfuel; simpl.
  - by rewrite drop_all by lia.
  - destruct (Z.ltb_spec i (getLength line)) as [Hlt|Hge]; [|lia].
    rewrite drop_charAt by lia. simpl.
    destruct (isspace line.[i]) eqn:Hsp; simpl; [|split; [lia|done]].
    specialize (IH (i + 1)).
    destruct (head _); [|apply IH; lia].
    destruct IH as [Hr Hc]; [lia..|]. split; [lia|done].
Qed.

Lemma getFirstNonspacePos_spec line :
  match head (removeSpaces line) with
  | None => getFirstNonspacePos line = -1
  | Some c =>
      0 ≤ getFirstNonspacePos line < getLength line
      ∧ line.[getFirstNonspacePos line] = c
  end.
Proof.
  pose proof (getFirstNonspacePos_from_spec line
                (Z.to_nat (getLength line)) 0) as H.
  simpl in H. apply H; [done|]. f_equal. lia.
Qed.

Lemma removeSpaces_snoc s c :
  removeSpaces (s ++ [c]) = removeSpaces s ++ (if isspace c then [] else [c]).
Proof. rewrite removeSpaces_app. simpl. by destruct (isspace c). Qed.

Lemma getLastNonspacePos_from_spec line fuel i :
  -1 ≤ i < getLength line → fuel = Z.to_nat (i + 1) →
  match last (removeSpaces (take (Z.to_nat (i + 1)) line)) with
  | None => getLastNonspacePos_from line fuel i = -1
  | Some c =>
      0 ≤ getLastNonspacePos_from line fuel i ≤ i
      ∧ line.[getLastNonspacePos_from line fuel i] = c
  end.
Proof.
  revert i. induction fuel as [|fuel IH]; intros i Hi Hfuel; simpl.
  - by replace (Z.to_nat (i + 1)) with O by lia.
  - destruct (Z.leb_spec 0 i) as [Hle|Hgt]; [|lia].
    replace (Z.to_nat (i + 1)) with (S (Z.to_nat i)) by lia.
    rewrite (take_S_r _ _ line.[i]) by (apply charAt_lookup; lia).
    rewrite removeSpaces_snoc.
    destruct (isspace line.[i]) eqn:Hsp; simpl.
    + rewrite app_nil_r. specialize (IH (i - 1)).
      replace (Z.to_nat (i - 1 + 1)) with (Z.to_nat i) in IH by lia.
      destruct (last _); [|apply IH; lia].
      destruct IH as [Hr Hc]; [lia..|]. split; [lia|done].
    + rewrite last_snoc. split; [lia|done].
Qed.

Lemma getLastNonspacePos_spec line :
  match last (removeSpaces line) with
  | None => getLastNonspacePos line = -1
  | Some c =>
      0 ≤ getLastNonspacePos line < getLength line
      ∧ line.[getLastNonspacePos line] = c
  end.
Proof.
  pose proof (getLastNonspacePos_from_spec line
                (Z.to_nat (getLength line)) (getLength line - 1)) as H.
  replace (Z.to_nat (getLength line - 1 + 1)) with (length line) in H
    by (unfold getLength; lia).
  rewrite firstn_all in H. pose proof (getLength_nonneg line).
  fold (getLastNonspacePos line) in H.
  destruct (last _); [|apply H; unfold getLength; lia].
  destruct H as [Hr Hc]; [unfold getLength; lia..|]. split; [lia|done].
Qed.

(** A line is blank when nothing is left of it without its spaces. *)
Lemma isBlank_spec line : isBlank line = true ↔ removeSpaces line = [].
Proof.
  unfold isBlank. pose proof (getFirstNonspacePos_spec line) as H.
  destruct (removeSpaces line) as [|c rest]; simpl in H.
  - rewrite H. done.
  - destruct H as [Hr _]. split; [|done]. intros Heq. apply Z.eqb_eq in Heq. exfalso. lia.
Qed.

(** A line starts with a closing brace when its first character that is
    not a space is one. *)
Lemma isLineStartCloseBrace_spec line :
  isLineStartCloseBrace line = true ↔ head (removeSpaces line) = Some RIGHT_BRACE.
Proof.
  unfold isLineStartCloseBrace. pose proof (getFirstNonspacePos_spec line) as H.
  destruct (head (removeSpaces line)) as [c|].
  - destruct H as [Hr ->]. rewrite andb_true_iff, chareq_true, Z.leb_le.
    split; [intros [_ ->]; done|intros [= ->]; split; [lia|done]].
  - rewrite H. simpl. done.
Qed.

(** A line ends with a semicolon when its last character that is not a
    space is one. *)
Lemma isLineEndingSemicolon_spec line :
  isLineEndingSemicolon line = true ↔ last (removeSpaces line) = Some SEMICOLON.
Proof.
  unfold isLineEndingSemicolon. pose proof (getLastNonspacePos_spec line) as H.
  destruct (last (removeSpaces line)) as [c|].
  - destruct H as [Hr ->].
    rewrite andb_true_iff, chareq_true, negb_true_iff, Z.eqb_neq.
    split; [intros [_ ->]; done|intros [= ->]; split; [lia|done]].
  - rewrite H. simpl. done.
Qed.

(** ** Loops over the lines that write one vector entry per iteration *)

Lemma for_loop_zero {St} (body : Z → St → St) st : for_loop 0 body st = st.
Proof. done. Qed.

Lemma for_loop_succ {St} (body : Z → St → St) st n :
  0 ≤ n → for_loop (n + 1) body st = body n (for_loop n body st).
Proof.
  intros Hn. unfold for_loop. rewrite seqZ_app by lia.
  rewrite foldl_app. by rewrite Z.add_0_l.
Qed.

Lemma vset_lookup_ne {A} (v : list A) i x (j : nat) :
  j ≠ Z.to_nat i → vset v i x !! j = v !! j.
Proof. intros Hne. unfold vset. by apply list_lookup_insert_ne. Qed.

Lemma vset_lookup_eq {A} (v : list A) i x :
  (Z.to_nat i < length v)%nat → vset v i x !! Z.to_nat i = Some x.
Proof. intros Hlt. unfold vset. by apply list_lookup_insert_eq. Qed.

Lemma vset_length {A} (v : list A) i x : length (vset v i x) = length v.
Proof. unfold vset. apply length_insert. Qed.

Lemma vget_lookup {A} `{Inhabited A} (v : list A) i x :
  v !! Z.to_nat i = Some x → vget v i = x.
Proof. intros Hx. unfold vget. by apply list_lookup_total_correct. Qed.

Lemma vget_eq {A} `{Inhabited A} (v w : list A) i :
  v !! Z.to_nat i = w !! Z.to_nat i → vget v i = vget w i.
Proof. intros Heq. unfold vget. by rewrite !list_lookup_total_alt, Heq. Qed.

Section IndexedLoop.

Context {A St : Type}.
Variable body : Z → list A * St → list A * St.
Variable init : list A * St.

(** Iteration [i] writes entry [i] only. *)
Hypothesis body_frame :
  ∀ i p (j : nat), j ≠ Z.to_nat i → (body i p).1 !! j = p.1 !! j.
Hypothesis body_length : ∀ i p, length (body i p).1 = length p.1.

Lemma loop_length (k : nat) :
  length (for_loop (Z.of_nat k) body init).1 = length init.1.
Proof.
  induction k as [|k IH]; [done|].
  rewrite Nat2Z.inj_succ, <- Z.add_1_r, for_loop_succ by lia.
  by rewrite body_length.
Qed.

(** The entries from [k] on are still the initial ones after [k]
    iterations. *)
Lemma loop_untouched (k j : nat) :
  (k ≤ j)%nat → (for_loop (Z.of_nat k) body init).1 !! j = init.1 !! j.
Proof.
  induction k as [|k IH]; intros Hj; [done|].
  rewrite Nat2Z.inj_succ, <- Z.add_1_r, for_loop_succ by lia.
  rewrite body_frame by lia. apply IH. lia.
Qed.

(** Entry [j] is final once iteration [j] is done. *)
Lemma loop_settled (k j : nat) :
  (j < k)%nat →
  (for_loop (Z.of_nat k) body init).1 !! j
  = (for_loop (Z.of_nat (S j)) body init).1 !! j.
Proof.
  induction k as [|k IH]; intros Hj; [lia|].
  destruct (decide (j = k)) as [->|Hne]; [done|].
  rewrite Nat2Z.inj_succ, <- Z.add_1_r, for_loop_succ by lia.
  rewrite body_frame by lia. apply IH. lia.
Qed.

(** The final entry [i] is the one iteration [i] wrote, from the state it
    was entered in and the initial entry [i]. *)
Lemma loop_entry n i :
  0 ≤ i < n →
  (for_loop n body init).1 !! Z.to_nat i
  = (body i (for_loop i body init)).1 !! Z.to_nat i.
Proof.
  intros Hi. pose proof (loop_settled (Z.to_nat n) (Z.to_nat i)) as H.
  rewrite Nat2Z.inj_succ, <- Z.add_1_r, for_loop_succ in H by lia.
  rewrite !Z2Nat.id in H by lia. apply H. lia.
Qed.

Lemma loop_before i :
  0 ≤ i → (for_loop i body init).1 !! Z.to_nat i = init.1 !! Z.to_nat i.
Proof.
  intros Hi. pose proof (loop_untouched (Z.to_nat i) (Z.to_nat i)) as H.
  rewrite Z2Nat.id in H by lia. by apply H.
Qed.

Lemma loop_size n : 0 ≤ n → length (for_loop n body init).1 = length init.1.
Proof. intros Hn. rewrite <- (Z2Nat.id n) by lia. apply loop_length. Qed.

End IndexedLoop.

(** ** The comment classifier, line by line *)

Ltac comment_cases fl i inC :=
  destruct (stringStartsWith (getFirstToken (vget fl i)) C_COMMENT_START),
    (stringEndsWith (getLastToken (vget fl i)) C_COMMENT_END),
    (stringStartsWith (getFirstToken (vget fl i)) DOUBLE_SLASH),
    inC; simpl.

Lemma scanCommentLines_body_frame fl i p (j : nat) :
  j ≠ Z.to_nat i → (scanCommentLines_body fl i p).1 !! j = p.1 !! j.
Proof.
  intros Hne. destruct p as [cl inC]. unfold scanCommentLines_body.
  comment_cases fl i inC; by rewrite ?vset_lookup_ne.
Qed.

Lemma scanCommentLines_body_length fl i p :
  length (scanCommentLines_body fl i p).1 = length p.1.
Proof.
  destruct p as [cl inC]. unfold scanCommentLines_body.
  comment_cases fl i inC; by rewrite ?vset_length.
Qed.

Lemma scanCommentLines_body_state fl i cl inC :
  (scanCommentLines_body fl i (cl, inC)).2 = nextInBlock (vget fl i) inC.
Proof.
  unfold scanCommentLines_body, nextInBlock, opensBlock, closesBlock.
  comment_cases fl i inC; done.
Qed.

Lemma scanCommentLines_body_tag fl i cl inC :
  cl !! Z.to_nat i = Some NO_COMMENT →
  (scanCommentLines_body fl i (cl, inC)).1 !! Z.to_nat i
  = Some (lineTag (vget fl i) inC).
Proof.
  intros Hold. pose proof (lookup_lt_Some _ _ _ Hold) as Hlt.
  unfold scanCommentLines_body, lineTag, opensBlock, startsLineComment.
  comment_cases fl i inC; rewrite ?vset_lookup_eq; rewrite ?vset_length; done.
Qed.

Lemma inBlockComment_zero lines : inBlockComment lines 0 = false.
Proof. done. Qed.

Lemma inBlockComment_succ lines i :
  0 ≤ i →
  inBlockComment lines (i + 1)
  = nextInBlock (vget lines i) (inBlockComment lines i).
Proof.
  intros Hi. unfold inBlockComment, scanCommentLines_upto.
  rewrite for_loop_succ by done.
  destruct (for_loop i _ _) as [cl inC].
  apply scanCommentLines_body_state.
Qed.

Lemma commentTags_eq lines :
  commentTags lines
  = (scanCommentLines_upto (newScanner lines) (getSize lines)).1.
Proof. done. Qed.

Lemma commentTags_length lines : length (commentTags lines) = length lines.
Proof.
  rewrite commentTags_eq. unfold scanCommentLines_upto.
  rewrite (loop_size _ _ (scanCommentLines_body_length _))
    by (unfold getSize; lia).
  simpl. apply length_resize.
Qed.

(** The tag of line [i] is decided by the line and the flag it is entered
    with. *)
Lemma commentTags_lookup lines i :
  0 ≤ i < getSize lines →
  commentTags lines !! Z.to_nat i
  = Some (lineTag (vget lines i) (inBlockComment lines i)).
Proof.
  intros Hi. rewrite commentTags_eq. unfold scanCommentLines_upto.
  rewrite (loop_entry _ _ (scanCommentLines_body_frame _)) by done.
  unfold inBlockComment, scanCommentLines_upto.
  pose proof (loop_before (scanCommentLines_body (fileLines (newScanner lines)))
                (resize (length (fileLines (newScanner lines))) 0
                   (commentLines (newScanner lines)), false)
                (scanCommentLines_body_frame _)
                i (proj1 Hi)) as Hold.
  destruct (for_loop i _ _) as [cl inC]. simpl in *.
  apply scanCommentLines_body_tag. rewrite Hold.
  apply lookup_resize_new; simpl; unfold getSize in Hi; lia.
Qed.

Lemma commentTags_vget lines i :
  0 ≤ i < getSize lines →
  vget (commentTags lines) i = lineTag (vget lines i) (inBlockComment lines i).
Proof. intros Hi. apply vget_lookup. by apply commentTags_lookup. Qed.

(** ** The scope tracker, line by line *)

Lemma countBraces_prefix line lvl (k : nat) :
  (k ≤ length line)%nat →
  for_loop (Z.of_nat k)
    (λ i scopeLevel,
       if chareq line.[i] LEFT_BRACE then scopeLevel + 1
       else if chareq line.[i] RIGHT_BRACE then scopeLevel - 1
       else scopeLevel) lvl
  = lvl + braceBalance (take k line).
Proof.
  induction k as [|k IH]; intros Hk.
  - rewrite for_loop_zero. unfold braceBalance, countChar. simpl. lia.
  - rewrite Nat2Z.inj_succ, <- Z.add_1_r, for_loop_succ by lia.
    rewrite IH by lia.
    assert (Hc : line !! k = Some line.[Z.of_nat k]).
    { rewrite <- (Nat2Z.id k) at 1. apply charAt_lookup.
      unfold getLength. lia. }
    rewrite (take_S_r _ _ _ Hc).
    unfold braceBalance, countChar. rewrite !count_occ_app. simpl.
    unfold chareq.
    destruct (ascii_dec line.[Z.of_nat k] LEFT_BRACE) as [->|Hl].
    + rewrite bool_decide_true by done.
      destruct (ascii_dec LEFT_BRACE RIGHT_BRACE); [done|]. lia.
    + rewrite bool_decide_false by done.
      destruct (ascii_dec line.[Z.of_nat k] RIGHT_BRACE) as [->|Hr].
      * rewrite bool_decide_true by done. lia.
      * rewrite bool_decide_false by done. lia.
Qed.

Lemma countBraces_spec line lvl :
  countBraces line lvl = lvl + braceBalance line.
Proof.
  unfold countBraces, getLength. rewrite countBraces_prefix by done.
  by rewrite firstn_all.
Qed.

Lemma scanScopeLevels_body_frame sc i p (j : nat) :
  j ≠ Z.to_nat i → (scanScopeLevels_body sc i p).1 !! j = p.1 !! j.
Proof.
  intros Hne. destruct p as [sl lvl]. unfold scanScopeLevels_body.
  destruct (negb _); [destruct (isLineStartCloseBrace _)|]; simpl;
    by rewrite ?vset_lookup_ne.
Qed.

Lemma scanScopeLevels_body_length sc i p :
  length (scanScopeLevels_body sc i p).1 = length p.1.
Proof.
  destruct p as [sl lvl]. unfold scanScopeLevels_body.
  destruct (negb _); [destruct (isLineStartCloseBrace _)|]; simpl;
    by rewrite ?vset_length.
Qed.

Lemma scanScopeLevels_body_state sc i sl lvl :
  (scanScopeLevels_body sc i (sl, lvl)).2
  = if vget (commentLines sc) i =? 0
    then lvl + braceBalance (vget (fileLines sc) i) else lvl.
Proof.
  unfold scanScopeLevels_body. rewrite negb_toBool.
  destruct (_ =? 0); [|done]. rewrite <- countBraces_spec.
  by destruct (isLineStartCloseBrace _).
Qed.

Lemma scanScopeLevels_body_entry sc i sl lvl :
  (Z.to_nat i < length sl)%nat →
  (scanScopeLevels_body sc i (sl, lvl)).1 !! Z.to_nat i
  = Some (lvl - closeBraceCorrection (vget (commentLines sc) i)
                  (vget (fileLines sc) i)).
Proof.
  intros Hlt. unfold scanScopeLevels_body, closeBraceCorrection.
  rewrite negb_toBool.
  destruct (_ =? 0); simpl; [|rewrite vset_lookup_eq by done; f_equal; lia].
  destruct (isLineStartCloseBrace _); simpl.
  - rewrite vset_lookup_eq by (by rewrite vset_length). f_equal.
    f_equal. apply vget_lookup. by apply vset_lookup_eq.
  - rewrite vset_lookup_eq by done. f_equal. lia.
Qed.

Lemma runningLevel_zero lines : runningLevel lines 0 = 0.
Proof. done. Qed.

Lemma runningLevel_succ lines i :
  0 ≤ i →
  runningLevel lines (i + 1)
  = if vget (commentTags lines) i =? 0
    then runningLevel lines i + braceBalance (vget lines i)
    else runningLevel lines i.
Proof.
  intros Hi. unfold runningLevel, scanScopeLevels_upto.
  rewrite for_loop_succ by done.
  destruct (for_loop i _ _) as [sl lvl].
  apply scanScopeLevels_body_state.
Qed.

Lemma braceDepths_eq lines :
  braceDepths lines
  = (scanScopeLevels_upto (trackerInput lines) (getSize lines)).1.
Proof. done. Qed.

Lemma braceDepths_length lines : length (braceDepths lines) = length lines.
Proof.
  rewrite braceDepths_eq. unfold scanScopeLevels_upto.
  rewrite (loop_size _ _ (scanScopeLevels_body_length _))
    by (unfold getSize; lia).
  simpl. apply length_resize.
Qed.

(** The recorded depth of line [i] is the running counter it is entered
    with, less its own correction. *)
Lemma braceDepths_lookup lines i :
  0 ≤ i < getSize lines →
  braceDepths lines !! Z.to_nat i
  = Some (runningLevel lines i
          - closeBraceCorrection (vget (commentTags lines) i) (vget lines i)).
Proof.
  intros Hi. rewrite braceDepths_eq. unfold scanScopeLevels_upto.
  rewrite (loop_entry _ _ (scanScopeLevels_body_frame _)) by done.
  unfold runningLevel, scanScopeLevels_upto.
  pose proof (loop_size (scanScopeLevels_body (trackerInput lines))
                (resize (length (fileLines (trackerInput lines))) 0
                   (scopeLevels (trackerInput lines)), 0)
                (scanScopeLevels_body_length _) i (proj1 Hi)) as Hlen.
  destruct (for_loop i _ _) as [sl lvl]. simpl in Hlen.
  rewrite length_resize in Hlen.
  apply scanScopeLevels_body_entry. unfold getSize in Hi. lia.
Qed.

Lemma braceDepths_vget lines i :
  0 ≤ i < getSize lines →
  vget (braceDepths lines) i
  = runningLevel lines i
    - closeBraceCorrection (vget (commentTags lines) i) (vget lines i).
Proof. intros Hi. apply vget_lookup. by apply braceDepths_lookup. Qed.

(** ** The label adjuster, line by line *)

Lemma scanScopeLabels_body_frame sc i p (j : nat) :
  j ≠ Z.to_nat i → (scanScopeLabels_body sc i p).1 !! j = p.1 !! j.
Proof.
  intros Hne. destruct p as [sl lvl]. unfold scanScopeLabels_body.
  rewrite negb_toBool.
  destruct (lvl =? 0), (thisLineLabel sc i), (vget sl i <? lvl); simpl;
    by rewrite ?vset_lookup_ne.
Qed.

Lemma scanScopeLabels_body_length sc i p :
  length (scanScopeLabels_body sc i p).1 = length p.1.
Proof.
  destruct p as [sl lvl]. unfold scanScopeLabels_body. rewrite negb_toBool.
  destruct (lvl =? 0), (thisLineLabel sc i), (vget sl i <? lvl); simpl;
    by rewrite ?vset_length.
Qed.

Lemma scanScopeLabels_body_state sc i sl lvl :
  (scanScopeLabels_body sc i (sl, lvl)).2
  = nextLabelLevel (thisLineLabel sc i) (vget sl i) lvl.
Proof.
  unfold scanScopeLabels_body, nextLabelLevel. rewrite negb_toBool.
  destruct (thisLineLabel sc i), (vget sl i <? lvl),
    (Z.eqb_spec lvl 0) as [->|Hne]; done.
Qed.

Lemma scanScopeLabels_body_entry sc i sl lvl :
  (Z.to_nat i < length sl)%nat →
  (scanScopeLabels_body sc i (sl, lvl)).1 !! Z.to_nat i
  = Some (if labelAdjusted (thisLineLabel sc i) (vget sl i) lvl
          then vget sl i + 1 else vget sl i).
Proof.
  intros Hlt. unfold scanScopeLabels_body, labelAdjusted.
  rewrite negb_toBool.
  assert (Hsame : sl !! Z.to_nat i = Some (vget sl i)).
  { by apply list_lookup_lookup_total_lt. }
  destruct (lvl =? 0), (thisLineLabel sc i), (vget sl i <? lvl); simpl;
    by rewrite ?vset_lookup_eq.
Qed.

Lemma labelLevelAt_zero lines : labelLevelAt lines 0 = 0.
Proof. done. Qed.

Lemma depths_eq lines :
  depths lines
  = (scanScopeLabels_upto (scanScopeLevels (trackerInput lines))
       (getSize lines)).1.
Proof. done. Qed.

Lemma labelLoop_before lines i :
  0 ≤ i →
  vget (for_loop i
          (scanScopeLabels_body (scanScopeLevels (trackerInput lines)))
          (braceDepths lines, 0)).1 i
  = vget (braceDepths lines) i.
Proof.
  intros Hi. apply vget_eq.
  by rewrite (loop_before _ _ (scanScopeLabels_body_frame _)).
Qed.

Lemma labelLevelAt_succ lines i :
  0 ≤ i →
  labelLevelAt lines (i + 1)
  = nextLabelLevel (isLabelLine lines i) (vget (braceDepths lines) i)
      (labelLevelAt lines i).
Proof.
  intros Hi. unfold labelLevelAt, scanScopeLabels_upto.
  rewrite for_loop_succ by done.
  pose proof (labelLoop_before lines i Hi) as Hd.
  fold (braceDepths lines).
  destruct (for_loop i _ _) as [sl lvl]. simpl in Hd. rewrite <- Hd.
  apply scanScopeLabels_body_state.
Qed.

Lemma depths_length lines : length (depths lines) = length lines.
Proof.
  rewrite depths_eq. unfold scanScopeLabels_upto.
  rewrite (loop_size _ _ (scanScopeLabels_body_length _))
    by (unfold getSize; lia).
  apply braceDepths_length.
Qed.

(** The final depth of line [i]: its recorded depth, plus one exactly when
    the label pass adjusts it. *)
Lemma depths_vget lines i :
  0 ≤ i < getSize lines →
  vget (depths lines) i
  = if labelAdjusted (isLabelLine lines i) (vget (braceDepths lines) i)
         (labelLevelAt lines i)
    then vget (braceDepths lines) i + 1 else vget (braceDepths lines) i.
Proof.
  intros Hi. apply vget_lookup. rewrite depths_eq.
  unfold scanScopeLabels_upto.
  rewrite (loop_entry _ _ (scanScopeLabels_body_frame _)) by done.
  unfold labelLevelAt, scanScopeLabels_upto.
  pose proof (labelLoop_before lines i (proj1 Hi)) as Hd.
  pose proof (loop_size (scanScopeLabels_body
                           (scanScopeLevels (trackerInput lines)))
                (braceDepths lines, 0)
                (scanScopeLabels_body_length _) i (proj1 Hi)) as Hlen.
  fold (braceDepths lines).
  destruct (for_loop i _ _) as [sl lvl]. simpl in Hd, Hlen. rewrite <- Hd.
  apply scanScopeLabels_body_entry.
  rewrite Hlen, braceDepths_length. unfold getSize in Hi. lia.
Qed.

(** * The properties *)

(** ** Scenarios of the specification *)

Example tokens_of_a_declaration :
  showTokens_line (lit "int x=5;")
  = [lit "int"; lit "x"; lit "="; lit "5"; lit ";"].
Proof. by vm_compute. Qed.

Example tags_of_a_block_comment :
  commentTags [lit "/* start"; lit "body"; lit "end */"]
  = [C_COMMENT; C_COMMENT; C_COMMENT].
Proof. by vm_compute. Qed.

Example depths_of_a_class_with_a_label :
  depths [lit "class Foo {"; lit "public:"; TAB :: lit "doThing();"; lit "}"]
  = [0; 1; 2; 0].
Proof. by vm_compute. Qed.

Example registry_of_a_class :
  newTypes (readFile [lit "class Foo {"; lit "int bar() {"; lit "}"; lit "};"])
  = [lit "Foo"]
  ∧ isFunctionHeader (lit "int bar() {") = true.
Proof. by vm_compute. Qed.

(** ** Tokenizer *)

Lemma showTokens_fuel_result s fuel :
  (length s < fuel)%nat → showTokens_fuel fuel s = Some (showTokens_line s).
Proof.
  intros Hfuel. destruct (showTokens_fuel_total s fuel Hfuel) as [toks Htoks].
  rewrite Htoks. f_equal. rewrite (showTokens_fuel_tokens _ _ _ Htoks).
  rewrite showTokens_line_tokens. apply tokensFrom_enough; unfold getLength; lia.
Qed.

(** C10.  The token loops end: with more than [length s] units of fuel the
    loops of [getLastToken], of [showTokens] and of [isFunctionHeader] return,
    and always the same result.  Each call of [getNextToken] from a position
    [pos >= 0] either moves the position strictly forward or returns the empty
    token; at a character that is neither white space, letter, underscore,
    digit nor punctuation it returns the empty token and leaves the position
    on that character. *)
Theorem token_loops_terminate (s : str) (pos : Z) :
  0 ≤ pos →
  (∀ fuel, (length s < fuel)%nat →
     getLastToken_fuel fuel s = Some (getLastToken s))
  ∧ (∀ fuel, (length s < fuel)%nat →
       showTokens_fuel fuel s = Some (showTokens_line s))
  ∧ (∀ fuel name, (length s < fuel)%nat →
       isFunctionHeader_fuel fuel s name = Some (isFunctionHeader2 s name))
  ∧ (pos < (getNextToken s pos).2 ∨ (getNextToken s pos).1 = [])
  ∧ (pos < getLength s → classified s.[pos] = false →
       getNextToken s pos = ([], pos)).
Proof.
  intros Hpos. split_and!.
  - intros fuel Hfuel.
    apply (getLastToken_fuel_mono s (S (length s))); [|lia].
    apply getLastToken_total.
  - intros fuel Hfuel. by apply showTokens_fuel_result.
  - intros fuel name Hfuel. rewrite isFunctionHeader_fuel_spec by done.
    rewrite <- isFunctionHeader_total.
    by rewrite isFunctionHeader_fuel_spec by lia.
  - destruct (getNextToken s pos) as [tok pos'] eqn:Hnext. simpl.
    destruct (getNextToken_spec _ _ _ _ Hpos Hnext) as (_ & _ & Hlt & _).
    destruct (decide (tok = [])) as [->|Hne]; [by right|left; by apply Hlt].
  - intros Hlt Hc. by apply getNextToken_unclassified.
Qed.

Lemma token_loops_terminate_witness :
  0 ≤ 1
  ∧ 1 < getLength (lit "a" ++ [BEL] ++ lit "b")
  ∧ classified (lit "a" ++ [BEL] ++ lit "b").[1] = false
  ∧ getNextToken (lit "a" ++ [BEL] ++ lit "b") 1 = ([], 1).
Proof.
  split; [lia|]. split; [(vm_compute; reflexivity)|]. split; [(vm_compute; reflexivity)|].
  apply (token_loops_terminate (lit "a" ++ [BEL] ++ lit "b") 1);
    [lia|(vm_compute; reflexivity)|(vm_compute; reflexivity)].
Defined.

(** C7 fails on a line with a character outside the classes of the
    tokenizer: the loop stops there and the rest of the line is dropped. *)
Lemma tokens_drop_after_unclassified :
  showTokens_line (lit "a" ++ [BEL] ++ lit "b") = [lit "a"]
  ∧ removeSpaces (lit "a" ++ [BEL] ++ lit "b") = lit "a" ++ [BEL] ++ lit "b"
  ∧ ¬ tokensReproduceLine (lit "a" ++ [BEL] ++ lit "b").
Proof.
  split; [(vm_compute; reflexivity)|]. split; [(vm_compute; reflexivity)|].
  unfold tokensReproduceLine. vm_compute. discriminate.
Qed.

Lemma classifiedPrefix_all line :
  Forall (λ c, classified c = true) line → classifiedPrefix line = line.
Proof. induction 1 as [|c line Hc _ IH]; simpl; [done|]. by rewrite Hc, IH. Qed.

(** C7, amended.  The tokens of a line, put end to end, are the part of the
    line before its first unclassified character, without its white space;
    for a line made of classified characters only, they are the whole line
    without its white space. *)
Theorem tokens_reproduce_classified_text (line : str) :
  concat (showTokens_line line) = removeSpaces (classifiedPrefix line)
  ∧ (Forall (λ c, classified c = true) line →
     concat (showTokens_line line) = removeSpaces line).
Proof.
  assert (Hgen : concat (showTokens_line line)
                 = removeSpaces (classifiedPrefix line)).
  { rewrite showTokens_line_tokens. unfold tokensAt.
    rewrite tokensFrom_visible by lia. done. }
  split; [done|]. intros Hall. by rewrite Hgen, classifiedPrefix_all.
Qed.

Lemma tokens_reproduce_classified_text_witness :
  Forall (λ c, classified c = true) (lit "int x=5;")
  ∧ concat (showTokens_line (lit "int x=5;")) = removeSpaces (lit "int x=5;").
Proof.
  assert (H : Forall (λ c, classified c = true) (lit "int x=5;")).
  { repeat constructor. }
  split; [exact H|].
  exact (proj2 (tokens_reproduce_classified_text (lit "int x=5;")) H).
Defined.

(** ** The function-header predicate *)

Lemma getFirstToken_tokens s : getFirstToken s = tokenOf (showTokens_line s) 0.
Proof.
  unfold getFirstToken. destruct (getNextToken s 0) as [tok pos] eqn:Hnext.
  destruct (stream_first _ _ _ Hnext) as [_ Hs].
  rewrite showTokens_line_tokens, <- Hs. by rewrite stream_head.
Qed.

(** C1 fails on a function that returns a type of the registry. *)
Lemma registry_type_is_no_header :
  let sc := readFile [lit "class Foo {"; lit "};"; lit "Foo make() {"; lit "}"] in
  isNewType sc (lit "Foo") = true
  ∧ isBasicType (lit "Foo") = false
  ∧ claimedFunctionHeader sc (lit "Foo make() {") = true
  ∧ isFunctionHeader (lit "Foo make() {") = false
  ∧ ¬ headerFollowsClaim sc (lit "Foo make() {").
Proof.
  cbv zeta. split_and!; [(vm_compute; reflexivity)..|].
  unfold headerFollowsClaim. vm_compute. discriminate.
Qed.

(** C1, amended.  [isFunctionHeader] holds exactly when the first token of
    the line is a built-in type name, the line does not end in a semicolon,
    and the tokens after the type have the shape of a header; the registry
    is not consulted, so a line that starts with a type of the registry only
    is never a header. *)
Theorem function_header_built_in_types (s : str) :
  (isFunctionHeader s = true ↔
     isBasicType (getFirstToken s) = true
     ∧ last (removeSpaces s) ≠ Some SEMICOLON
     ∧ headerShape (showTokens_line s) = true)
  ∧ (isBasicType (getFirstToken s) = false → isFunctionHeader s = false).
Proof.
  rewrite isFunctionHeader_tokens, <- getFirstToken_tokens.
  pose proof (isLineEndingSemicolon_spec s) as Hsemi.
  destruct (isBasicType (getFirstToken s)); simpl; [|split; [|done]].
  - split; [|done]. destruct (isLineEndingSemicolon s); simpl.
    + split; [done|]. intros (_ & Hne & _). by destruct Hne, Hsemi as [-> _].
    + split; [|tauto]. intros Hshape. split_and!; [done| |done].
      intros Hlast. apply Hsemi in Hlast. done.
  - split; [done|]. by intros [? _].
Qed.

Lemma function_header_built_in_types_witness :
  isBasicType (getFirstToken (lit "Foo make() {")) = false
  ∧ isFunctionHeader (lit "Foo make() {") = false.
Proof.
  split; [(vm_compute; reflexivity)|].
  apply (proj2 (function_header_built_in_types (lit "Foo make() {"))).
  (vm_compute; reflexivity).
Defined.

(** ** The comment classifier *)

(** The flag is set on entry to line [i] exactly when an earlier line opened
    a block comment and no line from there on closed it. *)
Lemma inBlockComment_open lines (n : nat) :
  inBlockComment lines (Z.of_nat n) = true ↔
  ∃ j, 0 ≤ j < Z.of_nat n
       ∧ opensBlock (vget lines j) = true
       ∧ ∀ k, j ≤ k < Z.of_nat n → closesBlock (vget lines k) = false.
Proof.
  induction n as [|n IH].
  - rewrite inBlockComment_zero. split; [done|]. intros (j & Hj & _). lia.
  - rewrite Nat2Z.inj_succ, <- Z.add_1_r, inBlockComment_succ by lia.
    unfold nextInBlock.
    destruct (closesBlock (vget lines (Z.of_nat n))) eqn:Hclose.
    { split; [done|]. intros (j & Hj & _ & Hk).
      rewrite Hk in Hclose by lia. done. }
    rewrite orb_true_iff, IH. split.
    + intros [Hopen|(j & Hj & Hopen & Hk)].
      * exists (Z.of_nat n). split_and!; [lia..|done|].
        intros k Hkn. by replace k with (Z.of_nat n) by lia.
      * exists j. split_and!; [lia..|done|].
        intros k Hkn. destruct (decide (k = Z.of_nat n)) as [->|Hne]; [done|].
        apply Hk. lia.
    + intros (j & Hj & Hopen & Hk).
      destruct (decide (j = Z.of_nat n)) as [->|Hne]; [by left|right].
      exists j. split_and!; [lia..|done|]. intros k Hkn. apply Hk. lia.
Qed.

Lemma inBlockComment_spec lines i :
  0 ≤ i →
  inBlockComment lines i = true ↔
  ∃ j, 0 ≤ j < i
       ∧ opensBlock (vget lines j) = true
       ∧ ∀ k, j ≤ k < i → closesBlock (vget lines k) = false.
Proof.
  intros Hi. pose proof (inBlockComment_open lines (Z.to_nat i)) as H.
  by rewrite Z2Nat.id in H by lia.
Qed.

Lemma opener_is_no_line_comment line :
  opensBlock line = true → startsLineComment line = false.
Proof.
  unfold opensBlock, startsLineComment, stringStartsWith.
  rewrite bool_decide_eq_true, bool_decide_eq_false.
  intros Hopen Hline.
  change (getLength DOUBLE_SLASH) with (getLength C_COMMENT_START) in Hline.
  rewrite Hopen in Hline. discriminate Hline.
Qed.

(** C3 fails on a line that starts with two slashes inside a block
    comment. *)
Lemma line_comment_inside_block :
  commentTags [lit "/* start"; lit "// body"; lit "end */"]
  = [C_COMMENT; CPP_COMMENT; C_COMMENT]
  ∧ ¬ noLineCommentInsideBlock [lit "/* start"; lit "// body"; lit "end */"].
Proof.
  split; [by vm_compute|]. intros Hclaim.
  apply (Hclaim 0 1); [lia|by vm_compute|by vm_compute| |by vm_compute].
  intros k Hk. assert (Hcases : k = 0 ∨ k = 1) by lia.
  destruct Hcases as [->| ->]; by vm_compute.
Qed.

(** C3, amended.  A line entered inside an open block comment (an earlier
    line opened one and no line since closed it) is tagged as a line comment
    exactly when its first token starts with two slashes, and as a block
    comment otherwise. *)
Theorem line_comment_inside_block_needs_slashes (lines : list str) (j i : Z) :
  0 ≤ j < i → i < getSize lines →
  opensBlock (vget lines j) = true →
  (∀ k, j ≤ k < i → closesBlock (vget lines k) = false) →
  (vget (commentTags lines) i = CPP_COMMENT ↔
     startsLineComment (vget lines i) = true)
  ∧ (startsLineComment (vget lines i) = false →
     vget (commentTags lines) i = C_COMMENT).
Proof.
  intros Hj Hi Hopen Hclosed.
  assert (Hin : inBlockComment lines i = true).
  { apply inBlockComment_spec; [lia|]. by exists j. }
  rewrite commentTags_vget by lia. unfold lineTag. rewrite Hin, orb_true_r.
  by destruct (startsLineComment (vget lines i)).
Qed.

Lemma line_comment_inside_block_needs_slashes_witness :
  let lines := [lit "/* start"; lit "body"; lit "// more"; lit "end */"] in
  vget (commentTags lines) 1 = C_COMMENT
  ∧ vget (commentTags lines) 2 = CPP_COMMENT.
Proof.
  cbv zeta.
  assert (Hclosed : ∀ i k, 0 ≤ k < i → i ≤ 2 →
            closesBlock
              (vget [lit "/* start"; lit "body"; lit "// more"; lit "end */"] k)
            = false).
  { intros i k Hk Hi. assert (Hcases : k = 0 ∨ k = 1) by lia.
    destruct Hcases as [->| ->]; by vm_compute. }
  split.
  - apply (line_comment_inside_block_needs_slashes _ 0 1);
      [lia|by vm_compute|by vm_compute| |by vm_compute].
    intros k Hk. apply (Hclosed 1); lia.
  - apply (line_comment_inside_block_needs_slashes _ 0 2);
      [lia|by vm_compute|by vm_compute| |by vm_compute].
    intros k Hk. apply (Hclosed 2); lia.
Defined.

(** C6 fails on a line that starts with two slashes after the unterminated
    opener. *)
Lemma line_comment_after_unterminated_opener :
  commentTags [lit "/* open"; lit "// note"; lit "code();"]
  = [C_COMMENT; CPP_COMMENT; C_COMMENT]
  ∧ ¬ unterminatedBlockAllTagged [lit "/* open"; lit "// note"; lit "code();"].
Proof.
  split; [by vm_compute|]. intros Hclaim.
  destruct (Hclaim 0) as [_ Htags]; [by vm_compute|by vm_compute| |].
  - intros k Hk. assert (Hcases : k = 0 ∨ k = 1 ∨ k = 2).
    { unfold getSize in Hk. simpl in Hk. lia. }
    destruct Hcases as [->|[->| ->]]; by vm_compute.
  - specialize (Htags 1 ltac:(by vm_compute)). vm_compute in Htags.
    discriminate Htags.
Qed.

(** C6, amended.  After a block comment that is opened and never closed, the
    flag stays set to the end of the file, the opener is tagged as a block
    comment, and every later line is tagged as a block comment unless its
    first token starts with two slashes, in which case it is tagged as a line
    comment. *)
Theorem unterminated_block_tags (lines : list str) (j : Z) :
  0 ≤ j < getSize lines →
  opensBlock (vget lines j) = true →
  (∀ k, j ≤ k < getSize lines → closesBlock (vget lines k) = false) →
  inBlockComment lines (getSize lines) = true
  ∧ vget (commentTags lines) j = C_COMMENT
  ∧ ∀ i, j ≤ i < getSize lines →
      vget (commentTags lines) i
      = if startsLineComment (vget lines i) then CPP_COMMENT else C_COMMENT.
Proof.
  intros Hj Hopen Hclosed. split_and!.
  - apply inBlockComment_spec; [lia|]. by exists j.
  - rewrite commentTags_vget by done. unfold lineTag.
    by rewrite (opener_is_no_line_comment _ Hopen), Hopen.
  - intros i Hi. rewrite commentTags_vget by lia. unfold lineTag.
    destruct (startsLineComment (vget lines i)); [done|].
    destruct (decide (i = j)) as [->|Hne]; [by rewrite Hopen|].
    assert (Hin : inBlockComment lines i = true).
    { apply inBlockComment_spec; [lia|]. exists j. split_and!; [lia..|done|].
      intros k Hk. apply Hclosed. lia. }
    by rewrite Hin, orb_true_r.
Qed.

Lemma unterminated_block_tags_witness :
  let lines := [lit "x = 1;"; lit "/* open"; lit "// note"; lit "code();"] in
  inBlockComment lines 4 = true
  ∧ vget (commentTags lines) 1 = C_COMMENT
  ∧ ∀ i, 1 ≤ i < 4 →
      vget (commentTags lines) i
      = if startsLineComment (vget lines i) then CPP_COMMENT else C_COMMENT.
Proof.
  cbv zeta.
  apply (unterminated_block_tags
           [lit "x = 1;"; lit "/* open"; lit "// note"; lit "code();"] 1);
    [by vm_compute|by vm_compute|].
  intros k Hk. assert (Hcases : k = 1 ∨ k = 2 ∨ k = 3).
  { unfold getSize in Hk. simpl in Hk. lia. }
  destruct Hcases as [->|[->| ->]]; by vm_compute.
Defined.

(** ** The scope tracker *)

(** C2.  For a line that is not a comment and whose first character that is
    not a space is a closing brace, the recorded depth is the running counter
    the line was entered with, less one; the counter itself moves by the net
    brace balance of the line only, and it is that uncorrected counter from
    which the depth of the next line is recorded. *)
Theorem close_brace_line_depth (lines : list str) (i : Z) :
  0 ≤ i < getSize lines →
  vget (commentTags lines) i = NO_COMMENT →
  head (removeSpaces (vget lines i)) = Some RIGHT_BRACE →
  vget (braceDepths lines) i = runningLevel lines i - 1
  ∧ runningLevel lines (i + 1)
    = runningLevel lines i + braceBalance (vget lines i)
  ∧ (i + 1 < getSize lines →
     vget (braceDepths lines) (i + 1)
     = runningLevel lines i + braceBalance (vget lines i)
       - closeBraceCorrection (vget (commentTags lines) (i + 1))
           (vget lines (i + 1))).
Proof.
  intros Hi Htag Hbrace.
  apply isLineStartCloseBrace_spec in Hbrace.
  assert (Hnext : runningLevel lines (i + 1)
                  = runningLevel lines i + braceBalance (vget lines i)).
  { rewrite runningLevel_succ by lia. by rewrite Htag. }
  split_and!.
  - rewrite braceDepths_vget by done. unfold closeBraceCorrection.
    by rewrite Htag, Hbrace.
  - done.
  - intros Hin. rewrite braceDepths_vget by lia. by rewrite Hnext.
Qed.

Lemma close_brace_line_depth_witness :
  let lines := [lit "if (x) {"; lit "  y();"; lit "} else {"; lit "}"] in
  vget (braceDepths lines) 2 = runningLevel lines 2 - 1
  ∧ runningLevel lines 3 = runningLevel lines 2 + braceBalance (vget lines 2)
  ∧ (3 < getSize lines →
     vget (braceDepths lines) 3
     = runningLevel lines 2 + braceBalance (vget lines 2)
       - closeBraceCorrection (vget (commentTags lines) 3) (vget lines 3)).
Proof.
  cbv zeta.
  apply (close_brace_line_depth
           [lit "if (x) {"; lit "  y();"; lit "} else {"; lit "}"] 2);
    by vm_compute.
Defined.

(** ** The label adjuster *)

(** A label level that is set was taken from an earlier label line, and no
    line since has a smaller recorded depth. *)
Lemma labelLevelAt_origin lines (n : nat) :
  labelLevelAt lines (Z.of_nat n) ≠ 0 →
  ∃ j, 0 ≤ j < Z.of_nat n
       ∧ isLabelLine lines j = true
       ∧ vget (braceDepths lines) j = labelLevelAt lines (Z.of_nat n)
       ∧ ∀ k, j < k < Z.of_nat n →
           labelLevelAt lines (Z.of_nat n) ≤ vget (braceDepths lines) k.
Proof.
  induction n as [|n IH]; [by rewrite labelLevelAt_zero|].
  rewrite Nat2Z.inj_succ, <- Z.add_1_r, labelLevelAt_succ by lia.
  unfold nextLabelLevel.
  destruct (Z.eqb_spec (labelLevelAt lines (Z.of_nat n)) 0) as [Hzero|Hset].
  - destruct (isLabelLine lines (Z.of_nat n)) eqn:Hlabel; [|done].
    intros _. exists (Z.of_nat n). split_and!; [lia..|done|done|]. intros k Hk. lia.
  - destruct (Z.ltb_spec (vget (braceDepths lines) (Z.of_nat n))
                (labelLevelAt lines (Z.of_nat n))) as [Hlt|Hge]; [done|].
    intros _. destruct (IH Hset) as (j & Hj & Hlabel & Hd & Hk).
    exists j. split_and!; [lia..|done|done|]. intros k Hkn.
    destruct (decide (k = Z.of_nat n)) as [->|Hne]; [done|]. apply Hk. lia.
Qed.

(** C4 fails on a file with more closing than opening braces: a label at a
    negative depth opens a region, and the line after it is adjusted. *)
Lemma label_adjust_at_negative_depth :
  braceDepths [lit "}"; lit "case 1:"; lit "x;"] = [-1; -1; -1]
  ∧ depths [lit "}"; lit "case 1:"; lit "x;"] = [-1; -1; 0]
  ∧ ¬ noLabelAdjustOutsideScope [lit "}"; lit "case 1:"; lit "x;"].
Proof.
  split; [by vm_compute|]. split; [by vm_compute|]. intros Hclaim.
  specialize (Hclaim 2 ltac:(by vm_compute) ltac:(by vm_compute)).
  vm_compute in Hclaim. discriminate Hclaim.
Qed.

(** C4, amended.  The label pass changes the depth of a line only by adding
    one, only when the line is not itself a label line, and only when an
    earlier label line of non-zero recorded depth is followed, up to and
    including the line, by no line of smaller recorded depth; when that label
    line has a positive depth, so has the adjusted line.  (A label line of
    negative depth, which only a file with unbalanced braces has, opens a
    region too, and lines of depth 0 or below are adjusted inside it.) *)
Theorem label_adjust_region (lines : list str) (i : Z) :
  0 ≤ i < getSize lines →
  vget (depths lines) i ≠ vget (braceDepths lines) i →
  vget (depths lines) i = vget (braceDepths lines) i + 1
  ∧ isLabelLine lines i = false
  ∧ ∃ j, 0 ≤ j < i
         ∧ isLabelLine lines j = true
         ∧ vget (braceDepths lines) j ≠ 0
         ∧ (∀ k, j < k ≤ i →
              vget (braceDepths lines) j ≤ vget (braceDepths lines) k)
         ∧ (0 ≤ vget (braceDepths lines) j → 0 < vget (braceDepths lines) i).
Proof.
  intros Hi. rewrite depths_vget by done. unfold labelAdjusted.
  destruct (Z.eqb_spec (labelLevelAt lines i) 0) as [Hzero|Hset]; [done|].
  destruct (Z.ltb_spec (vget (braceDepths lines) i) (labelLevelAt lines i))
    as [Hlt|Hge]; [done|].
  destruct (isLabelLine lines i) eqn:Hlabel; [done|]. simpl. intros _.
  split; [done|]. split; [done|].
  pose proof (labelLevelAt_origin lines (Z.to_nat i)) as Horigin.
  rewrite Z2Nat.id in Horigin by lia.
  destruct (Horigin Hset) as (j & Hj & Hjlabel & Hd & Hk).
  exists j. split_and!; [lia..|done|lia| |lia].
  intros k Hki. rewrite Hd.
  destruct (decide (k = i)) as [->|Hne]; [done|]. apply Hk. lia.
Qed.

Lemma label_adjust_region_witness :
  let lines := [lit "class A {"; lit "public:"; lit "int x;"; lit "};"] in
  vget (depths lines) 2 = vget (braceDepths lines) 2 + 1
  ∧ isLabelLine lines 2 = false
  ∧ ∃ j, 0 ≤ j < 2
         ∧ isLabelLine lines j = true
         ∧ vget (braceDepths lines) j ≠ 0
         ∧ (∀ k, j < k ≤ 2 →
              vget (braceDepths lines) j ≤ vget (braceDepths lines) k)
         ∧ (0 ≤ vget (braceDepths lines) j → 0 < vget (braceDepths lines) 2).
Proof.
  cbv zeta.
  apply (label_adjust_region
           [lit "class A {"; lit "public:"; lit "int x;"; lit "};"] 2);
    by vm_compute.
Defined.

Lemma isLabelLine_eq lines i :
  isLabelLine lines i
  = (vget (commentTags lines) i =? 0) && isLineLabel (vget lines i).
Proof. unfold isLabelLine, thisLineLabel. by rewrite negb_toBool. Qed.

(** C5.  The lines [public:], [<TAB>doThing();] and [}] found at brace
    depth 1 (outside a block comment, the running counter at 1 and no label
    region open but one of this depth) get the depths 1, 2 and 0. *)
Theorem label_scenario (lines : list str) (i : Z) :
  0 ≤ i → i + 2 < getSize lines →
  vget lines i = lit "public:" →
  vget lines (i + 1) = TAB :: lit "doThing();" →
  vget lines (i + 2) = lit "}" →
  inBlockComment lines i = false →
  runningLevel lines i = 1 →
  0 ≤ labelLevelAt lines i ≤ 1 →
  vget (depths lines) i = 1
  ∧ vget (depths lines) (i + 1) = 2
  ∧ vget (depths lines) (i + 2) = 0.
Proof.
  intros Hi Hsize Hl0 Hl1 Hl2 Hin0 Hrun0 Hlab0.
  replace (i + 2) with (i + 1 + 1) in * by lia.
  (* the comment classifier *)
  assert (Ht0 : vget (commentTags lines) i = 0).
  { rewrite commentTags_vget by lia. rewrite Hl0, Hin0. by vm_compute. }
  assert (Hin1 : inBlockComment lines (i + 1) = false).
  { rewrite inBlockComment_succ by lia. rewrite Hl0, Hin0. by vm_compute. }
  assert (Ht1 : vget (commentTags lines) (i + 1) = 0).
  { rewrite commentTags_vget by lia. rewrite Hl1, Hin1. by vm_compute. }
  assert (Hin2 : inBlockComment lines (i + 1 + 1) = false).
  { rewrite inBlockComment_succ by lia. rewrite Hl1, Hin1. by vm_compute. }
  assert (Ht2 : vget (commentTags lines) (i + 1 + 1) = 0).
  { rewrite commentTags_vget by lia. rewrite Hl2, Hin2. by vm_compute. }
  (* the scope tracker *)
  assert (Hd0 : vget (braceDepths lines) i = 1).
  { rewrite braceDepths_vget by lia. rewrite Ht0, Hl0, Hrun0. by vm_compute. }
  assert (Hrun1 : runningLevel lines (i + 1) = 1).
  { rewrite runningLevel_succ by lia. rewrite Ht0, Hl0, Hrun0. by vm_compute. }
  assert (Hd1 : vget (braceDepths lines) (i + 1) = 1).
  { rewrite braceDepths_vget by lia. rewrite Ht1, Hl1, Hrun1. by vm_compute. }
  assert (Hrun2 : runningLevel lines (i + 1 + 1) = 1).
  { rewrite runningLevel_succ by lia. rewrite Ht1, Hl1, Hrun1. by vm_compute. }
  assert (Hd2 : vget (braceDepths lines) (i + 1 + 1) = 0).
  { rewrite braceDepths_vget by lia. rewrite Ht2, Hl2, Hrun2. by vm_compute. }
  (* the label adjuster *)
  assert (Hb0 : isLabelLine lines i = true).
  { rewrite isLabelLine_eq, Ht0, Hl0. by vm_compute. }
  assert (Hb1 : isLabelLine lines (i + 1) = false).
  { rewrite isLabelLine_eq, Ht1, Hl1. by vm_compute. }
  assert (Hlab1 : labelLevelAt lines (i + 1) = 1).
  { rewrite labelLevelAt_succ by lia. rewrite Hb0, Hd0. unfold nextLabelLevel.
    destruct (Z.eqb_spec (labelLevelAt lines i) 0); [done|].
    destruct (Z.ltb_spec 1 (labelLevelAt lines i)); lia. }
  assert (Hlab2 : labelLevelAt lines (i + 1 + 1) = 1).
  { rewrite labelLevelAt_succ by lia. by rewrite Hb1, Hd1, Hlab1. }
  split_and!.
  - rewrite depths_vget by lia. rewrite Hb0, Hd0. unfold labelAdjusted.
    by rewrite !andb_false_r.
  - rewrite depths_vget by lia. by rewrite Hb1, Hd1, Hlab1.
  - rewrite depths_vget by lia. by rewrite Hd2, Hlab2.
Qed.

Lemma label_scenario_witness :
  let lines :=
    [lit "class Foo {"; lit "public:"; TAB :: lit "doThing();"; lit "}"] in
  vget (depths lines) 1 = 1
  ∧ vget (depths lines) (1 + 1) = 2
  ∧ vget (depths lines) (1 + 2) = 0.
Proof.
  cbv zeta.
  apply (label_scenario
           [lit "class Foo {"; lit "public:"; TAB :: lit "doThing();"; lit "}"]
           1); by vm_compute.
Defined.

(** ** The continuation predicate *)

Lemma mayBeRunOnLine_spec sc N :
  0 < N →
  mayBeRunOnLine sc N = true ↔
    vget (scopeLevels sc) N = vget (scopeLevels sc) (N - 1)
    ∧ vget (commentLines sc) (N - 1) = NO_COMMENT
    ∧ removeSpaces (vget (fileLines sc) (N - 1)) ≠ []
    ∧ last (removeSpaces (vget (fileLines sc) (N - 1))) ≠ Some SEMICOLON.
Proof.
  intros HN. unfold mayBeRunOnLine, NO_COMMENT.
  destruct (Z.ltb_spec 0 N) as [_|Hle]; [|lia]. rewrite negb_toBool. simpl.
  set (prior := vget (fileLines sc) (N - 1)).
  pose proof (isBlank_spec prior) as Hblank.
  pose proof (getLastNonspacePos_spec prior) as Hlast.
  destruct (Z.eqb_spec (vget (scopeLevels sc) N) (vget (scopeLevels sc) (N - 1)))
    as [Hsame|Hdiff]; simpl; [|by split; [|intros [? _]]].
  destruct (Z.eqb_spec (vget (commentLines sc) (N - 1)) 0) as [Hcode|Hcomment];
    simpl; [|by split; [|intros (_ & ? & _)]].
  destruct (isBlank prior); simpl.
  { split; [done|]. intros (_ & _ & Hne & _). by destruct Hne, Hblank as [-> _]. }
  assert (Hne : removeSpaces prior ≠ []).
  { intros Hnil. by destruct Hblank as [_ Hb]; specialize (Hb Hnil). }
  destruct (last (removeSpaces prior)) as [c|] eqn:Hc.
  - destruct Hlast as [_ ->]. unfold chareq.
    destruct (decide (c = SEMICOLON)) as [->|Hsemi].
    + rewrite bool_decide_true by done. simpl. split; [done|].
      by intros (_ & _ & _ & ?).
    + rewrite bool_decide_false by done. simpl. split; [|done]. intros _.
      split_and!; [done..|]. by intros [= ->].
  - apply last_None in Hc. done.
Qed.

(** C8.  For a line [N >= 1] of the file, [mayBeRunOnLine] holds exactly
    when line [N] and line [N - 1] have the same final depth, line [N - 1] is
    not a comment and not blank, and the last character of line [N - 1] that
    is not a space is not a semicolon; for line 0 it does not hold. *)
Theorem run_on_line_predicate (lines : list str) (N : Z) :
  (1 ≤ N < getSize lines →
   (mayBeRunOnLine (readFile lines) N = true ↔
      vget (depths lines) N = vget (depths lines) (N - 1)
      ∧ vget (commentTags lines) (N - 1) = NO_COMMENT
      ∧ removeSpaces (vget lines (N - 1)) ≠ []
      ∧ last (removeSpaces (vget lines (N - 1))) ≠ Some SEMICOLON))
  ∧ mayBeRunOnLine (readFile lines) 0 = false.
Proof.
  split; [|done]. intros HN. apply mayBeRunOnLine_spec. lia.
Qed.

Lemma run_on_line_predicate_witness :
  let lines := [lit "int total ="; lit "  a + b;"; lit "return total;"] in
  1 ≤ 1 < getSize lines
  ∧ (mayBeRunOnLine (readFile lines) 1 = true ↔
       vget (depths lines) 1 = vget (depths lines) (1 - 1)
       ∧ vget (commentTags lines) (1 - 1) = NO_COMMENT
       ∧ removeSpaces (vget lines (1 - 1)) ≠ []
       ∧ last (removeSpaces (vget lines (1 - 1))) ≠ Some SEMICOLON)
  ∧ mayBeRunOnLine (readFile lines) 1 = true.
Proof.
  cbv zeta.
  assert (Hrange :
            1 ≤ 1 < getSize
                      [lit "int total ="; lit "  a + b;"; lit "return total;"]).
  { by vm_compute. }
  split; [exact Hrange|]. split; [|by vm_compute].
  exact (proj1 (run_on_line_predicate
                  [lit "int total ="; lit "  a + b;"; lit "return total;"] 1)
           Hrange).
Defined.

(** ** The type registry *)

Lemma newTypes_eq lines :
  newTypes (readFile lines)
  = for_loop (getSize lines)
      (scanNewTypeDefs_body (scanCommentLines (newScanner lines))) [].
Proof. done. Qed.

Lemma scanNewTypeDefs_body_grows sc i (types : list str) x :
  x ∈ types → x ∈ scanNewTypeDefs_body sc i types.
Proof.
  intros Hx. unfold scanNewTypeDefs_body.
  destruct (negb _); [|done].
  destruct (getNextToken _ 0) as [prefix pos].
  destruct (isClassKeyword prefix); [|done].
  destruct (getNextToken _ pos) as [name pos'].
  apply elem_of_app. by left.
Qed.

(** The registry only grows during the pass. *)
Lemma scanNewTypeDefs_grows sc (k m : nat) init x :
  (k ≤ m)%nat →
  x ∈ for_loop (Z.of_nat k) (scanNewTypeDefs_body sc) init →
  x ∈ for_loop (Z.of_nat m) (scanNewTypeDefs_body sc) init.
Proof.
  intros Hkm Hx. induction m as [|m IH].
  - by replace k with O in Hx by lia.
  - destruct (decide (k = S m)) as [->|Hne]; [done|].
    rewrite Nat2Z.inj_succ, <- Z.add_1_r, for_loop_succ by lia.
    apply scanNewTypeDefs_body_grows. apply IH. lia.
Qed.

(** A line that holds one token only, the class keyword, adds the empty
    name. *)
Lemma scanNewTypeDefs_body_keyword_alone sc i types keyword :
  isCommentLine sc i = false →
  isClassKeyword keyword = true →
  showTokens_line (vget (fileLines sc) i) = [keyword] →
  scanNewTypeDefs_body sc i types = types ++ [[]].
Proof.
  intros Hcode Hkey Htoks. unfold scanNewTypeDefs_body. rewrite Hcode. simpl.
  rewrite showTokens_line_tokens in Htoks.
  destruct (getNextToken _ 0) as [prefix pos] eqn:H0.
  destruct (stream_first _ _ _ H0) as [L0 S0]. rewrite Htoks in S0.
  rewrite (stream_token _ _ _ _ S0). unfold tokenOf at 1. simpl. rewrite Hkey.
  destruct (getNextToken _ pos) as [name pos'] eqn:H1.
  destruct (stream_next _ _ _ _ _ L0 H1) as [_ S1]. rewrite S0 in S1.
  by rewrite (stream_token _ _ _ _ S1).
Qed.

(** C9.  When a line that is not a comment holds the keyword [class] or
    [struct] and no further token, the registry pass records the empty
    string, and [isNewType] then holds of the empty string. *)
Theorem class_keyword_alone_registers_empty_name (lines : list str) (i : Z) :
  0 ≤ i < getSize lines →
  vget (commentTags lines) i = NO_COMMENT →
  showTokens_line (vget lines i) = [lit "class"]
  ∨ showTokens_line (vget lines i) = [lit "struct"] →
  [] ∈ newTypes (readFile lines) ∧ isNewType (readFile lines) [] = true.
Proof.
  intros Hi Htag Htoks.
  assert (Hin : [] ∈ newTypes (readFile lines)).
  { rewrite newTypes_eq. unfold getSize.
    apply (scanNewTypeDefs_grows _ (S (Z.to_nat i))); [unfold getSize in Hi; lia|].
    rewrite Nat2Z.inj_succ, <- Z.add_1_r, for_loop_succ by lia.
    rewrite Z2Nat.id by lia.
    assert (Hcode : isCommentLine (scanCommentLines (newScanner lines)) i = false).
    { change (toBool (vget (commentTags lines) i) = false).
      by rewrite Htag. }
    destruct Htoks as [Htoks|Htoks];
      erewrite scanNewTypeDefs_body_keyword_alone; [| done | | done | | done | | done];
      try (apply elem_of_app; right; apply list_elem_of_singleton; done);
      by vm_compute. }
  split; [done|]. unfold isNewType. apply existsb_exists.
  exists []. split; [by apply list_elem_of_In|done].
Qed.

Lemma class_keyword_alone_registers_empty_name_witness :
  let lines := [lit "// types"; lit "class"; lit "Widget {"; lit "};"] in
  [] ∈ newTypes (readFile lines) ∧ isNewType (readFile lines) [] = true.
Proof.
  cbv zeta.
  apply (class_keyword_alone_registers_empty_name
           [lit "// types"; lit "class"; lit "Widget {"; lit "};"] 1);
    [by vm_compute|by vm_compute|left; by vm_compute].
Defined.

(** * More properties of the program *)

(** ** Loops that collect line numbers *)

Lemma for_range_empty {St} (body : Z → St → St) st lo hi :
  hi ≤ lo → for_range lo hi body st = st.
Proof. intros Hle. unfold for_range. by rewrite seqZ_nil by lia. Qed.

Lemma for_range_succ {St} (body : Z → St → St) st lo hi :
  lo ≤ hi → for_range lo (hi + 1) body st = body hi (for_range lo hi body st).
Proof.
  intros Hle. unfold for_range.
  replace (hi + 1 - lo) with ((hi - lo) + 1) by lia.
  rewrite seqZ_app by lia. rewrite foldl_app. simpl.
  by replace (lo + (hi - lo)) with hi by lia.
Qed.

Lemma collectLines_succ lo hi test :
  lo ≤ hi →
  collectLines lo (hi + 1) test
  = collectLines lo hi test ++ (if test hi then [hi] else []).
Proof.
  intros Hle. unfold collectLines. rewrite for_range_succ by done.
  destruct (test hi); [done|by rewrite app_nil_r].
Qed.

Lemma collectLines_upto lo test (k : nat) :
  (∀ x, x ∈ collectLines lo (lo + Z.of_nat k) test ↔
         lo ≤ x < lo + Z.of_nat k ∧ test x = true)
  ∧ StronglySorted Z.lt (collectLines lo (lo + Z.of_nat k) test).
Proof.
  induction k as [|k [IHin IHsorted]].
  - unfold collectLines. rewrite for_range_empty by lia. split.
    + intros x. split; [by intros ?%elem_of_nil|lia].
    + constructor.
  - replace (lo + Z.of_nat (S k)) with (lo + Z.of_nat k + 1) by lia.
    rewrite collectLines_succ by lia. split.
    + intros x. rewrite elem_of_app, IHin.
      destruct (test (lo + Z.of_nat k)) eqn:Htest.
      * rewrite list_elem_of_singleton. split.
        -- intros [[Hx Ht]| ->]; [split; [lia|done]|split; [lia|done]].
        -- intros [Hx Ht].
           destruct (decide (x = lo + Z.of_nat k)) as [->|Hne]; [by right|].
           left. split; [lia|done].
      * split.
        -- intros [[Hx Ht]|Hnil]; [split; [lia|done]|by apply elem_of_nil in Hnil].
        -- intros [Hx Ht]. left. split; [|done].
           destruct (decide (x = lo + Z.of_nat k)) as [->|Hne]; [congruence|lia].
    + apply StronglySorted_app. split_and!; [|done|].
      * intros x y Hx%IHin Hy.
        destruct (test (lo + Z.of_nat k)); [|by apply elem_of_nil in Hy].
        apply list_elem_of_singleton in Hy. lia.
      * destruct (test (lo + Z.of_nat k)); repeat constructor.
Qed.

(** What a collecting loop returns: the numbers of its range that pass the
    test, each once, in increasing order. *)
Lemma collectLines_spec lo hi test :
  (∀ x, x ∈ collectLines lo hi test ↔ lo ≤ x < hi ∧ test x = true)
  ∧ StronglySorted Z.lt (collectLines lo hi test).
Proof.
  destruct (Z.le_gt_cases lo hi) as [Hle|Hgt].
  - pose proof (collectLines_upto lo test (Z.to_nat (hi - lo))) as H.
    by replace (lo + Z.of_nat (Z.to_nat (hi - lo))) with hi in H by lia.
  - unfold collectLines. rewrite for_range_empty by lia. split.
    + intros x. split; [by intros ?%elem_of_nil|lia].
    + constructor.
Qed.

Lemma collectLines_elem lo hi test x :
  x ∈ collectLines lo hi test ↔ lo ≤ x < hi ∧ test x = true.
Proof. apply collectLines_spec. Qed.

(** X1.  [checkLineLength] reports exactly the lines of more than 80
    characters, each once and in increasing order. *)
Theorem long_lines_reported (sc : StyleScanner) :
  (∀ i, i ∈ checkLineLength sc ↔
         0 ≤ i < getSize (fileLines sc)
         ∧ (80 < length (vget (fileLines sc) i))%nat)
  ∧ StronglySorted Z.lt (checkLineLength sc).
Proof.
  unfold checkLineLength. split; [|apply collectLines_spec].
  intros i. rewrite collectLines_elem, Z.ltb_lt. split; intros [? ?]; split; lia.
Qed.

(** ** Prefixes and suffixes *)



(** ** First and last position that is not a space *)

Lemma getFirstNonspacePos_from_index line fuel i :
  0 ≤ i → fuel = Z.to_nat (getLength line - i) →
  let r := getFirstNonspacePos_from line fuel i in
  (r = -1 ∧ ∀ k, i ≤ k < getLength line → isspace line.[k] = true)
  ∨ (i ≤ r < getLength line
     ∧ isspace line.[r] = false
     ∧ ∀ k, i ≤ k < r → isspace line.[k] = true).
Proof.
  revert i. induction fuel as [|fuel IH]; intros i Hi Hfuel; simpl.
  - left. split; [done|]. intros k Hk. lia.
  - destruct (Z.ltb_spec i (getLength line)) as [Hlt|Hge]; [|lia].
    destruct (isspace line.[i]) eqn:Hsp; simpl.
    + destruct (IH (i + 1)) as [[Hr Hall]|(Hr & Hns & Hall)]; [lia..| |].
      * left. split; [done|]. intros k Hk.
        destruct (decide (k = i)) as [->|Hne]; [done|]. apply Hall. lia.
      * right. split_and!; [lia..|done|]. intros k Hk.
        destruct (decide (k = i)) as [->|Hne]; [done|]. apply Hall. lia.
    + right. split_and!; [lia..|done|]. intros k Hk. lia.
Qed.

Lemma getLastNonspacePos_from_index line fuel i :
  -1 ≤ i < getLength line → fuel = Z.to_nat (i + 1) →
  let r := getLastNonspacePos_from line fuel i in
  (r = -1 ∧ ∀ k, 0 ≤ k ≤ i → isspace line.[k] = true)
  ∨ (0 ≤ r ≤ i
     ∧ isspace line.[r] = false
     ∧ ∀ k, r < k ≤ i → isspace line.[k] = true).
Proof.
  revert i. induction fuel as [|fuel IH]; intros i Hi Hfuel; simpl.
  - left. split; [done|]. intros k Hk. lia.
  - destruct (Z.leb_spec 0 i) as [Hle|Hgt]; [|lia].
    destruct (isspace line.[i]) eqn:Hsp; simpl.
    + destruct (IH (i - 1)) as [[Hr Hall]|(Hr & Hns & Hall)]; [lia..| |].
      * left. split; [done|]. intros k Hk.
        destruct (decide (k = i)) as [->|Hne]; [done|]. apply Hall. lia.
      * right. split_and!; [lia..|done|]. intros k Hk.
        destruct (decide (k = i)) as [->|Hne]; [done|]. apply Hall. lia.
    + right. split_and!; [lia..|done|]. intros k Hk. lia.
Qed.

Lemma nonspacePos_spec (line : str) :
  ((getFirstNonspacePos line = -1
    ∧ ∀ k, 0 ≤ k < getLength line → isspace line.[k] = true)
   ∨ (0 ≤ getFirstNonspacePos line < getLength line
      ∧ isspace line.[getFirstNonspacePos line] = false
      ∧ ∀ k, 0 ≤ k < getFirstNonspacePos line → isspace line.[k] = true))
  ∧ ((getLastNonspacePos line = -1
      ∧ ∀ k, 0 ≤ k < getLength line → isspace line.[k] = true)
     ∨ (0 ≤ getLastNonspacePos line < getLength line
        ∧ isspace line.[getLastNonspacePos line] = false
        ∧ ∀ k, getLastNonspacePos line < k < getLength line →
            isspace line.[k] = true)).
Proof.
  split.
  - apply (getFirstNonspacePos_from_index line _ 0); [done|]. f_equal. lia.
  - pose proof (getLength_nonneg line) as Hlen.
    destruct (getLastNonspacePos_from_index line
                (Z.to_nat (getLength line)) (getLength line - 1))
      as [[Hr Hall]|(Hr & Hns & Hall)]; [lia|f_equal; lia| |].
    + left. split; [done|]. intros k Hk. apply Hall. lia.
    + right. fold (getLastNonspacePos line) in *. split_and!; [lia..|done|].
      intros k Hk. apply Hall. lia.
Qed.

(** X3.  [getFirstNonspacePos] returns -1 when every character of the line
    is a space, and otherwise the position of a character that is not a
    space with only spaces before it; [getLastNonspacePos] likewise, with
    only spaces after it. *)
Theorem nonspace_positions (line : str) :
  ((getFirstNonspacePos line = -1
    ∧ ∀ k, 0 ≤ k < getLength line → isspace line.[k] = true)
   ∨ (0 ≤ getFirstNonspacePos line < getLength line
      ∧ isspace line.[getFirstNonspacePos line] = false
      ∧ ∀ k, 0 ≤ k < getFirstNonspacePos line → isspace line.[k] = true))
  ∧ ((getLastNonspacePos line = -1
      ∧ ∀ k, 0 ≤ k < getLength line → isspace line.[k] = true)
     ∨ (0 ≤ getLastNonspacePos line < getLength line
        ∧ isspace line.[getLastNonspacePos line] = false
        ∧ ∀ k, getLastNonspacePos line < k < getLength line →
            isspace line.[k] = true)).
Proof. exact (nonspacePos_spec line). Qed.

Lemma removeSpaces_nil s :
  removeSpaces s = [] ↔ Forall (λ c, isspace c = true) s.
Proof.
  induction s as [|c s IH]; simpl; [done|].
  destruct (isspace c) eqn:Hc.
  - rewrite IH. split; [by constructor|by inversion 1].
  - split; [done|]. inversion 1; congruence.
Qed.

Lemma removeSpaces_take_spaces s r :
  (∀ k, 0 ≤ k < r → isspace s.[k] = true) →
  r ≤ getLength s →
  removeSpaces (take (Z.to_nat r) s) = [].
Proof.
  intros Hall Hr. apply removeSpaces_nil, Forall_lookup. intros i c Hi.
  apply lookup_take_Some in Hi as [Hi Hlt].
  rewrite <- (Hall (Z.of_nat i)) by lia. f_equal.
  unfold charAt. rewrite Nat2Z.id. symmetry.
  by apply list_lookup_total_correct.
Qed.

Lemma removeSpaces_drop_spaces s r :
  (∀ k, r < k < getLength s → isspace s.[k] = true) →
  -1 ≤ r →
  removeSpaces (drop (Z.to_nat (r + 1)) s) = [].
Proof.
  intros Hall Hr. apply removeSpaces_nil, Forall_lookup. intros i c Hi.
  rewrite lookup_drop in Hi. pose proof (lookup_lt_Some _ _ _ Hi) as Hlt.
  rewrite <- (Hall (Z.of_nat (Z.to_nat (r + 1) + i))) by (unfold getLength; lia).
  f_equal. unfold charAt. rewrite Nat2Z.id. symmetry.
  by apply list_lookup_total_correct.
Qed.

Lemma split_at s p :
  0 ≤ p < getLength s →
  s = take (Z.to_nat p) s ++ s.[p] :: drop (Z.to_nat (p + 1)) s.
Proof.
  intros Hp. rewrite <- drop_charAt by done. by rewrite take_drop.
Qed.

(** X4.  [isLeftBrace] holds of a line exactly when the line, without its
    white space, is one opening brace. *)
Theorem left_brace_line (sc : StyleScanner) (line : Z) :
  isLeftBrace sc line = true ↔
  removeSpaces (vget (fileLines sc) line) = [LEFT_BRACE].
Proof.
  unfold isLeftBrace. set (l := vget (fileLines sc) line).
  destruct (nonspacePos_spec l) as [Hfirst Hlast].
  set (p := getFirstNonspacePos l) in *. set (q := getLastNonspacePos l) in *.
  rewrite !andb_true_iff, negb_true_iff, Z.eqb_neq, Z.eqb_eq, chareq_true.
  destruct Hfirst as [[Hp Hall]|(Hp & Hpns & Hbefore)].
  { split; [tauto|]. intros Hone.
    assert (Hnil : removeSpaces l = []).
    { pose proof (removeSpaces_take_spaces l (getLength l)) as Htake.
      replace (Z.to_nat (getLength l)) with (length l) in Htake
        by (unfold getLength; lia).
      rewrite firstn_all in Htake.
      apply Htake; [|lia]. intros k Hk. by apply Hall. }
    congruence. }
  assert (Hshape : removeSpaces l
                   = l.[p] :: removeSpaces (drop (Z.to_nat (p + 1)) l)).
  { rewrite (split_at l p) at 1 by done.
    rewrite removeSpaces_app, removeSpaces_take_spaces by (done || lia).
    simpl. by rewrite Hpns. }
  destruct Hlast as [[Hq Hall]|(Hq & Hqns & Hafter)].
  { rewrite Hall in Hpns by lia. done. }
  assert (Hpq : p ≤ q).
  { destruct (Z.le_gt_cases p q) as [?|Hlt]; [done|].
    rewrite Hbefore in Hqns by lia. done. }
  split.
  - intros [[_ Heq] Hbrace]. rewrite Hshape, Hbrace. f_equal.
    apply removeSpaces_drop_spaces; [|lia]. intros k Hk. apply Hafter. lia.
  - rewrite Hshape. intros [= Hbrace Hrest]. split_and!; [lia| |done].
    destruct (decide (p = q)) as [?|Hne]; [done|]. exfalso.
    apply removeSpaces_nil in Hrest.
    assert (Hin : drop (Z.to_nat (p + 1)) l !! Z.to_nat (q - (p + 1))
                  = Some l.[q]).
    { rewrite lookup_drop.
      replace (Z.to_nat (p + 1) + Z.to_nat (q - (p + 1)))%nat
        with (Z.to_nat q) by lia.
      apply charAt_lookup. lia. }
    pose proof (proj1 (Forall_lookup _ _) Hrest _ _ Hin) as Hsp.
    simpl in Hsp. congruence.
Qed.

(** ** The kinds of token *)

Lemma runClass_head first :
  runClass first first = true → classified first = true ∧ isspace first = false.
Proof. by_cases_on_char first. Qed.

Lemma findTokenEnd_run s pos :
  0 ≤ pos < getLength s →
  ∃ run,
    findTokenEnd s pos = pos + Z.of_nat (length run)
    ∧ drop (Z.to_nat pos) s = run ++ drop (Z.to_nat (findTokenEnd s pos)) s
    ∧ Forall (λ c, runClass s.[pos] c = true) run
    ∧ (run ≠ [] → findTokenEnd s pos < getLength s →
       runClass s.[pos] s.[findTokenEnd s pos] = false).
Proof.
  intros Hpos. unfold findTokenEnd, runClass.
  destruct (isalpha s.[pos] || chareq s.[pos] UNDERSCORE).
  { destruct (advance_split (λ c, isalnum c || chareq c UNDERSCORE) s pos)
      as (run & Hr & Hdrop & Hall & Hstop); [lia|]. by exists run. }
  destruct (isdigit s.[pos]).
  { destruct (advance_split (λ c, isdigit c || chareq c PERIOD) s pos)
      as (run & Hr & Hdrop & Hall & Hstop); [lia|]. by exists run. }
  destruct (ispunct s.[pos]).
  { destruct (advance_split ispunct s pos)
      as (run & Hr & Hdrop & Hall & Hstop); [lia|]. by exists run. }
  exists []. simpl. split_and!; [lia|done|done|done].
Qed.

Lemma getNextToken_run (s : str) (pos : Z) :
  0 ≤ pos →
  (getNextToken s pos).1 ≠ [] →
  let tok := (getNextToken s pos).1 in
  let pos' := (getNextToken s pos).2 in
  ∃ first rest,
    tok = first :: rest
    ∧ classified first = true ∧ isspace first = false
    ∧ Forall (λ c, runClass first c = true) tok
    ∧ (pos' < getLength s → runClass first s.[pos'] = false)
    ∧ substr s (pos' - getLength tok) (getLength tok) = tok
    ∧ pos ≤ pos' - getLength tok ∧ pos' ≤ getLength s.
Proof.
  intros Hpos. unfold getNextToken.
  destruct (advance_split isspace s pos) as (sp & Hp1 & Hdrop1 & Hsp & Hstop1);
    [done|].
  set (p1 := advance isspace s pos) in *.
  destruct (Z.leb_spec (getLength s) p1) as [Hend|Hin]; [done|]. simpl.
  destruct (findTokenEnd_run s p1) as (run & He & Hdrop2 & Hrun & Hmax); [lia|].
  set (e := findTokenEnd s p1) in *.
  replace (e - p1) with (Z.of_nat (length run)) by lia.
  rewrite (substr_run _ _ _ _ Hdrop2). intros Hne.
  destruct run as [|first rest]; [done|].
  assert (Hfirst : first = s.[p1]).
  { rewrite drop_charAt in Hdrop2 by lia. simpl in Hdrop2. congruence. }
  rewrite <- Hfirst in *.
  assert (Hhead : runClass first first = true) by (by inversion Hrun).
  destruct (runClass_head _ Hhead) as [Hc Hs].
  exists first, rest. unfold getLength at 2 3 4.
  replace (e - Z.of_nat (length (first :: rest))) with p1 by lia.
  split_and!; [done..| | | |].
  - intros Hlt. by apply Hmax.
  - by apply (substr_run _ _ _ _ Hdrop2).
  - lia.
  - rewrite He. eapply split_bound; [|exact Hdrop2]. lia.
Qed.

(** X5.  A token that [getNextToken] returns, when it is not the empty one,
    is the piece of the line that ends at the new position; it starts with a
    classified character that is not a space, all its characters continue
    the run its first character starts, and the character after it, if any,
    does not (the run is maximal). *)
Theorem token_is_a_maximal_run (s : str) (pos : Z) :
  0 ≤ pos →
  (getNextToken s pos).1 ≠ [] →
  let tok := (getNextToken s pos).1 in
  let pos' := (getNextToken s pos).2 in
  ∃ first rest,
    tok = first :: rest
    ∧ classified first = true ∧ isspace first = false
    ∧ Forall (λ c, runClass first c = true) tok
    ∧ (pos' < getLength s → runClass first s.[pos'] = false)
    ∧ substr s (pos' - getLength tok) (getLength tok) = tok
    ∧ pos ≤ pos' - getLength tok ∧ pos' ≤ getLength s.
Proof. exact (getNextToken_run s pos). Qed.

Lemma token_is_a_maximal_run_witness :
  let s := lit "  total+=x1 ;" in
  (getNextToken s 0).1 = lit "total"
  ∧ ∃ first rest,
      (getNextToken s 0).1 = first :: rest
      ∧ classified first = true ∧ isspace first = false
      ∧ Forall (λ c, runClass first c = true) (getNextToken s 0).1
      ∧ ((getNextToken s 0).2 < getLength s →
         runClass first s.[(getNextToken s 0).2] = false)
      ∧ substr s ((getNextToken s 0).2 - getLength (getNextToken s 0).1)
          (getLength (getNextToken s 0).1) = (getNextToken s 0).1
      ∧ 0 ≤ (getNextToken s 0).2 - getLength (getNextToken s 0).1
      ∧ (getNextToken s 0).2 ≤ getLength s.
Proof.
  cbv zeta. split; [by vm_compute|].
  apply (token_is_a_maximal_run (lit "  total+=x1 ;") 0); [done|by vm_compute].
Defined.

Lemma tokensFrom_elem s fuel pos tok :
  0 ≤ pos → tok ∈ tokensFrom s fuel pos →
  ∃ p, pos ≤ p ∧ (getNextToken s p).1 = tok ∧ tok ≠ [].
Proof.
  revert pos. induction fuel as [|fuel IH]; intros pos Hpos; simpl.
  - by intros ?%elem_of_nil.
  - destruct (getNextToken s pos) as [tok' pos'] eqn:Hnext.
    destruct (streq tok' []) eqn:Htok; [by intros ?%elem_of_nil|].
    apply streq_false in Htok.
    destruct (getNextToken_spec _ _ _ _ Hpos Hnext) as (Hle & _).
    intros [->|Hin]%elem_of_cons.
    + exists pos. by rewrite Hnext.
    + destruct (IH pos') as (p & Hp & Hget & Hne); [lia|done|].
      exists p. split; [lia|done].
Qed.

(** X6.  Every token of a line is a word, a number or a punctuation run: it
    is not empty, it starts with a classified character that is not a space,
    and all its characters continue the run its first character starts. *)
Theorem tokens_are_runs (line tok : str) :
  tok ∈ showTokens_line line →
  ∃ first rest,
    tok = first :: rest
    ∧ classified first = true ∧ isspace first = false
    ∧ Forall (λ c, runClass first c = true) tok.
Proof.
  rewrite showTokens_line_tokens. unfold tokensAt.
  intros (p & Hp & <- & Hne)%tokensFrom_elem; [|done].
  destruct (getNextToken_run line p Hp Hne)
    as (first & rest & Htok & Hc & Hs & Hall & _).
  by exists first, rest.
Qed.

Lemma tokens_are_runs_witness :
  lit "1.5" ∈ showTokens_line (lit "x = 1.5;")
  ∧ ∃ first rest,
      lit "1.5" = first :: rest
      ∧ classified first = true ∧ isspace first = false
      ∧ Forall (λ c, runClass first c = true) (lit "1.5").
Proof.
  assert (Hin : lit "1.5" ∈ showTokens_line (lit "x = 1.5;")).
  { vm_compute. do 2 apply list_elem_of_further. apply list_elem_of_here. }
  split; [exact Hin|].
  exact (tokens_are_runs (lit "x = 1.5;") (lit "1.5") Hin).
Defined.

(** ** First and last token *)

Lemma last_cons_default {A} (x d : A) (l : list A) :
  default d (last (x :: l)) = default x (last l).
Proof.
  revert x d. induction l as [|y l IH]; intros x d; [done|].
  change (last (x :: y :: l)) with (last (y :: l)).
  by rewrite (IH y d), (IH y x).
Qed.

(** The loop of [getLastToken] keeps the last token of the stream. *)
Lemma getLastToken_while s fuel st st' :
  while getLastToken_cond (getLastToken_body s) fuel st = Some st' →
  lt_lastToken st' =
    default (lt_lastToken st)
      (last (if streq (lt_nextToken st) [] then []
             else lt_nextToken st :: tokensFrom s fuel (lt_pos st))).
Proof.
  revert st. induction fuel as [|fuel IH]; intros st; [done|].
  rewrite while_unfold. unfold getLastToken_cond at 1.
  destruct (streq (lt_nextToken st) []) eqn:Htok; simpl.
  - by intros [= <-].
  - intros Hrun. apply IH in Hrun. rewrite Hrun. clear Hrun.
    unfold getLastToken_body.
    destruct (getNextToken s (lt_pos st)) as [tok pos']. simpl.
    by rewrite last_cons_default.
Qed.

Lemma getLastToken_tokens s :
  getLastToken s = default [] (last (showTokens_line s)).
Proof.
  pose proof (getLastToken_total s) as Htotal.
  unfold getLastToken_fuel in Htotal.
  destruct (getNextToken s 0) as [tok pos] eqn:Hfirst.
  destruct (while _ _ _ _) as [st'|] eqn:Hrun; [|done].
  simpl in Htotal. injection Htotal as <-.
  rewrite (getLastToken_while _ _ _ _ Hrun).
  cbn [lt_lastToken lt_nextToken lt_pos].
  rewrite showTokens_line_tokens, (tokensAt_unfold s 0), Hfirst by done.
  destruct (streq tok []); [done|].
  destruct (getNextToken_spec _ _ _ _ (Z.le_refl 0) Hfirst) as (Hpos & _).
  unfold tokensAt. f_equal. f_equal. f_equal.
  apply tokensFrom_enough; unfold getLength; lia.
Qed.

Lemma tokensFrom_nonempty s fuel pos :
  Forall (λ tok, tok ≠ []) (tokensFrom s fuel pos).
Proof.
  revert pos. induction fuel as [|fuel IH]; intros pos; simpl; [done|].
  destruct (getNextToken s pos) as [tok pos'].
  destruct (streq tok []) eqn:Htok; [done|].
  apply streq_false in Htok. by constructor.
Qed.

Lemma visible_blank s : removeSpaces s = [] → visible s = [].
Proof.
  unfold visible. induction s as [|c s IH]; simpl; [done|].
  destruct (isspace c) eqn:Hc; [|done]. intros Hs.
  rewrite (space_char_seen c Hc). simpl. rewrite Hc. by apply IH.
Qed.

(** X7.  [getFirstToken] and [getLastToken] return the first and the last
    token of the line, and the empty string when the line has no token; a
    line of white space only has no token. *)
Theorem first_and_last_token (line : str) :
  getFirstToken line = default [] (head (showTokens_line line))
  ∧ getLastToken line = default [] (last (showTokens_line line))
  ∧ (removeSpaces line = [] →
     showTokens_line line = []
     ∧ getFirstToken line = [] ∧ getLastToken line = []).
Proof.
  assert (Hfirst : getFirstToken line = default [] (head (showTokens_line line))).
  { rewrite getFirstToken_tokens. unfold tokenOf. by rewrite head_lookup. }
  pose proof (getLastToken_tokens line) as Hlast.
  split; [done|]. split; [done|]. intros Hblank.
  assert (Hnone : showTokens_line line = []).
  { rewrite showTokens_line_tokens. unfold tokensAt.
    set (fuel := S (Z.to_nat (getLength line - 0))).
    pose proof (tokensFrom_visible line fuel 0) as Hcat.
    rewrite drop_0, (visible_blank _ Hblank) in Hcat.
    pose proof (tokensFrom_nonempty line fuel 0) as Hne.
    destruct (tokensFrom line fuel 0) as [|tok toks]; [done|].
    inversion Hne as [|? ? Htok _]; subst. exfalso.
    specialize (Hcat ltac:(done) ltac:(lia)).
    simpl in Hcat. by destruct tok. }
  by rewrite Hfirst, Hlast, Hnone.
Qed.

Lemma first_and_last_token_witness :
  removeSpaces [TAB; " "%char; TAB] = []
  ∧ showTokens_line [TAB; " "%char; TAB] = []
  ∧ getFirstToken [TAB; " "%char; TAB] = []
  ∧ getLastToken [TAB; " "%char; TAB] = [].
Proof.
  assert (H : removeSpaces [TAB; " "%char; TAB] = []) by (by vm_compute).
  split; [exact H|].
  exact (proj2 (proj2 (first_and_last_token [TAB; " "%char; TAB])) H).
Defined.

(** ** The annotated file *)

Lemma lineTag_range line inC :
  lineTag line inC = NO_COMMENT
  ∨ lineTag line inC = C_COMMENT
  ∨ lineTag line inC = CPP_COMMENT.
Proof.
  unfold lineTag.
  destruct (startsLineComment line); [tauto|].
  destruct (opensBlock line || inC); tauto.
Qed.

(** X8.  [readFile] leaves the lines as they are and gives every line
    exactly one comment tag and one scope level; every tag is one of
    [NO_COMMENT], [C_COMMENT] and [CPP_COMMENT]. *)
Theorem annotated_file_shape (lines : list str) :
  fileLines (readFile lines) = lines
  ∧ length (commentLines (readFile lines)) = length lines
  ∧ length (scopeLevels (readFile lines)) = length lines
  ∧ Forall (λ tag, tag = NO_COMMENT ∨ tag = C_COMMENT ∨ tag = CPP_COMMENT)
      (commentLines (readFile lines)).
Proof.
  split; [done|]. split; [apply commentTags_length|].
  split; [apply depths_length|].
  apply Forall_lookup. intros i tag Hi.
  pose proof (lookup_lt_Some _ _ _ Hi) as Hlt.
  fold (commentTags lines) in Hi, Hlt. rewrite commentTags_length in Hlt.
  pose proof (commentTags_lookup lines (Z.of_nat i)) as Htag.
  rewrite Nat2Z.id, Hi in Htag.
  specialize (Htag ltac:(unfold getSize; lia)). injection Htag as ->.
  apply lineTag_range.
Qed.

Lemma total_app l k : total (l ++ k) = total l + total k.
Proof. unfold total. induction l as [|x l IH]; simpl; lia. Qed.

Lemma runningLevel_total lines (n : nat) :
  runningLevel lines (Z.of_nat n)
  = total (codeBalance lines <$> seqZ 0 (Z.of_nat n)).
Proof.
  induction n as [|n IH]; [done|].
  rewrite seqZ_S, fmap_app, total_app, <- IH, Z.add_0_l.
  rewrite Nat2Z.inj_succ, <- Z.add_1_r, runningLevel_succ by lia.
  unfold codeBalance. cbn [fmap list_fmap total foldr].
  destruct (vget (commentTags lines) (Z.of_nat n) =? 0); lia.
Qed.

(** X9.  The depth the scope tracker records for a line is the sum of the
    net brace balances of the earlier lines that are not comments, less one
    when the line itself is not a comment and starts with a closing brace;
    braces on comment lines count for nothing. *)
Theorem recorded_depth_is_a_sum (lines : list str) (i : Z) :
  0 ≤ i < getSize lines →
  vget (braceDepths lines) i
  = total (codeBalance lines <$> seqZ 0 i)
    - closeBraceCorrection (vget (commentTags lines) i) (vget lines i).
Proof.
  intros Hi. rewrite braceDepths_vget by done. f_equal.
  pose proof (runningLevel_total lines (Z.to_nat i)) as H.
  by rewrite Z2Nat.id in H by lia.
Qed.

Lemma recorded_depth_is_a_sum_witness :
  let lines := [lit "void f() {"; lit "// }}}"; lit "if (x) {"; lit "}}"] in
  vget (braceDepths lines) 3
  = total (codeBalance lines <$> seqZ 0 3)
    - closeBraceCorrection (vget (commentTags lines) 3) (vget lines 3).
Proof.
  cbv zeta.
  apply (recorded_depth_is_a_sum
           [lit "void f() {"; lit "// }}}"; lit "if (x) {"; lit "}}"] 3).
  by vm_compute.
Defined.

(** ** The registry *)

Lemma scanNewTypeDefs_body_eq sc i (types : list str) :
  scanNewTypeDefs_body sc i types
  = types ++
    (if negb (isCommentLine sc i)
        && isClassKeyword (getFirstToken (vget (fileLines sc) i))
     then [tokenOf (showTokens_line (vget (fileLines sc) i)) 1] else []).
Proof.
  unfold scanNewTypeDefs_body, getFirstToken.
  destruct (negb (isCommentLine sc i)); simpl; [|by rewrite app_nil_r].
  rewrite showTokens_line_tokens.
  destruct (getNextToken _ 0) as [prefix pos] eqn:H0. simpl.
  destruct (isClassKeyword prefix); [|by rewrite app_nil_r].
  destruct (stream_first _ _ _ H0) as [L0 S0].
  destruct (getNextToken _ pos) as [name pos'] eqn:H1.
  destruct (stream_next _ _ _ _ _ L0 H1) as [_ S1]. rewrite S0 in S1.
  by rewrite (stream_token _ _ _ _ S1), tokenOf_tail.
Qed.

Lemma scanNewTypeDefs_elem sc (k : nat) name :
  name ∈ for_loop (Z.of_nat k) (scanNewTypeDefs_body sc) [] ↔
  ∃ i, 0 ≤ i < Z.of_nat k
       ∧ isCommentLine sc i = false
       ∧ isClassKeyword (getFirstToken (vget (fileLines sc) i)) = true
       ∧ name = tokenOf (showTokens_line (vget (fileLines sc) i)) 1.
Proof.
  induction k as [|k IH].
  - rewrite for_loop_zero. split; [by intros ?%elem_of_nil|].
    intros (i & Hi & _). lia.
  - rewrite Nat2Z.inj_succ, <- Z.add_1_r, for_loop_succ by lia.
    rewrite scanNewTypeDefs_body_eq, elem_of_app, IH. split.
    + intros [(i & Hi & Hrest)|Hnew].
      * exists i. split; [lia|done].
      * destruct (isCommentLine sc (Z.of_nat k)) eqn:Hcode; simpl in Hnew;
          [by apply elem_of_nil in Hnew|].
        destruct (isClassKeyword _) eqn:Hkey; [|by apply elem_of_nil in Hnew].
        apply list_elem_of_singleton in Hnew.
        exists (Z.of_nat k). split; [lia|done].
    + intros (i & Hi & Hcode & Hkey & Hname).
      destruct (decide (i = Z.of_nat k)) as [->|Hne].
      * right. rewrite Hcode, Hkey. simpl. by apply list_elem_of_singleton.
      * left. exists i. split; [lia|done].
Qed.

Lemma newTypes_contents (lines : list str) (name : str) :
  (name ∈ newTypes (readFile lines) ↔
     ∃ i, 0 ≤ i < getSize lines
          ∧ vget (commentTags lines) i = NO_COMMENT
          ∧ isClassKeyword (getFirstToken (vget lines i)) = true
          ∧ name = tokenOf (showTokens_line (vget lines i)) 1)
  ∧ (isNewType (readFile lines) name = true ↔ name ∈ newTypes (readFile lines)).
Proof.
  split.
  - rewrite newTypes_eq. unfold getSize. rewrite scanNewTypeDefs_elem.
    split; intros (i & Hi & Hcode & Hrest); exists i; (split; [done|]);
      (split; [|done]).
    + change (toBool (vget (commentTags lines) i) = false) in Hcode.
      unfold toBool in Hcode. apply negb_false_iff, Z.eqb_eq in Hcode. done.
    + change (toBool (vget (commentTags lines) i) = false).
      by rewrite Hcode.
  - unfold isNewType. rewrite existsb_exists. split.
    + intros (t & Hin & Heq). apply streq_true in Heq. subst t.
      by apply list_elem_of_In.
    + intros Hin. exists name. split; [by apply list_elem_of_In|].
      by apply streq_true.
Qed.

(** X10.  The registry that [scanNewTypeDefs] builds holds exactly the
    second tokens of the lines that are not comments and whose first token
    is [class] or [struct] (the empty string when there is no second token),
    and [isNewType] is membership in it. *)
Theorem registry_contents (lines : list str) (name : str) :
  (name ∈ newTypes (readFile lines) ↔
     ∃ i, 0 ≤ i < getSize lines
          ∧ vget (commentTags lines) i = NO_COMMENT
          ∧ isClassKeyword (getFirstToken (vget lines i)) = true
          ∧ name = tokenOf (showTokens_line (vget lines i)) 1)
  ∧ (isNewType (readFile lines) name = true ↔ name ∈ newTypes (readFile lines)).
Proof. exact (newTypes_contents lines name). Qed.

(** ** Names *)

Lemma camelCase_from_spec s fuel i :
  1 ≤ i → fuel = Z.to_nat (getLength s - i) →
  camelCase_from s fuel i = true ↔
  ∀ k, i ≤ k < getLength s →
       isalnum s.[k] = true ∧ (isupper s.[k] && isupper s.[k - 1] = false).
Proof.
  revert i. induction fuel as [|fuel IH]; intros i Hi Hfuel; simpl.
  - split; [|done]. intros _ k Hk. lia.
  - destruct (Z.ltb_spec i (getLength s)) as [Hlt|Hge]; [|lia].
    destruct (isalnum s.[i]) eqn:Halnum; simpl.
    + destruct (isupper s.[i] && isupper s.[i - 1]) eqn:Hupper.
      * split; [done|]. intros Hall. destruct (Hall i) as [_ Hno]; [lia|].
        congruence.
      * rewrite IH by lia. split.
        -- intros Hall k Hk.
           destruct (decide (k = i)) as [->|Hne]; [done|]. apply Hall. lia.
        -- intros Hall k Hk. apply Hall. lia.
    + split; [done|]. intros Hall. destruct (Hall i) as [Hyes _]; [lia|].
      congruence.
Qed.

Lemma isOkVariable_spec s :
  isOkVariable s = true ↔
  2 ≤ getLength s ∧ islower s.[0] = true
  ∧ ∀ k, 1 ≤ k < getLength s →
         isalnum s.[k] = true ∧ (isupper s.[k] && isupper s.[k - 1] = false).
Proof.
  unfold isOkVariable.
  destruct (Z.ltb_spec (getLength s) 2) as [Hshort|Hlong]; simpl.
  { split; [done|]. intros [? _]. lia. }
  destruct (islower s.[0]); simpl.
  - rewrite camelCase_from_spec by (done || lia). tauto.
  - split; [done|]. by intros (_ & ? & _).
Qed.

Lemma isOkTypeName_spec s :
  isOkTypeName s = true ↔
  2 ≤ getLength s ∧ isupper s.[0] = true
  ∧ ∀ k, 1 ≤ k < getLength s →
         isalnum s.[k] = true ∧ (isupper s.[k] && isupper s.[k - 1] = false).
Proof.
  unfold isOkTypeName.
  destruct (Z.ltb_spec (getLength s) 2) as [Hshort|Hlong]; simpl.
  { split; [done|]. intros [? _]. lia. }
  destruct (isupper s.[0]); simpl.
  - rewrite camelCase_from_spec by (done || lia). tauto.
  - split; [done|]. by intros (_ & ? & _).
Qed.

Lemma isOkConstant_spec s :
  isOkConstant s = true ↔
  2 ≤ getLength s
  ∧ ∀ k, 0 ≤ k < getLength s →
         isupper s.[k] = true ∨ s.[k] = UNDERSCORE.
Proof.
  unfold isOkConstant.
  destruct (Z.ltb_spec (getLength s) 2) as [Hshort|Hlong].
  { split; [done|]. intros [? _]. lia. }
  rewrite forallb_forall. split.
  - intros Hall. split; [done|]. intros k Hk.
    specialize (Hall s.[k]).
    rewrite <- list_elem_of_In in Hall.
    specialize (Hall ltac:(eapply list_elem_of_lookup_2, charAt_lookup, Hk)).
    apply negb_true_iff, andb_false_iff in Hall.
    rewrite !negb_false_iff, chareq_true in Hall. done.
  - intros [_ Hall] c Hin. apply list_elem_of_In, list_elem_of_lookup in Hin.
    destruct Hin as [n Hn]. pose proof (lookup_lt_Some _ _ _ Hn) as Hlt.
    specialize (Hall (Z.of_nat n) ltac:(unfold getLength; lia)).
    unfold charAt in Hall. rewrite Nat2Z.id in Hall.
    rewrite (list_lookup_total_correct _ _ _ Hn) in Hall.
    apply negb_true_iff, andb_false_iff.
    rewrite !negb_false_iff, chareq_true. done.
Qed.

Lemma lower_is_not_upper c :
  islower c = true → isupper c = false ∧ c ≠ UNDERSCORE.
Proof. by_cases_on_char c. Qed.

Lemma alnum_is_not_underscore c : isalnum c = true → c ≠ UNDERSCORE.
Proof. by_cases_on_char c. Qed.

(** X11.  The three naming conventions exclude one another: no string is
    accepted by two of [isOkVariable], [isOkTypeName] and [isOkConstant]. *)
Theorem naming_conventions_exclusive (s : str) :
  (isOkVariable s = true →
   isOkTypeName s = false ∧ isOkConstant s = false)
  ∧ (isOkTypeName s = true → isOkConstant s = false).
Proof.
  split.
  - intros (Hlen & Hlow & _)%isOkVariable_spec.
    destruct (lower_is_not_upper _ Hlow) as [Hup Hund]. split.
    + apply not_true_is_false. intros (_ & Hup' & _)%isOkTypeName_spec.
      congruence.
    + apply not_true_is_false. intros [_ Hall]%isOkConstant_spec.
      destruct (Hall 0) as [?|?]; [lia|congruence|done].
  - intros (Hlen & Hup & Hall)%isOkTypeName_spec.
    apply not_true_is_false. intros [_ Hconst]%isOkConstant_spec.
    destruct (Hall 1) as [Halnum Hpair]; [lia|].
    replace (1 - 1) with 0 in Hpair by lia. rewrite Hup, andb_true_r in Hpair.
    destruct (Hconst 1) as [?|Hund]; [lia|congruence|].
    by apply alnum_is_not_underscore in Halnum.
Qed.

Lemma naming_conventions_exclusive_witness :
  isOkVariable (lit "lineCount") = true
  ∧ isOkTypeName (lit "lineCount") = false
  ∧ isOkConstant (lit "lineCount") = false.
Proof.
  assert (H : isOkVariable (lit "lineCount") = true) by (by vm_compute).
  split; [exact H|].
  exact (proj1 (naming_conventions_exclusive (lit "lineCount")) H).
Defined.

Lemma advance_all P s pos :
  0 ≤ pos ≤ getLength s →
  (∀ k, pos ≤ k < getLength s → P s.[k] = true) →
  advance P s pos = getLength s.
Proof.
  intros Hpos Hall.
  destruct (advance_split P s pos) as (run & Hr & Hdrop & _ & Hstop); [lia|].
  pose proof (split_bound _ _ _ _ Hpos Hdrop) as Hle.
  destruct (Z.lt_ge_cases (advance P s pos) (getLength s)) as [Hlt|Hge]; [|lia].
  rewrite Hall in Hstop by lia. by specialize (Hstop Hlt).
Qed.

(** A string made of word characters, starting with a letter or an
    underscore, is its own single token. *)
Lemma word_is_one_token s :
  0 < getLength s →
  isalpha s.[0] || chareq s.[0] UNDERSCORE = true →
  (∀ k, 0 ≤ k < getLength s → isalnum s.[k] || chareq s.[k] UNDERSCORE = true) →
  showTokens_line s = [s].
Proof.
  intros Hlen Hhead Hall.
  assert (Hns : isspace s.[0] = false).
  { exact (proj2 (word_char_seen _ (alpha_is_word_char _ Hhead))). }
  assert (Hnext : getNextToken s 0 = (s, getLength s)).
  { unfold getNextToken. rewrite advance_stay by (done || lia).
    destruct (Z.leb_spec (getLength s) 0) as [?|_]; [lia|].
    unfold findTokenEnd. rewrite Hhead, advance_all by (done || lia).
    unfold substr, getLength. rewrite Z.sub_0_r, Nat2Z.id. simpl.
    by rewrite firstn_all. }
  rewrite showTokens_line_tokens, tokensAt_unfold, Hnext by done.
  destruct (streq s []) eqn:Hs.
  { apply streq_true in Hs. subst s. unfold getLength in Hlen. simpl in Hlen.
    lia. }
  rewrite tokensAt_unfold, getNextToken_end by lia. done.
Qed.

Lemma upper_is_alpha c : isupper c = true → isalpha c = true.
Proof. by_cases_on_char c. Qed.

Lemma lower_is_alpha c : islower c = true → isalpha c = true.
Proof. by_cases_on_char c. Qed.

(** X12.  A name that one of the naming conventions accepts is a single
    token to the tokenizer: the token list of the name is the name itself. *)
Theorem accepted_name_is_one_token (s : str) :
  isOkVariable s = true ∨ isOkTypeName s = true ∨ isOkConstant s = true →
  showTokens_line s = [s].
Proof.
  intros [Hvar|[Htype|Hconst]].
  - apply isOkVariable_spec in Hvar as (Hlen & Hlow & Hall).
    apply word_is_one_token; [lia|by rewrite (lower_is_alpha _ Hlow)|].
    intros k Hk. destruct (decide (k = 0)) as [->|Hne].
    + unfold isalnum. by rewrite (lower_is_alpha _ Hlow).
    + destruct (Hall k) as [-> _]; [lia|done].
  - apply isOkTypeName_spec in Htype as (Hlen & Hup & Hall).
    apply word_is_one_token; [lia|by rewrite (upper_is_alpha _ Hup)|].
    intros k Hk. destruct (decide (k = 0)) as [->|Hne].
    + unfold isalnum. by rewrite (upper_is_alpha _ Hup).
    + destruct (Hall k) as [-> _]; [lia|done].
  - apply isOkConstant_spec in Hconst as (Hlen & Hall).
    assert (Hword : ∀ k, 0 ≤ k < getLength s →
              isalpha s.[k] || chareq s.[k] UNDERSCORE = true).
    { intros k Hk. destruct (Hall k Hk) as [Hup| ->].
      - by rewrite (upper_is_alpha _ Hup).
      - by rewrite orb_true_r. }
    apply word_is_one_token; [lia|apply Hword; lia|].
    intros k Hk. by apply alpha_is_word_char, Hword.
Qed.

Lemma accepted_name_is_one_token_witness :
  (isOkVariable (lit "MAX_SHOWN") = true
   ∨ isOkTypeName (lit "MAX_SHOWN") = true
   ∨ isOkConstant (lit "MAX_SHOWN") = true)
  ∧ showTokens_line (lit "MAX_SHOWN") = [lit "MAX_SHOWN"].
Proof.
  assert (H : isOkVariable (lit "MAX_SHOWN") = true
              ∨ isOkTypeName (lit "MAX_SHOWN") = true
              ∨ isOkConstant (lit "MAX_SHOWN") = true).
  { right. right. by vm_compute. }
  split; [exact H|].
  exact (accepted_name_is_one_token (lit "MAX_SHOWN") H).
Defined.

(** ** The name checks *)

Lemma variableNameError_fuel_spec line fuel :
  (length line < fuel)%nat →
  variableNameError_fuel fuel line =
    Some (let toks := tokensAt line 0 in
          let rest := dropStars (tail toks) in
          isBasicType (tokenOf toks 0)
          && negb (isFunctionSymbol (tokenOf rest 1))
          && negb (isOkVariable (tokenOf rest 0))).
Proof.
  intros Hfuel. unfold variableNameError_fuel. cbv zeta.
  destruct (getNextToken line 0) as [type p0] eqn:H0.
  destruct (stream_first _ _ _ H0) as [L0 S0].
  pose proof (tokenMeasure_first _ _ _ H0) as M0.
  set (toks := tokensAt line 0) in *.
  rewrite <- (stream_token _ _ _ _ S0).
  destruct (isBasicType type); [|done].
  destruct (getNextToken line p0) as [n1 p1] eqn:H1.
  destruct (stream_next _ _ _ _ _ L0 H1) as [L1 S1].
  pose proof (stream_measure _ _ _ _ _ L0 H1) as M1.
  destruct (skipStars_while line fuel n1 p1) as (n2 & p2 & -> & L2 & _ & S2);
    [done|lia|].
  cbn [mbind option_bind].
  rewrite S1, S0 in S2. set (rest := dropStars (tail toks)) in *.
  destruct (getNextToken line p2) as [sym p3] eqn:H3.
  destruct (stream_next _ _ _ _ _ L2 H3) as [L3 S3]. rewrite S2 in S3.
  pose proof (stream_token _ _ _ _ S2) as ->.
  pose proof (stream_token _ _ _ _ S3) as ->.
  rewrite tokenOf_tail. cbn [andb].
  destruct (isFunctionSymbol (tokenOf rest 1)); [done|].
  by destruct (isOkVariable (tokenOf rest 0)).
Qed.

(** The skipping loop of [checkVariableNames] never runs out of fuel. *)
Lemma variableNameError_total line :
  variableNameError_fuel (S (length line)) line = Some (variableNameError line).
Proof.
  unfold variableNameError. by rewrite variableNameError_fuel_spec by lia.
Qed.

Lemma header_is_no_variable line :
  isFunctionHeader line = true → variableNameError line = false.
Proof.
  rewrite isFunctionHeader_tokens, showTokens_line_tokens.
  unfold variableNameError. rewrite variableNameError_fuel_spec by lia.
  cbv zeta. cbn [default from_option id]. unfold headerShape.
  set (rest := dropStars (tail (tokensAt line 0))).
  intros [_ Hshape]%andb_true_iff.
  assert (Hsymbol : isFunctionSymbol (tokenOf rest 1) = true).
  { unfold isFunctionSymbol.
    destruct (streq (tokenOf rest 1) (lit "::")).
    - by rewrite orb_true_r.
    - by rewrite Hshape. }
  rewrite Hsymbol. cbn [negb]. by rewrite andb_false_r.
Qed.

Lemma isFunctionHeader2_flag line name :
  (isFunctionHeader2 line name).1 = isFunctionHeader line.
Proof.
  unfold isFunctionHeader, isFunctionHeader2.
  rewrite !isFunctionHeader_fuel_spec by lia. cbv zeta.
  by destruct (isBasicType _ && negb _).
Qed.

(** X13.  [checkVariableNames] never reports a function header: a line it
    reports is no function header, so [checkFunctionNames] does not report
    it as well. *)
Theorem name_checks_disjoint (sc : StyleScanner) (i : Z) :
  i ∈ checkVariableNames sc →
  isFunctionHeader (vget (fileLines sc) i) = false
  ∧ i ∉ checkFunctionNames sc.
Proof.
  unfold checkVariableNames, checkFunctionNames. rewrite !collectLines_elem.
  intros (Hi & [Hcode Herror]%andb_true_iff).
  assert (Hno : isFunctionHeader (vget (fileLines sc) i) = false).
  { apply not_true_is_false. intros Hheader%header_is_no_variable.
    congruence. }
  split; [done|]. intros (_ & [_ Hname]%andb_true_iff).
  pose proof (isFunctionHeader2_flag (vget (fileLines sc) i) []) as Hflag.
  cbv zeta in Hname.
  destruct (isFunctionHeader2 (vget (fileLines sc) i) []) as [header name].
  simpl in Hflag. rewrite Hflag, Hno in Hname. done.
Qed.

Lemma name_checks_disjoint_witness :
  let sc := readFile [lit "int Total_count = 0;"; lit "int Main() {"] in
  checkVariableNames sc = [0]
  ∧ checkFunctionNames sc = [1]
  ∧ isFunctionHeader (vget (fileLines sc) 0) = false
  ∧ 0 ∉ checkFunctionNames sc.
Proof.
  cbv zeta. split; [by vm_compute|]. split; [by vm_compute|].
  apply (name_checks_disjoint
           (readFile [lit "int Total_count = 0;"; lit "int Main() {"]) 0).
  vm_compute. apply list_elem_of_here.
Defined.

(** ** Class names and the registry *)

Lemma classNameError_spec line :
  classNameError line
  = isClassKeyword (getFirstToken line)
    && negb (isOkTypeName (tokenOf (showTokens_line line) 1)).
Proof.
  unfold classNameError, getFirstToken. rewrite showTokens_line_tokens.
  destruct (getNextToken line 0) as [prefix pos] eqn:H0. cbn [fst].
  destruct (isClassKeyword prefix); [|done].
  destruct (stream_first _ _ _ H0) as [L0 S0].
  destruct (getNextToken line pos) as [name pos'] eqn:H1.
  destruct (stream_next _ _ _ _ _ L0 H1) as [_ S1]. rewrite S0 in S1.
  rewrite (stream_token _ _ _ _ S1), tokenOf_tail.
  by destruct (isOkTypeName _).
Qed.



(** ** Indentation *)

Lemma advance_index P s pos k :
  0 ≤ pos → pos ≤ k < advance P s pos → P s.[k] = true.
Proof.
  intros Hpos Hk.
  destruct (advance_split P s pos) as (run & Hr & Hdrop & Hall & _); [done|].
  assert (Hin : run !! Z.to_nat (k - pos) = Some s.[k]).
  { assert (Hlt : (Z.to_nat (k - pos) < length run)%nat) by lia.
    rewrite <- (lookup_app_l run (drop (Z.to_nat (advance P s pos)) s)) by done.
    rewrite <- Hdrop, lookup_drop.
    replace (Z.to_nat pos + Z.to_nat (k - pos))%nat with (Z.to_nat k) by lia.
    apply charAt_lookup. split; [lia|].
    apply lookup_lt_is_Some_2 in Hlt as [c Hc].
    apply (lookup_app_l_Some _ (drop (Z.to_nat (advance P s pos)) s)) in Hc.
    rewrite <- Hdrop, lookup_drop in Hc.
    apply lookup_lt_Some in Hc. unfold getLength. lia. }
  exact (proj1 (Forall_lookup _ _) Hall _ _ Hin).
Qed.

Lemma getStartTabCount_spec (line : str) :
  0 ≤ getStartTabCount line ≤ getLength line
  ∧ (∀ k, 0 ≤ k < getStartTabCount line → line.[k] = TAB)
  ∧ (getStartTabCount line < getLength line →
     line.[getStartTabCount line] ≠ TAB).
Proof.
  unfold getStartTabCount. cbv zeta.
  destruct (advance_split (λ c, chareq c TAB) line 0)
    as (run & Hr & Hdrop & Hall & Hstop); [done|].
  pose proof (getLength_nonneg line) as Hlen.
  pose proof (split_bound line 0 run _ ltac:(lia) Hdrop) as Hle.
  split_and!; [lia|lia| |].
  - intros k Hk. apply chareq_true.
    by apply (advance_index (λ c, chareq c TAB) line 0 k).
  - intros Hlt Htab. specialize (Hstop Hlt). simpl in Hstop.
    apply (proj2 (chareq_true _ _)) in Htab. congruence.
Qed.

(** X15.  [getStartTabCount] returns the number of tabulators the line
    starts with: the characters before that position are tabulators and the
    character at it, if any, is not. *)
Theorem start_tab_count (line : str) :
  0 ≤ getStartTabCount line ≤ getLength line
  ∧ (∀ k, 0 ≤ k < getStartTabCount line → line.[k] = TAB)
  ∧ (getStartTabCount line < getLength line →
     line.[getStartTabCount line] ≠ TAB).
Proof. exact (getStartTabCount_spec line). Qed.

Lemma isIndentTabs_from_spec lineStr checkToPos fuel i :
  fuel = Z.to_nat (checkToPos - i) →
  isIndentTabs_from lineStr checkToPos fuel i = true ↔
  ∀ k, i ≤ k < checkToPos → lineStr.[k] = TAB.
Proof.
  revert i. induction fuel as [|fuel IH]; intros i Hfuel; simpl.
  - split; [|done]. intros _ k Hk. lia.
  - destruct (Z.ltb_spec i checkToPos) as [Hlt|Hge]; [|lia].
    unfold chareq. destruct (decide (lineStr.[i] = TAB)) as [Htab|Hno].
    + rewrite bool_decide_true by done. simpl. rewrite IH by lia. split.
      * intros Hall k Hk.
        destruct (decide (k = i)) as [->|Hne]; [done|]. apply Hall. lia.
      * intros Hall k Hk. apply Hall. lia.
    + rewrite bool_decide_false by done. simpl. split; [done|].
      intros Hall. destruct Hno. apply Hall. lia.
Qed.

Lemma isIndentTabs_spec (sc : StyleScanner) (line : Z) :
  (isBlankLine sc line = true → isIndentTabs sc line = true)
  ∧ (mayBeRunOnLine sc line = false →
     (isIndentTabs sc line = true ↔
        isBlankLine sc line = true
        ∨ getStartTabCount (vget (fileLines sc) line)
          = getFirstNonspacePos (vget (fileLines sc) line))).
Proof.
  unfold isIndentTabs, isBlankLine, isBlank. cbv zeta.
  set (l := vget (fileLines sc) line).
  destruct (nonspacePos_spec l) as [Hfirst _].
  destruct (getStartTabCount_spec l) as (Hcount & Htabs & Hstop).
  set (p := getFirstNonspacePos l) in *. set (n := getStartTabCount l) in *.
  split.
  - intros Hblank%Z.eqb_eq. rewrite isIndentTabs_from_spec by (f_equal; lia).
    intros k Hk. destruct (mayBeRunOnLine sc line); lia.
  - intros ->. rewrite isIndentTabs_from_spec by (f_equal; lia).
    rewrite Z.eqb_eq.
    destruct Hfirst as [[Hp Hall]|(Hp & Hns & Hbefore)].
    { split; [by left|]. intros _ k Hk. lia. }
    split.
    + intros Hall. right.
      assert (Hnp : n ≤ p).
      { destruct (Z.le_gt_cases n p) as [?|Hgt]; [done|].
        rewrite (Htabs p) in Hns by lia. done. }
      destruct (Z.lt_ge_cases n p) as [Hlt|?]; [|lia].
      destruct Hstop; [lia|]. apply Hall. lia.
    + intros [Hblank|Heq]; [lia|]. intros k Hk. apply Htabs. lia.
Qed.

(** X16.  [isIndentTabs] accepts every blank line; for a line that is not a
    run-on line it holds exactly when the line is blank or starts with
    tabulators up to its first character that is not a space. *)
Theorem indent_tabs (sc : StyleScanner) (line : Z) :
  (isBlankLine sc line = true → isIndentTabs sc line = true)
  ∧ (mayBeRunOnLine sc line = false →
     (isIndentTabs sc line = true ↔
        isBlankLine sc line = true
        ∨ getStartTabCount (vget (fileLines sc) line)
          = getFirstNonspacePos (vget (fileLines sc) line))).
Proof. exact (isIndentTabs_spec sc line). Qed.

Lemma indent_tabs_witness :
  let sc := readFile [lit "void f() {"; TAB :: lit "x = 1;"; lit "  y = 2;"] in
  mayBeRunOnLine sc 2 = false
  ∧ isIndentTabs sc 1 = true
  ∧ (isIndentTabs sc 2 = true ↔
       isBlankLine sc 2 = true
       ∨ getStartTabCount (vget (fileLines sc) 2)
         = getFirstNonspacePos (vget (fileLines sc) 2))
  ∧ isIndentTabs sc 2 = false.
Proof.
  cbv zeta.
  assert (H : mayBeRunOnLine
                (readFile [lit "void f() {"; TAB :: lit "x = 1;"; lit "  y = 2;"])
                2 = false) by (by vm_compute).
  split; [exact H|]. split; [by vm_compute|]. split; [|by vm_compute].
  exact (proj2 (indent_tabs
                  (readFile
                     [lit "void f() {"; TAB :: lit "x = 1;"; lit "  y = 2;"]) 2)
           H).
Defined.

(** X17.  [checkIndentLevels] reports no blank line and no line that
    [checkTabUsage] reports; [checkTabUsage] reports no blank line
    either. *)
Theorem indent_checks_disjoint (sc : StyleScanner) (i : Z) :
  (i ∈ checkIndentLevels sc →
   isBlankLine sc i = false ∧ i ∉ checkTabUsage sc)
  ∧ (i ∈ checkTabUsage sc → isBlankLine sc i = false).
Proof.
  unfold checkIndentLevels, checkTabUsage. rewrite !collectLines_elem. split.
  - intros (Hi & Hbad%negb_true_iff). unfold isOkayIndentLevel in Hbad.
    destruct (isBlankLine sc i || isMidBlockComment sc i
              || negb (isIndentTabs sc i)) eqn:Hskip; [done|].
    apply orb_false_iff in Hskip as [[Hblank _]%orb_false_iff Htabs].
    split; [done|]. intros (_ & Hno). congruence.
  - intros (Hi & Hbad%negb_true_iff). apply not_true_is_false.
    intros Hblank%(proj1 (isIndentTabs_spec sc i)). congruence.
Qed.

Lemma indent_checks_disjoint_witness :
  let sc := readFile [lit "void f() {"; lit "x = 1;"; lit "  y = 2;"; lit "}"] in
  checkIndentLevels sc = [1]
  ∧ checkTabUsage sc = [2]
  ∧ isBlankLine sc 1 = false ∧ 1 ∉ checkTabUsage sc.
Proof.
  cbv zeta. split; [by vm_compute|]. split; [by vm_compute|].
  apply (proj1 (indent_checks_disjoint
                  (readFile
                     [lit "void f() {"; lit "x = 1;"; lit "  y = 2;"; lit "}"])
                  1)).
  vm_compute. apply list_elem_of_here.
Defined.

(** ** Scope helpers *)

Lemma isSameScope_from_spec sc startLine startLevel numLines fuel i :
  fuel = Z.to_nat (numLines - i + 1) →
  isSameScope_from sc startLine startLevel numLines fuel i = true ↔
  ∀ k, i ≤ k ≤ numLines → vget (scopeLevels sc) (startLine + k) = startLevel.
Proof.
  revert i. induction fuel as [|fuel IH]; intros i Hfuel; simpl.
  - split; [|done]. intros _ k Hk. lia.
  - destruct (Z.leb_spec i numLines) as [Hle|Hgt]; [|lia].
    destruct (Z.eqb_spec (vget (scopeLevels sc) (startLine + i)) startLevel)
      as [Heq|Hne]; simpl.
    + rewrite IH by lia. split.
      * intros Hall k Hk.
        destruct (decide (k = i)) as [->|Hki]; [done|]. apply Hall. lia.
      * intros Hall k Hk. apply Hall. lia.
    + split; [done|]. intros Hall. destruct Hne. apply Hall. lia.
Qed.

(** X18.  [isSameScope(startLine, numLines)] holds exactly when the lines
    [startLine .. startLine + numLines] all lie in the file and the
    [numLines] lines after [startLine] have the scope level of [startLine];
    it reads no scope level when the range leaves the file. *)
Theorem same_scope_range (sc : StyleScanner) (startLine numLines : Z) :
  isSameScope sc startLine numLines = true ↔
  0 ≤ startLine
  ∧ startLine + numLines < getSize (fileLines sc)
  ∧ ∀ k, 1 ≤ k ≤ numLines →
         vget (scopeLevels sc) (startLine + k) = vget (scopeLevels sc) startLine.
Proof.
  unfold isSameScope.
  destruct (Z.leb_spec 0 startLine) as [Hlo|Hlo]; simpl;
    [|split; [done|intros [? _]; lia]].
  destruct (Z.ltb_spec (startLine + numLines) (getSize (fileLines sc)))
    as [Hhi|Hhi]; [|split; [done|intros (_ & ? & _); lia]].
  rewrite isSameScope_from_spec by (f_equal; lia). tauto.
Qed.

(** ** Comment lines *)

Lemma getFirstCommentLine_from_spec sc fuel i :
  0 ≤ i → fuel = Z.to_nat (getSize (fileLines sc) - i) →
  let r := getFirstCommentLine_from sc fuel i in
  (r = -1
   ∧ ∀ k, i ≤ k < getSize (fileLines sc) → isCommentLine sc k = false)
  ∨ (i ≤ r < getSize (fileLines sc)
     ∧ isCommentLine sc r = true
     ∧ ∀ k, i ≤ k < r → isCommentLine sc k = false).
Proof.
  revert i. induction fuel as [|fuel IH]; intros i Hi Hfuel; simpl.
  - left. split; [done|]. intros k Hk. lia.
  - destruct (Z.ltb_spec i (getSize (fileLines sc))) as [Hlt|Hge]; [|lia].
    fold (isCommentLine sc i). destruct (isCommentLine sc i) eqn:Hc.
    + right. split_and!; [lia..|done|]. intros k Hk. lia.
    + destruct (IH (i + 1)) as [[Hr Hall]|(Hr & Hyes & Hall)]; [lia..| |].
      * left. split; [done|]. intros k Hk.
        destruct (decide (k = i)) as [->|Hne]; [done|]. apply Hall. lia.
      * right. split_and!; [lia..|done|]. intros k Hk.
        destruct (decide (k = i)) as [->|Hne]; [done|]. apply Hall. lia.
Qed.

(** X19.  [getFirstCommentLine] returns -1 when the file has no comment
    line and the number of its first comment line otherwise.  After
    [readFile] it returns 0 exactly when the file has a line and the first
    token of its first line starts with the block-comment or the
    line-comment marker. *)
Theorem first_comment_line (sc : StyleScanner) (lines : list str) :
  ((getFirstCommentLine sc = -1
    ∧ ∀ k, 0 ≤ k < getSize (fileLines sc) → isCommentLine sc k = false)
   ∨ (0 ≤ getFirstCommentLine sc < getSize (fileLines sc)
      ∧ isCommentLine sc (getFirstCommentLine sc) = true
      ∧ ∀ k, 0 ≤ k < getFirstCommentLine sc → isCommentLine sc k = false))
  ∧ (getFirstCommentLine (readFile lines) = 0 ↔
       lines ≠ []
       ∧ (opensBlock (vget lines 0) = true
          ∨ startsLineComment (vget lines 0) = true)).
Proof.
  assert (Hgen : ∀ sc,
    (getFirstCommentLine sc = -1
     ∧ ∀ k, 0 ≤ k < getSize (fileLines sc) → isCommentLine sc k = false)
    ∨ (0 ≤ getFirstCommentLine sc < getSize (fileLines sc)
       ∧ isCommentLine sc (getFirstCommentLine sc) = true
       ∧ ∀ k, 0 ≤ k < getFirstCommentLine sc → isCommentLine sc k = false)).
  { intros sc'. apply (getFirstCommentLine_from_spec sc' _ 0); [done|].
    f_equal. lia. }
  split; [apply Hgen|].
  assert (Htag : 0 < getSize lines →
            isCommentLine (readFile lines) 0
            = startsLineComment (vget lines 0) || opensBlock (vget lines 0)).
  { intros Hsize.
    change (toBool (vget (commentTags lines) 0)
            = startsLineComment (vget lines 0) || opensBlock (vget lines 0)).
    rewrite commentTags_vget by lia. rewrite inBlockComment_zero.
    unfold lineTag. destruct (startsLineComment _); [done|].
    rewrite orb_false_r. by destruct (opensBlock _). }
  destruct (Hgen (readFile lines)) as [[Hr Hall]|(Hr & Hyes & Hall)].
  - rewrite Hr. split; [done|]. intros [Hne Hmark].
    assert (Hsize : 0 < getSize lines).
    { destruct lines; [done|]. unfold getSize. simpl. lia. }
    specialize (Hall 0 ltac:(done)). rewrite Htag in Hall by done.
    destruct Hmark as [H|H]; rewrite H in Hall; [|done].
    by rewrite orb_true_r in Hall.
  - change (fileLines (readFile lines)) with lines in Hr.
    split.
    + intros Hzero. rewrite Hzero in Hyes, Hr.
      rewrite Htag in Hyes by lia. split.
      * intros ->. unfold getSize in Hr. simpl in Hr. lia.
      * apply orb_true_iff in Hyes. tauto.
    + intros [Hne Hmark].
      destruct (Z.eq_dec (getFirstCommentLine (readFile lines)) 0) as [?|Hpos];
        [done|].
      specialize (Hall 0 ltac:(lia)). rewrite Htag in Hall by lia.
      destruct Hmark as [H|H]; rewrite H in Hall; [|done].
      by rewrite orb_true_r in Hall.
Qed.

Lemma isCommentBeforeCase_from_spec sc fuel cLine :
  0 ≤ cLine → fuel = Z.to_nat (getSize (fileLines sc) - cLine) →
  isCommentBeforeCase_from sc fuel cLine = true ↔
  ∃ c, cLine ≤ c < getSize (fileLines sc)
       ∧ (∀ k, cLine ≤ k < c → isCommentLine sc k = true)
       ∧ isCommentLine sc c = false
       ∧ (getFirstToken (vget (fileLines sc) c) = lit "case"
          ∨ getFirstToken (vget (fileLines sc) c) = lit "default").
Proof.
  revert cLine. induction fuel as [|fuel IH]; intros cLine Hc Hfuel; simpl.
  - split; [done|]. intros (c & Hrange & _). lia.
  - destruct (Z.ltb_spec cLine (getSize (fileLines sc))) as [Hlt|Hge]; [|lia].
    destruct (isCommentLine sc cLine) eqn:Hcomment.
    + rewrite IH by lia. split.
      * intros (c & Hrange & Hall & Hrest). exists c. split; [lia|].
        split; [|done]. intros k Hk.
        destruct (decide (k = cLine)) as [->|Hne]; [done|]. apply Hall. lia.
      * intros (c & Hrange & Hall & Hcode & Hlabel).
        destruct (decide (c = cLine)) as [->|Hne]; [congruence|].
        exists c. split; [lia|]. split; [|done]. intros k Hk. apply Hall. lia.
    + set (first := getFirstToken (vget (fileLines sc) cLine)).
      assert (Hlabel : (if streq first (lit "case") || streq first (lit "default")
                        then true else false) = true ↔
                       first = lit "case" ∨ first = lit "default").
      { rewrite <- !streq_true. destruct (streq first (lit "case")),
          (streq first (lit "default")); simpl; intuition congruence. }
      rewrite Hlabel. split.
      * intros Hfirst. exists cLine. split; [lia|]. split; [|done].
        intros k Hk. lia.
      * intros (c & Hrange & Hall & Hcode & Hfirst).
        destruct (decide (c = cLine)) as [->|Hne]; [done|].
        rewrite Hall in Hcomment by lia. done.
Qed.

(** X20.  For a line of the file, [isCommentBeforeCase] holds exactly when
    the line is a comment line and the first line after it that is not a
    comment exists and starts with [case] or [default]. *)
Theorem comment_before_case (sc : StyleScanner) (line : Z) :
  0 ≤ line < getSize (fileLines sc) →
  isCommentBeforeCase sc line = true ↔
  isCommentLine sc line = true
  ∧ ∃ c, line < c < getSize (fileLines sc)
         ∧ (∀ k, line < k < c → isCommentLine sc k = true)
         ∧ isCommentLine sc c = false
         ∧ (getFirstToken (vget (fileLines sc) c) = lit "case"
            ∨ getFirstToken (vget (fileLines sc) c) = lit "default").
Proof.
  intros Hline. unfold isCommentBeforeCase.
  destruct (isCommentLine sc line); [|split; [done|by intros [? _]]].
  rewrite isCommentBeforeCase_from_spec by lia. split.
  - intros (c & Hrange & Hall & Hrest). split; [done|]. exists c.
    split; [lia|]. split; [|done]. intros k Hk. apply Hall. lia.
  - intros [_ (c & Hrange & Hall & Hrest)]. exists c.
    split; [lia|]. split; [|done]. intros k Hk. apply Hall. lia.
Qed.

Lemma comment_before_case_witness :
  let sc :=
    readFile [lit "switch (x) {"; lit "// first"; lit "// kind"; lit "case 1:";
              lit "}"] in
  0 ≤ 1 < getSize (fileLines sc)
  ∧ (isCommentBeforeCase sc 1 = true ↔
       isCommentLine sc 1 = true
       ∧ ∃ c, 1 < c < getSize (fileLines sc)
              ∧ (∀ k, 1 < k < c → isCommentLine sc k = true)
              ∧ isCommentLine sc c = false
              ∧ (getFirstToken (vget (fileLines sc) c) = lit "case"
                 ∨ getFirstToken (vget (fileLines sc) c) = lit "default"))
  ∧ isCommentBeforeCase sc 1 = true.
Proof.
  cbv zeta.
  assert (H : 0 ≤ 1 < getSize
                        (fileLines
                           (readFile
                              [lit "switch (x) {"; lit "// first"; lit "// kind";
                               lit "case 1:"; lit "}"]))) by (by vm_compute).
  split; [exact H|]. split; [|by vm_compute].
  exact (comment_before_case _ 1 H).
Defined.

(** ** The length of a function *)

Lemma countFunctionLength_from_spec sc startScope fuel line :
  fuel = Z.to_nat (getSize (fileLines sc) - line) →
  let r := countFunctionLength_from sc startScope fuel line in
  line ≤ r
  ∧ (line ≤ getSize (fileLines sc) → r ≤ getSize (fileLines sc))
  ∧ (∀ k, line ≤ k < r → bodyLine sc startScope k = true)
  ∧ (r < getSize (fileLines sc) → bodyLine sc startScope r = false).
Proof.
  revert line. induction fuel as [|fuel IH]; intros line Hfuel; simpl.
  - split_and!; [lia|lia| |lia]. intros k Hk. lia.
  - destruct (Z.ltb_spec line (getSize (fileLines sc))) as [Hlt|Hge]; [|lia].
    fold (bodyLine sc startScope line). simpl.
    destruct (bodyLine sc startScope line) eqn:Hbody.
    + destruct (IH (line + 1)) as (Hr & Hle & Hall & Hstop); [lia|].
      split_and!; [lia|lia| |done]. intros k Hk.
      destruct (decide (k = line)) as [->|Hne]; [done|]. apply Hall. lia.
    + split_and!; [lia|lia| |done]. intros k Hk. lia.
Qed.

(** X21.  For a header line of the file, [countFunctionLength] returns the
    number of lines that follow it without a break and either start with an
    opening brace or lie deeper than the header; the count stays within the
    file, and the line after the counted ones, if any, is no such line. *)
Theorem function_length_count (sc : StyleScanner) (startLine : Z) :
  0 ≤ startLine < getSize (fileLines sc) →
  let n := countFunctionLength sc startLine in
  let startScope := vget (scopeLevels sc) startLine in
  0 ≤ n
  ∧ startLine + n < getSize (fileLines sc)
  ∧ (∀ k, startLine < k ≤ startLine + n → bodyLine sc startScope k = true)
  ∧ (startLine + n + 1 < getSize (fileLines sc) →
     bodyLine sc startScope (startLine + n + 1) = false).
Proof.
  intros Hstart. cbv zeta. unfold countFunctionLength. cbv zeta.
  destruct (countFunctionLength_from_spec sc (vget (scopeLevels sc) startLine)
              (Z.to_nat (getSize (fileLines sc) - (startLine + 1)))
              (startLine + 1) eq_refl) as (Hr & Hle & Hall & Hstop).
  set (r := countFunctionLength_from _ _ _ _) in *.
  split_and!; [lia|lia| |].
  - intros k Hk. apply Hall. lia.
  - replace (startLine + (r - startLine - 1) + 1) with r by lia. done.
Qed.

Lemma function_length_count_witness :
  let sc :=
    readFile [lit "int twice(int x)"; lit "{"; TAB :: lit "return 2 * x;";
              lit "}"; lit "int y;"] in
  countFunctionLength sc 0 = 2
  ∧ 0 ≤ countFunctionLength sc 0
  ∧ 0 + countFunctionLength sc 0 < getSize (fileLines sc)
  ∧ (∀ k, 0 < k ≤ 0 + countFunctionLength sc 0 →
          bodyLine sc (vget (scopeLevels sc) 0) k = true)
  ∧ (0 + countFunctionLength sc 0 + 1 < getSize (fileLines sc) →
     bodyLine sc (vget (scopeLevels sc) 0) (0 + countFunctionLength sc 0 + 1)
     = false).
Proof.
  cbv zeta. split; [by vm_compute|].
  apply (function_length_count
           (readFile [lit "int twice(int x)"; lit "{";
                      TAB :: lit "return 2 * x;"; lit "}"; lit "int y;"]) 0).
  by vm_compute.
Defined.

(** ** Lead-in comments *)

Lemma isLeadInCommentHere_from_spec sc fuel line :
  fuel = Z.to_nat line →
  isLeadInCommentHere_from sc fuel line = true →
  ∃ k, 0 ≤ k < line
       ∧ isCommentLine sc k = true
       ∧ ∀ j, k < j < line → leadInGap sc k j.
Proof.
  revert line. induction fuel as [|fuel IH]; intros line Hfuel; [done|].
  cbn [isLeadInCommentHere_from].
  destruct (Z.ltb_spec line 1) as [Hlt|Hge]; [done|].
  destruct (streq (getFirstToken (vget (fileLines sc) (line - 1)))
              (lit "template")) eqn:Htemplate.
  { apply streq_true in Htemplate.
    intros (k & Hk & Hcomment & Hgap)%IH; [|lia].
    exists k. split; [lia|]. split; [done|]. intros j Hj.
    destruct (decide (j = line - 1)) as [->|Hne]; [by left|]. apply Hgap. lia. }
  destruct (isCommentLine sc (line - 1)) eqn:Habove.
  { intros _. exists (line - 1). split; [lia|]. split; [done|].
    intros j Hj. lia. }
  destruct (Z.ltb_spec 1 line) as [Hmore|Hone]; [|done].
  rewrite andb_true_l.
  destruct (isBlankLine sc (line - 1)) eqn:Hblank; [|done].
  rewrite andb_true_l.
  destruct (isCommentLine sc (line - 2)) eqn:Htwo; [|done].
  intros _. exists (line - 2). split; [lia|]. split; [done|].
  intros j Hj. replace j with (line - 1) by lia. right. split; [lia|done].
Qed.

(** X22.  [isLeadInCommentHere] fails for line 0 and below; when it holds,
    an earlier line is a comment line, and between that comment and the line
    stand only [template] prefix lines, except that the line directly below
    the comment may be blank instead. *)
Theorem lead_in_comment (sc : StyleScanner) (line : Z) :
  (line < 1 → isLeadInCommentHere sc line = false)
  ∧ (isLeadInCommentHere sc line = true →
     ∃ k, 0 ≤ k < line
          ∧ isCommentLine sc k = true
          ∧ ∀ j, k < j < line → leadInGap sc k j).
Proof.
  split.
  - intros Hline. unfold isLeadInCommentHere.
    destruct (Z.to_nat line); [done|]. cbn [isLeadInCommentHere_from].
    by destruct (Z.ltb_spec line 1); [|lia].
  - by apply isLeadInCommentHere_from_spec.
Qed.

Lemma lead_in_comment_witness :
  let sc :=
    readFile [lit "// Largest of two"; lit "template <class T>";
              lit "int largest(T a, T b) {"] in
  isLeadInCommentHere sc 2 = true
  ∧ ∃ k, 0 ≤ k < 2
         ∧ isCommentLine sc k = true
         ∧ ∀ j, k < j < 2 → leadInGap sc k j.
Proof.
  cbv zeta.
  assert (H : isLeadInCommentHere
                (readFile [lit "// Largest of two"; lit "template <class T>";
                           lit "int largest(T a, T b) {"]) 2 = true)
    by (by vm_compute).
  split; [exact H|]. exact (proj2 (lead_in_comment _ 2) H).
Defined.

(** ** Comment markers *)

(** X23.  Every line that [checkStartSpaceComments] reports after
    [readFile] is tagged as a line comment, and its first token is the
    two-slash marker alone. *)
Theorem start_space_comments_are_line_comments (lines : list str) (i : Z) :
  i ∈ checkStartSpaceComments (readFile lines) →
  vget (commentTags lines) i = CPP_COMMENT
  ∧ getFirstToken (vget lines i) = DOUBLE_SLASH.
Proof.
  unfold checkStartSpaceComments. rewrite collectLines_elem. cbv zeta.
  change (fileLines (readFile lines)) with lines.
  intros (Hi & Htest).
  assert (Hfirst : getFirstToken (vget lines i) = DOUBLE_SLASH).
  { unfold getFirstToken. destruct (getNextToken (vget lines i) 0) as [tok pos].
    apply andb_true_iff in Htest as [[Htok _]%andb_true_iff _].
    by apply streq_true in Htok. }
  split; [|done]. rewrite commentTags_vget by done.
  unfold lineTag, startsLineComment. by rewrite Hfirst.
Qed.

Lemma start_space_comments_are_line_comments_witness :
  let lines := [lit "// fine"; lit "//cramped"; lit "x = 1; //late"] in
  checkStartSpaceComments (readFile lines) = [1]
  ∧ vget (commentTags lines) 1 = CPP_COMMENT
  ∧ getFirstToken (vget lines 1) = DOUBLE_SLASH.
Proof.
  cbv zeta. split; [by vm_compute|].
  apply (start_space_comments_are_line_comments
           [lit "// fine"; lit "//cramped"; lit "x = 1; //late"] 1).
  vm_compute. apply list_elem_of_here.
Defined.

(** ** Searching a line *)

Lemma string_find_from_found s t fuel pos :
  string_find_from s t fuel pos ≠ None ↔
  ∃ p, pos ≤ p < pos + Z.of_nat fuel ∧ substr s p (getLength t) = t.
Proof.
  revert pos. induction fuel as [|fuel IH]; intros pos; simpl.
  - split; [done|]. intros (p & Hp & _). lia.
  - case_bool_decide as Hhere.
    + split; [|done]. intros _. exists pos. split; [lia|done].
    + rewrite IH. split.
      * intros (p & Hp & Hsub). exists p. split; [lia|done].
      * intros (p & Hp & Hsub). exists p. split; [|done].
        destruct (decide (p = pos)) as [->|Hne]; [done|lia].
Qed.

Lemma occursIn_substr t s :
  occursIn t s ↔
  ∃ p, 0 ≤ p < 0 + Z.of_nat (Z.to_nat (getLength s - getLength t + 1))
       ∧ substr s p (getLength t) = t.
Proof.
  unfold occursIn, substr, getLength. split.
  - intros (pre & post & ->). exists (Z.of_nat (length pre)). split.
    + rewrite !length_app. lia.
    + rewrite !Nat2Z.id. rewrite drop_app_length. by rewrite take_app_length.
  - intros (p & Hp & Hsub). rewrite Nat2Z.id in Hsub.
    exists (take (Z.to_nat p) s).
    exists (drop (length t) (drop (Z.to_nat p) s)).
    rewrite <- (take_drop (Z.to_nat p) s) at 1. f_equal.
    rewrite <- (take_drop (length t) (drop (Z.to_nat p) s)) at 1.
    by rewrite Hsub.
Qed.

Lemma string_find_occurs s t : string_find s t ≠ None ↔ occursIn t s.
Proof.
  unfold string_find. by rewrite string_find_from_found, occursIn_substr.
Qed.

(** ** Comments after code *)

(** X24.  After [readFile], [checkEndlineComments] reports exactly the
    lines that are not tagged as comments and in which the two-slash marker
    or the block opener occurs somewhere; [checkEndlineRunonComments]
    reports exactly those of them, line 0 apart, in which the block opener
    occurs and the block closer does not. *)
Theorem endline_comments_reported (lines : list str) (i : Z) :
  (i ∈ checkEndlineComments (readFile lines) ↔
   0 ≤ i < getSize lines
   ∧ vget (commentTags lines) i = NO_COMMENT
   ∧ (occursIn DOUBLE_SLASH (vget lines i)
      ∨ occursIn C_COMMENT_START (vget lines i)))
  ∧ (i ∈ checkEndlineRunonComments (readFile lines) ↔
     1 ≤ i < getSize lines
     ∧ vget (commentTags lines) i = NO_COMMENT
     ∧ occursIn C_COMMENT_START (vget lines i)
     ∧ ¬ occursIn C_COMMENT_END (vget lines i)).
Proof.
  unfold checkEndlineComments, checkEndlineRunonComments, isCommentLine.
  rewrite !collectLines_elem.
  change (fileLines (readFile lines)) with lines.
  change (commentLines (readFile lines)) with (commentTags lines).
  rewrite !andb_true_iff, orb_true_iff, !bool_decide_eq_true.
  rewrite !string_find_occurs, negb_toBool, Z.eqb_eq.
  rewrite <- (string_find_occurs _ C_COMMENT_END). unfold NO_COMMENT.
  split; [done|].
  destruct (string_find (vget lines i) C_COMMENT_END); intuition congruence.
Qed.

(** ** Punctuation *)

Lemma punctuationError_from_spec line fuel j :
  fuel = Z.to_nat (getLength line - j) →
  punctuationError_from line fuel j = true ↔
  ∃ k, j ≤ k < getLength line ∧ punctuationFault line k.
Proof.
  revert j. induction fuel as [|fuel IH]; intros j Hfuel; simpl.
  - split; [done|]. intros (k & Hk & _). lia.
  - destruct (Z.ltb_spec j (getLength line)) as [Hlt|Hge]; [|lia].
    assert (Hnext : (∃ k, j + 1 ≤ k < getLength line ∧ punctuationFault line k)
                    → ∃ k, j ≤ k < getLength line ∧ punctuationFault line k).
    { intros (k & Hk & Hfault). exists k. split; [lia|done]. }
    assert (Hrest : ¬ punctuationFault line j →
                    (∃ k, j ≤ k < getLength line ∧ punctuationFault line k)
                    → ∃ k, j + 1 ≤ k < getLength line ∧ punctuationFault line k).
    { intros Hno (k & Hk & Hfault). exists k. split; [|done].
      destruct (decide (k = j)) as [->|Hne]; [done|lia]. }
    destruct (isPunctuation line.[j]) eqn:Hpunct.
    + destruct ((1 <? j) && isspace line.[j - 1]
                || (j <? getLength line - 1)
                   && negb (isPunctuationChaser line.[j + 1])) eqn:Hbad.
      * split; [|done]. intros _. exists j. split; [lia|].
        split; [done|].
        apply orb_true_iff in Hbad as [[H1 H2]%andb_true_iff|[H1 H2]%andb_true_iff].
        -- left. split; [|done]. by apply Z.ltb_lt.
        -- right. split; [by apply Z.ltb_lt|]. by apply negb_true_iff.
      * rewrite IH by lia. split; [done|]. apply Hrest.
        intros (_ & [[H1 H2]|[H1 H2]]).
        -- apply Z.ltb_lt in H1. by rewrite H1, H2 in Hbad.
        -- apply Z.ltb_lt in H1. rewrite H1, H2 in Hbad.
           by rewrite orb_true_r in Hbad.
    + rewrite IH by lia. split; [done|]. apply Hrest.
      intros (Hp & _). congruence.
Qed.

(** X25.  [checkPunctuationSpacing] reports exactly the lines that hold a
    badly spaced comma or semicolon, each line once and in increasing
    order. *)
Theorem punctuation_spacing_reported (sc : StyleScanner) :
  (∀ i, i ∈ checkPunctuationSpacing sc ↔
         0 ≤ i < getSize (fileLines sc)
         ∧ ∃ j, 0 ≤ j < getLength (vget (fileLines sc) i)
                ∧ punctuationFault (vget (fileLines sc) i) j)
  ∧ StronglySorted Z.lt (checkPunctuationSpacing sc).
Proof.
  unfold checkPunctuationSpacing. split; [|apply collectLines_spec].
  intros i. rewrite collectLines_elem. unfold punctuationError.
  rewrite punctuationError_from_spec by (f_equal; lia). done.
Qed.

(** ** The error report *)


(** ** Constants *)

Lemma constantNameError_spec line :
  constantNameError line
  = let toks := showTokens_line line in
    streq (tokenOf toks 0) (lit "const")
    && isBasicType (tokenOf toks 1)
    && negb (isOkConstant (tokenOf toks 2)).
Proof.
  unfold constantNameError. rewrite showTokens_line_tokens. cbv zeta.
  destruct (getNextToken line 0) as [prefix p0] eqn:H0.
  destruct (stream_first _ _ _ H0) as [L0 S0].
  rewrite <- (stream_token _ _ _ _ S0).
  destruct (streq prefix (lit "const")); [|done].
  destruct (getNextToken line p0) as [type p1] eqn:H1.
  destruct (stream_next _ _ _ _ _ L0 H1) as [L1 S1]. rewrite S0 in S1.
  rewrite <- tokenOf_tail, <- (stream_token _ _ _ _ S1).
  destruct (isBasicType type); [|done].
  destruct (getNextToken line p1) as [name p2] eqn:H2.
  destruct (stream_next _ _ _ _ _ L1 H2) as [L2 S2]. rewrite S1 in S2.
  rewrite <- !tokenOf_tail, <- (stream_token _ _ _ _ S2).
  by destruct (isOkConstant name).
Qed.

(** X27.  A line that [checkConstantNames] reports starts with the tokens
    [const] and a built-in type, followed by a token that is no acceptable
    constant name; none of [checkVariableNames], [checkFunctionNames] and
    [checkClassNames] reports that line. *)
Theorem constant_names_reported (sc : StyleScanner) (i : Z) :
  i ∈ checkConstantNames sc →
  let toks := showTokens_line (vget (fileLines sc) i) in
  tokenOf toks 0 = lit "const"
  ∧ isBasicType (tokenOf toks 1) = true
  ∧ isOkConstant (tokenOf toks 2) = false
  ∧ (i ∉ checkVariableNames sc)
  ∧ (i ∉ checkFunctionNames sc)
  ∧ i ∉ checkClassNames sc.
Proof.
  unfold checkConstantNames, checkVariableNames, checkFunctionNames,
    checkClassNames.
  rewrite !collectLines_elem. cbv zeta.
  intros (Hi & [Hcode Herror]%andb_true_iff).
  rewrite constantNameError_spec in Herror. cbv zeta in Herror.
  apply andb_true_iff in Herror as [[Hconst Hbasic]%andb_true_iff Hname].
  apply streq_true in Hconst. apply negb_true_iff in Hname.
  split_and!; [done|done|done| | |].
  - intros (_ & [_ Hvar]%andb_true_iff). revert Hvar.
    unfold variableNameError. rewrite variableNameError_fuel_spec by lia.
    cbv zeta. cbn [default from_option id].
    rewrite <- showTokens_line_tokens, Hconst. by vm_compute.
  - intros (_ & [_ Hfun]%andb_true_iff). revert Hfun.
    pose proof (isFunctionHeader2_flag (vget (fileLines sc) i) []) as Hflag.
    cbv zeta.
    destruct (isFunctionHeader2 (vget (fileLines sc) i) []) as [header name].
    simpl in Hflag. rewrite Hflag, isFunctionHeader_tokens, Hconst.
    by vm_compute.
  - intros (_ & [_ Hclass]%andb_true_iff). revert Hclass.
    rewrite classNameError_spec, getFirstToken_tokens, Hconst. by vm_compute.
Qed.

Lemma constant_names_reported_witness :
  let sc := readFile [lit "const int maxSize = 10;"; lit "const int MAX = 3;"] in
  let toks := showTokens_line (vget (fileLines sc) 0) in
  checkConstantNames sc = [0]
  ∧ tokenOf toks 0 = lit "const"
  ∧ isBasicType (tokenOf toks 1) = true
  ∧ isOkConstant (tokenOf toks 2) = false
  ∧ (0 ∉ checkVariableNames sc)
  ∧ (0 ∉ checkFunctionNames sc)
  ∧ 0 ∉ checkClassNames sc.
Proof.
  cbv zeta. split; [by vm_compute|].
  apply (constant_names_reported
           (readFile [lit "const int maxSize = 10;"; lit "const int MAX = 3;"])
           0).
  vm_compute. apply list_elem_of_here.
Defined.

(** ** Overly long functions *)

Lemma insideClass_step sc i :
  0 ≤ i →
  insideClass sc i ↔
  (isCommentLine sc i = false ∧ isClassHeader (vget (fileLines sc) i) = true)
  ∨ (vget (scopeLevels sc) i ≠ 0 ∧ insideClass sc (i - 1)).
Proof.
  intros Hi. split.
  - intros (j & Hj & Hcode & Hclass & Hdeep).
    destruct (decide (j = i)) as [->|Hne]; [by left|]. right. split.
    + apply Hdeep. lia.
    + exists j. split; [lia|]. split; [done|]. split; [done|].
      intros k Hk. apply Hdeep. lia.
  - intros [[Hcode Hclass]|[Hscope (j & Hj & Hcode & Hclass & Hdeep)]].
    + exists i. split; [lia|]. split; [done|]. split; [done|]. intros k Hk. lia.
    + exists j. split; [lia|]. split; [done|]. split; [done|]. intros k Hk.
      destruct (decide (k = i)) as [->|Hne]; [done|]. apply Hdeep. lia.
Qed.

Lemma checkFunctionLength_upto sc (n : nat) :
  let st := for_loop (Z.of_nat n) (checkFunctionLength_body sc) ([], false) in
  (st.2 = true ↔ insideClass sc (Z.of_nat n - 1))
  ∧ ∀ x, x ∈ st.1 ↔ 0 ≤ x < Z.of_nat n ∧ tooLongFunction sc x.
Proof.
  induction n as [|n [IHflag IHerrors]]; cbv zeta.
  - rewrite for_loop_zero. simpl. split.
    + split; [done|]. intros (j & Hj & _). lia.
    + intros x. split; [by intros ?%elem_of_nil|lia].
  - rewrite Nat2Z.inj_succ, <- Z.add_1_r, for_loop_succ by lia.
    cbv zeta in IHflag, IHerrors.
    destruct (for_loop (Z.of_nat n) (checkFunctionLength_body sc) ([], false))
      as [errorLines inClassHeader].
    cbn [fst snd] in IHflag, IHerrors.
    replace (Z.of_nat n + 1 - 1) with (Z.of_nat n) by lia.
    pose proof (insideClass_step sc (Z.of_nat n) (Nat2Z.is_nonneg n)) as Hstep.
    assert (Hnew : ∀ x, 0 ≤ x < Z.of_nat n + 1 ∧ tooLongFunction sc x ↔
                        (0 ≤ x < Z.of_nat n ∧ tooLongFunction sc x)
                        ∨ (x = Z.of_nat n ∧ tooLongFunction sc (Z.of_nat n))).
    { intros x. split.
      - intros [Hx Hlong]. destruct (decide (x = Z.of_nat n)) as [->|Hne].
        + by right.
        + left. split; [lia|done].
      - intros [[Hx Hlong]|[-> Hlong]]; (split; [lia|done]). }
    unfold checkFunctionLength_body, tooLongFunction in *.
    fold (isCommentLine sc (Z.of_nat n)).
    set (line := vget (fileLines sc) (Z.of_nat n)) in *.
    set (count := countFunctionLength sc (Z.of_nat n)) in *.
    assert (Hscope : (vget (scopeLevels sc) (Z.of_nat n) =? 0) = true
                     ↔ ¬ vget (scopeLevels sc) (Z.of_nat n) ≠ 0).
    { rewrite Z.eqb_eq. lia. }
    unfold getFunctionLengthLimit. cbv zeta.
    destruct (vget (scopeLevels sc) (Z.of_nat n) =? 0),
      (isCommentLine sc (Z.of_nat n)), (isClassHeader line),
      (isFunctionHeader line), inClassHeader;
      cbn [negb fst snd];
      repeat match goal with
             | |- context [?a <? ?b] => destruct (Z.ltb_spec a b)
             end;
      cbn [fst snd];
      (split; [|intros x; rewrite Hnew, ?elem_of_app, ?list_elem_of_singleton,
                  IHerrors]);
      intuition (try congruence; try lia).
Qed.

(** X28.  With the check switched off [checkFunctionLength] reports
    nothing.  Switched on, it reports exactly the function headers outside
    comments that are followed by more than 25 counted lines, or by more
    than one counted line when the header lies inside a class. *)
Theorem function_length_reported (sc : StyleScanner) :
  checkFunctionLength false sc = []
  ∧ ∀ i, i ∈ checkFunctionLength true sc ↔
         0 ≤ i < getSize (fileLines sc) ∧ tooLongFunction sc i.
Proof.
  split; [done|]. intros i. unfold checkFunctionLength, getSize.
  apply (checkFunctionLength_upto sc (length (fileLines sc))).
Qed.

(** A method of two lines inside a class is reported, the same function at
    file level is not. *)
Example function_length_scenario :
  let method :=
    [TAB :: lit "int get() {"; TAB :: TAB :: lit "int x = 1;";
     TAB :: TAB :: lit "return x;"; TAB :: lit "}"] in
  checkFunctionLength true
    (readFile ([lit "class A {"] ++ method ++ [lit "};"])) = [1]
  ∧ checkFunctionLength true (readFile method) = [].
Proof. by vm_compute. Qed.

(** ** Long stretches without a comment *)

Lemma stretchEnd_from_spec sc fuel end_ :
  fuel = Z.to_nat (getSize (fileLines sc) - end_) →
  let r := stretchEnd_from sc fuel end_ in
  end_ ≤ r
  ∧ (end_ ≤ getSize (fileLines sc) → r ≤ getSize (fileLines sc))
  ∧ ∀ k, end_ ≤ k < r - 1 → isCommentLine sc k = false.
Proof.
  revert end_. induction fuel as [|fuel IH]; intros end_ Hfuel; simpl.
  - split_and!; [lia|lia|]. intros k Hk. lia.
  - destruct (Z.ltb_spec end_ (getSize (fileLines sc))) as [Hlt|Hge]; [|lia].
    fold (isCommentLine sc end_).
    destruct (isCommentLine sc end_) eqn:Hcomment; simpl.
    + split_and!; [lia|lia|]. intros k Hk. lia.
    + destruct (IH (end_ + 1)) as (Hr & Hle & Hall); [lia|].
      split_and!; [lia|lia|]. intros k Hk.
      destruct (decide (k = end_)) as [->|Hne]; [done|]. apply Hall. lia.
Qed.

Lemma checkTooFewComments_from_spec sc fuel i errorLines x :
  0 ≤ i →
  x ∈ checkTooFewComments_from sc 25 fuel i errorLines →
  x ∈ errorLines ∨ ∃ j, i ≤ j ∧ x = j + 12 ∧ longStretchAfter sc j.
Proof.
  revert i errorLines. induction fuel as [|fuel IH]; intros i errorLines Hi;
    cbn [checkTooFewComments_from]; [by left|].
  destruct (Z.ltb_spec i (getSize (fileLines sc))) as [Hlt|Hge]; [|by left].
  fold (isCommentLine sc i).
  destruct (isCommentLine sc i) eqn:Hcomment.
  - cbv zeta.
    destruct (stretchEnd_from_spec sc
                (Z.to_nat (getSize (fileLines sc) - (i + 1))) (i + 1) eq_refl)
      as (Hr & Hle & Hall).
    set (r := stretchEnd_from sc _ (i + 1)) in *.
    intros [Hin|(j & Hj & -> & Hlong)]%IH; [| |lia].
    + destruct (Z.ltb_spec 25 (r - i - 2)) as [Hspan|Hspan]; [|by left].
      apply elem_of_app in Hin as [Hin|Hx%list_elem_of_singleton]; [by left|].
      subst x. right. exists i. split; [lia|]. split; [done|].
      split; [done|]. split; [done|]. intros k Hk.
      split; [lia|]. apply Hall. lia.
    + right. exists j. split; [lia|done].
  - intros [Hin|(j & Hj & -> & Hlong)]%IH; [by left| |lia].
    right. exists j. split; [lia|done].
Qed.

Lemma checkTooFewComments_from_enough sc fuel fuel' i errorLines :
  (Z.to_nat (getSize (fileLines sc) - i) ≤ fuel)%nat →
  (Z.to_nat (getSize (fileLines sc) - i) ≤ fuel')%nat →
  checkTooFewComments_from sc 25 fuel i errorLines
  = checkTooFewComments_from sc 25 fuel' i errorLines.
Proof.
  revert fuel' i errorLines.
  induction fuel as [|fuel IH]; intros [|fuel'] i errorLines Hf Hf';
    cbn [checkTooFewComments_from]; [done| | |].
  - by destruct (Z.ltb_spec i (getSize (fileLines sc))); [lia|].
  - by destruct (Z.ltb_spec i (getSize (fileLines sc))); [lia|].
  - destruct (Z.ltb_spec i (getSize (fileLines sc))) as [Hlt|Hge]; [|done].
    destruct (toBool (vget (commentLines sc) i)); [|apply IH; lia].
    cbv zeta.
    destruct (stretchEnd_from_spec sc
                (Z.to_nat (getSize (fileLines sc) - (i + 1))) (i + 1) eq_refl)
      as (Hr & _).
    apply IH; lia.
Qed.

(** X29.  The loop of [checkTooFewComments] ends within as many iterations
    as the file has lines.  Every line that it reports lies 12 lines below a
    comment line that is followed by at least 26 lines of the file without a
    comment. *)
Theorem too_few_comments_reported (sc : StyleScanner) :
  (∀ fuel, (length (fileLines sc) ≤ fuel)%nat →
           checkTooFewComments_from sc 25 fuel 0 [] = checkTooFewComments sc)
  ∧ ∀ x, x ∈ checkTooFewComments sc → ∃ i, x = i + 12 ∧ longStretchAfter sc i.
Proof.
  unfold checkTooFewComments. cbv zeta. split.
  - intros fuel Hfuel.
    apply checkTooFewComments_from_enough; unfold getSize; lia.
  - intros x [Hin|(j & _ & Hx & Hlong)]%checkTooFewComments_from_spec;
      [|by exists j|done].
    by apply elem_of_nil in Hin.
Qed.

Lemma too_few_comments_reported_witness :
  let sc := readFile (lit "// sum" :: replicate 27 (lit "x = x + 1;")) in
  checkTooFewComments sc = [12]
  ∧ ∃ i, 12 = i + 12 ∧ longStretchAfter sc i.
Proof.
  cbv zeta. split; [by vm_compute|].
  apply (proj2 (too_few_comments_reported
                  (readFile (lit "// sum" :: replicate 27 (lit "x = x + 1;"))))
           12).
  vm_compute. apply list_elem_of_here.
Defined.

(** ** Spaces around operators *)

Lemma tokenSpansFrom_tokens s fuel pos :
  (tokenSpansFrom s fuel pos).*1 = tokensFrom s fuel pos.
Proof.
  revert pos. induction fuel as [|fuel IH]; intros pos; simpl; [done|].
  destruct (getNextToken s pos) as [tok pos'].
  destruct (streq tok []); [done|]. simpl. by rewrite IH.
Qed.

Lemma tokenSpansFrom_enough s fuel fuel' pos :
  0 ≤ pos →
  (Z.to_nat (getLength s - pos) < fuel)%nat →
  (Z.to_nat (getLength s - pos) < fuel')%nat →
  tokenSpansFrom s fuel pos = tokenSpansFrom s fuel' pos.
Proof.
  revert fuel' pos.
  induction fuel as [|fuel IH]; intros fuel' pos Hpos Hf Hf'; [lia|].
  destruct fuel' as [|fuel']; [lia|]. simpl.
  destruct (getNextToken s pos) as [tok pos'] eqn:Hnext.
  destruct (streq tok []) eqn:Htok; [done|]. apply streq_false in Htok.
  destruct (getNextToken_spec _ _ _ _ Hpos Hnext) as (Hle & _ & Hlt & _).
  specialize (Hlt Htok).
  destruct (Z.le_gt_cases (getLength s) pos) as [Hend|Hin].
  { rewrite getNextToken_end in Hnext by done. by injection Hnext as <- <-. }
  f_equal. apply IH; lia.
Qed.

Lemma tokenSpansFrom_unfold s fuel fuel' pos :
  0 ≤ pos →
  (Z.to_nat (getLength s - pos) < fuel)%nat →
  (Z.to_nat (getLength s - pos) < fuel')%nat →
  tokenSpansFrom s fuel pos =
    let '(tok, pos') := getNextToken s pos in
    if streq tok [] then [] else (tok, pos') :: tokenSpansFrom s fuel' pos'.
Proof.
  intros Hpos Hf Hf'. destruct fuel as [|fuel]; [lia|]. simpl.
  destruct (getNextToken s pos) as [tok pos'] eqn:Hnext.
  destruct (streq tok []) eqn:Htok; [done|]. apply streq_false in Htok.
  destruct (getNextToken_spec _ _ _ _ Hpos Hnext) as (Hle & _ & Hlt & _).
  specialize (Hlt Htok).
  destruct (Z.le_gt_cases (getLength s) pos) as [Hend|Hin].
  { rewrite getNextToken_end in Hnext by done. by injection Hnext as <- <-. }
  f_equal. apply tokenSpansFrom_enough; lia.
Qed.

Lemma tokenSpansFrom_position s fuel pos tok pos' :
  0 ≤ pos → (tok, pos') ∈ tokenSpansFrom s fuel pos →
  substr s (pos' - getLength tok) (getLength tok) = tok
  ∧ 0 ≤ pos' - getLength tok ∧ pos' ≤ getLength s.
Proof.
  revert pos. induction fuel as [|fuel IH]; intros pos Hpos; simpl.
  - by intros ?%elem_of_nil.
  - destruct (getNextToken s pos) as [tok' p'] eqn:Hnext.
    destruct (streq tok' []) eqn:Htok; [by intros ?%elem_of_nil|].
    apply streq_false in Htok.
    destruct (getNextToken_spec _ _ _ _ Hpos Hnext) as (Hle & _).
    intros [Heq|Hin]%elem_of_cons.
    + injection Heq as -> ->.
      pose proof (getNextToken_run s pos Hpos) as Hrun.
      rewrite Hnext in Hrun. cbn [fst snd] in Hrun.
      destruct (Hrun Htok) as (_ & _ & _ & _ & _ & _ & _ & Hsub & Hstart & Hend).
      split; [done|]. split; [lia|done].
    + apply (IH p'); [lia|done].
Qed.

(** The loop reports the line when one of the tokens still to come is a
    spaced operator that lacks a space. *)
Lemma spacedOperatorError_fuel_spec line fuel tok pos :
  0 ≤ pos →
  (tokenMeasure line pos tok < fuel)%nat →
  spacedOperatorError_fuel fuel line tok pos =
    Some (existsb (λ span, isSpacedOperator span.1
                           && lacksSpace line span.1 span.2)
            (if streq tok [] then []
             else (tok, pos) :: tokenSpansFrom line (S (length line)) pos)).
Proof.
  revert tok pos. induction fuel as [|fuel IH]; intros tok pos Hpos Hfuel;
    [lia|].
  cbn [spacedOperatorError_fuel].
  destruct (streq tok []) eqn:Htok; [done|]. cbn [negb existsb fst snd].
  destruct (isSpacedOperator tok && lacksSpace line tok pos); [done|].
  cbn [orb]. apply streq_false in Htok.
  rewrite (tokenSpansFrom_unfold line (S (length line)) (S (length line)) pos)
    by (unfold getLength; lia).
  destruct (getNextToken line pos) as [tok' pos'] eqn:Hnext.
  pose proof (tokenMeasure_next _ _ _ _ _ Hpos Hnext Htok) as Hless.
  destruct (getNextToken_spec _ _ _ _ Hpos Hnext) as (Hle & _).
  rewrite IH by lia. by destruct (streq tok' []).
Qed.

Lemma spacedOperatorError_tokens line :
  spacedOperatorError line
  = existsb (λ span, isSpacedOperator span.1 && lacksSpace line span.1 span.2)
      (tokenSpans line).
Proof.
  unfold spacedOperatorError, tokenSpans. cbv zeta.
  rewrite (tokenSpansFrom_unfold line (S (length line)) (S (length line)) 0)
    by (unfold getLength; lia).
  destruct (getNextToken line 0) as [tok pos] eqn:Hnext.
  destruct (getNextToken_spec _ _ _ _ (Z.le_refl 0) Hnext) as (Hpos & _).
  rewrite spacedOperatorError_fuel_spec
    by (done || by apply tokenMeasure_first).
  done.
Qed.

(** X30.  [checkSpacedOperators] reports exactly the lines outside comments
    in which one of the tokens is a spaced operator with a character that
    is not a space right before or right after it; each line is reported
    once, in increasing order.  The tokens are those that [showTokens]
    lists, each one the piece of the line that ends at its position. *)
Theorem spaced_operators_reported (sc : StyleScanner) :
  (∀ i, i ∈ checkSpacedOperators sc ↔
         0 ≤ i < getSize (fileLines sc)
         ∧ isCommentLine sc i = false
         ∧ ∃ tok pos,
             (tok, pos) ∈ tokenSpans (vget (fileLines sc) i)
             ∧ isSpacedOperator tok = true
             ∧ lacksSpace (vget (fileLines sc) i) tok pos = true)
  ∧ StronglySorted Z.lt (checkSpacedOperators sc)
  ∧ ∀ line,
      (tokenSpans line).*1 = showTokens_line line
      ∧ ∀ tok pos, (tok, pos) ∈ tokenSpans line →
          substr line (pos - getLength tok) (getLength tok) = tok
          ∧ 0 ≤ pos - getLength tok ∧ pos ≤ getLength line.
Proof.
  unfold checkSpacedOperators. split_and!; [|apply collectLines_spec|].
  - intros i. rewrite collectLines_elem, andb_true_iff, negb_true_iff.
    rewrite spacedOperatorError_tokens, existsb_exists.
    split.
    + intros (Hi & Hcode & [tok pos] & Hin%list_elem_of_In & Htest).
      apply andb_true_iff in Htest as [Hop Hspace].
      split; [done|]. split; [done|]. by exists tok, pos.
    + intros (Hi & Hcode & tok & pos & Hin & Hop & Hspace).
      split; [done|]. split; [done|]. exists (tok, pos).
      split; [by apply list_elem_of_In|]. cbn [fst snd]. by rewrite Hop, Hspace.
  - intros line. split.
    + unfold tokenSpans. rewrite tokenSpansFrom_tokens, showTokens_line_tokens.
      unfold tokensAt. apply tokensFrom_enough; unfold getLength; lia.
    + intros tok pos Hin.
      by apply (tokenSpansFrom_position line (S (length line)) 0).
Qed.

(** An assignment written without spaces is reported; a compound operator
    that the tokenizer reads as one run with its neighbour is not. *)
Example spaced_operators_scenario :
  checkSpacedOperators
    (readFile [lit "x=1;"; lit "y = x;"; lit "z =-1;"; lit "// a=b"]) = [0].
Proof. by vm_compute. Qed.
